(** * WordPress plugin audit automation: a shallow embedding

    The development follows the two source files of the repository:

    - [dbutils.py]: the SQLite catalogue ([PluginData]) and findings
      ([PluginResults]) tables, the upsert of a catalogue entry, the
      selection of the plugins to download;
    - [wordpress-plugin-audit.py]: the paginated catalogue ingestion, the
      batched download and extraction of plugin archives, the audit pass.

    Python values, exceptions, [datetime] formatting and parsing, the SQLite
    table semantics and the file system are modelled first; the functions of
    the repository come next, under their own names; the theorems close the
    file. *)

From Stdlib Require Import ZArith Lia Bool Ascii String.
From stdpp Require Import base option list gmap strings pretty.

Local Open Scope Z_scope.

(** ** Python values, exceptions, results *)

(** The values a decoded JSON document hands to the program.  (Booleans,
    floats and nested containers do not occur in the fields read here.) *)
Inductive value :=
| VNone
| VInt (z : Z)
| VStr (s : string).

Global Instance value_eq_dec : EqDecision value.
Proof. solve_decision. Defined.

(** The exceptions that the modelled code raises or handles.
    [OperationalError] and [ProgrammingError] are the two subclasses of
    [sqlite3.DatabaseError] that matter here; [HTTPError] is a subclass of
    [requests.RequestException].  [ZlibError] is [zlib.error]; with
    [RuntimeError] (an encrypted member), [NotImplementedError] (a
    compression method that is not supported) and [OSError] it is what the
    extraction of an archive raises besides [BadZipFile]. *)
Inductive exn :=
| KeyError (key : string)
| ValueError
| TypeError
| OverflowError
| OperationalError (msg : string)
| ProgrammingError (msg : string)
| SystemExit (msg : string)
| FileNotFoundError
| JSONDecodeError
| CalledProcessError
| RequestException
| BadZipFile
| ZlibError
| RuntimeError
| NotImplementedError
| OSError.

Global Instance exn_eq_dec : EqDecision exn.
Proof. solve_decision. Defined.

Inductive result (A : Type) :=
| Ok (a : A)
| Raise (e : exn).
Arguments Ok {A} a.
Arguments Raise {A} e.

Definition rbind {A B} (r : result A) (k : A -> result B) : result B :=
  match r with
  | Ok a => k a
  | Raise e => Raise e
  end.

Declare Scope py_scope.
Delimit Scope py_scope with py.
Notation "'let?' x ':=' r 'in' k" := (rbind r (fun x => k))
  (at level 10, x pattern, r at level 100, k at level 200) : py_scope.
Local Open Scope py_scope.

Definition is_ok {A} (r : result A) : bool :=
  match r with Ok _ => true | Raise _ => false end.

(** A Python mapping with string keys, as [json()] returns it. *)
Abbreviation pydict := (gmap string value).

(** [d[k]] *)
Definition getitem (d : pydict) (k : string) : result value :=
  match d !! k with
  | Some v => Ok v
  | None => Raise (KeyError k)
  end.

(** [d.get(k, dflt)] *)
Definition dict_get (d : pydict) (k : string) (dflt : value) : value :=
  default dflt (d !! k).

(** Truth value of an object in a condition. *)
Definition truthy (v : value) : bool :=
  match v with
  | VNone => false
  | VInt z => negb (z =? 0)
  | VStr s => negb (String.eqb s "")
  end.

(** ** Decimal digits *)

Module Digits.

Definition digit (n : nat) : ascii := ascii_of_nat (48 + n).

Definition digit_val (c : ascii) : option nat :=
  let n := nat_of_ascii c in
  if ((48 <=? n) && (n <=? 57))%nat then Some (n - 48)%nat else None.

Definition is_digit (c : ascii) : bool := bool_decide (is_Some (digit_val c)).

(** Zero-padded fixed-width decimals, as [%m], [%d], [%H], [%M], [%S] and
    [%Y] print them for the value ranges of a [datetime]. *)
Definition pad2 (n : nat) : string :=
  String (digit (n / 10)) (String (digit (n mod 10)) EmptyString).

Definition pad4 (n : nat) : string := pad2 (n / 100) +:+ pad2 (n mod 100).

Definition pad6 (n : nat) : string := pad4 (n / 100) +:+ pad2 (n mod 100).

(** White space as [str.isspace] and the class [\s] of a text pattern
    have it, among the characters below 256. *)
Definition is_space (c : ascii) : bool :=
  let n := nat_of_ascii c in
  (((9 <=? n) && (n <=? 13)) || ((28 <=? n) && (n <=? 32))
   || (n =? 133) || (n =? 160))%nat.

Fixpoint skip_spaces (s : string) : string :=
  match s with
  | String a r => if is_space a then skip_spaces r else s
  | EmptyString => s
  end.

(** [int(s)] on a string: white space around the number is dropped; the
    number is an optional sign and decimal digits, with single underscores
    allowed between digits; more than 4300 digits are refused.
    [digits_value] reads the digits: the value so far, the number of digits
    so far, whether the last character was a digit; it gives the value, the
    number of digits and what follows the number. *)
Fixpoint digits_value (s : string) (acc count : Z) (after_digit : bool)
  : option (Z * Z * string) :=
  match s with
  | EmptyString => if after_digit then Some (acc, count, s) else None
  | String c r =>
      match digit_val c with
      | Some d => digits_value r (10 * acc + Z.of_nat d) (count + 1) true
      | None =>
          if Ascii.eqb c "_" then
            if after_digit then
              match r with
              | String c' _ =>
                  if is_digit c' then digits_value r acc count false else None
              | EmptyString => None
              end
            else None
          else if after_digit then Some (acc, count, s) else None
      end
  end.

Definition max_str_digits : Z := 4300.

Definition int_of_string (s : string) : option Z :=
  let s := skip_spaces s in
  let '(negative, s) :=
    match s with
    | String "-" r => (true, r)
    | String "+" r => (false, r)
    | _ => (false, s)
    end in
  match digits_value s 0 0 false with
  | Some (n, count, rest) =>
      if (count <=? max_str_digits) && String.eqb (skip_spaces rest) ""
      then Some (if negative then - n else n)
      else None
  | None => None
  end.

End Digits.

(** [int(v)] *)
Definition py_int (v : value) : result Z :=
  match v with
  | VInt z => Ok z
  | VStr s => match Digits.int_of_string s with
              | Some z => Ok z
              | None => Raise ValueError
              end
  | VNone => Raise TypeError
  end.

(** ** [datetime]: formatting and parsing *)

Module DateTime.
Import Digits.
Local Open Scope nat_scope.

Record datetime := mk_datetime {
  year : nat; month : nat; day : nat;
  hour : nat; minute : nat; second : nat; microsecond : nat }.

Definition is_leap (y : nat) : bool :=
  (y mod 4 =? 0) && (negb (y mod 100 =? 0) || (y mod 400 =? 0)).

Definition days_in_month (y m : nat) : nat :=
  match m with
  | 2 => if is_leap y then 29 else 28
  | 4 | 6 | 9 | 11 => 30
  | _ => 31
  end.

(** The checks of the [datetime] constructor on a date. *)
Definition valid_date (y m d : nat) : bool :=
  (1 <=? y) && (y <? 100 * 100) && (1 <=? m) && (m <=? 12)
  && (1 <=? d) && (d <=? days_in_month y m).

(** [%Y] of [strftime], which is the C library's: the year in decimal
    without leading zeros, so that a year below 1000 has fewer than four
    digits.  (The years of a [datetime] are 1 to 9999.) *)
Definition year_text (y : nat) : string :=
  if y <? 10 then String (digit y) EmptyString
  else if y <? 100 then pad2 y
  else if y <? 1000 then String (digit (y / 100)) (pad2 (y mod 100))
  else pad4 y.

(** [dt.strftime("%Y-%m-%d %H:%M:%S")] *)
Definition strftime_canonical (dt : datetime) : string :=
  year_text (year dt) +:+ "-" +:+ pad2 (month dt) +:+ "-" +:+ pad2 (day dt)
  +:+ " " +:+ pad2 (hour dt) +:+ ":" +:+ pad2 (minute dt)
  +:+ ":" +:+ pad2 (second dt).

(** [dt.strftime("%Y-%m-%d")] *)
Definition strftime_date (dt : datetime) : string :=
  year_text (year dt) +:+ "-" +:+ pad2 (month dt) +:+ "-" +:+ pad2 (day dt).

(** [dt.isoformat()]: the separator is the letter T, and the microseconds
    are printed only when they are not zero. *)
Definition isoformat (dt : datetime) : string :=
  pad4 (year dt) +:+ "-" +:+ pad2 (month dt) +:+ "-" +:+ pad2 (day dt)
  +:+ "T" +:+ pad2 (hour dt) +:+ ":" +:+ pad2 (minute dt)
  +:+ ":" +:+ pad2 (second dt)
  +:+ (if microsecond dt =? 0 then "" else "." +:+ pad6 (microsecond dt)).

(** [dt - relativedelta(years=n)]: the year moves, and a day past the end
    of the month (29 February) is clipped. *)
Definition minus_years (dt : datetime) (n : nat) : datetime :=
  let y := year dt - n in
  mk_datetime y (month dt) (Nat.min (day dt) (days_in_month y (month dt)))
              (hour dt) (minute dt) (second dt) (microsecond dt).

(** *** [strptime]

    [datetime.strptime] compiles the format into a regular expression and
    matches it against the whole string.  Each directive below is the
    alternation CPython uses for it; an alternation is tried left to right.
    In the two formats of this program every numeric directive is followed
    by a literal or a class that no digit matches, so trying the
    alternatives in order, without coming back to them, accepts the same
    strings as the regular expression. *)

Definition parser (A : Type) := string -> option (A * string).

Definition p_alt {A} (p q : parser A) : parser A :=
  fun s => match p s with Some r => Some r | None => q s end.

Definition p_two (ok : nat -> nat -> bool) : parser nat :=
  fun s =>
    match s with
    | String a (String b r) =>
        match digit_val a, digit_val b with
        | Some x, Some y => if ok x y then Some (10 * x + y, r) else None
        | _, _ => None
        end
    | _ => None
    end.

Definition p_one (ok : nat -> bool) : parser nat :=
  fun s =>
    match s with
    | String a r =>
        match digit_val a with
        | Some x => if ok x then Some (x, r) else None
        | None => None
        end
    | _ => None
    end.

Definition p_lit (c : ascii) : parser unit :=
  fun s =>
    match s with
    | String a r => if Ascii.eqb a c then Some (tt, r) else None
    | _ => None
    end.

(** A blank of the format: one or more white-space characters. *)
Definition p_blank : parser unit :=
  fun s =>
    match s with
    | String a r => if is_space a then Some (tt, skip_spaces r) else None
    | _ => None
    end.

Definition lower (c : ascii) : ascii :=
  let n := nat_of_ascii c in
  if (65 <=? n) && (n <=? 90) then ascii_of_nat (n + 32) else c.

(** A word of the locale tables, matched without regard to case. *)
Fixpoint p_word (w : string) : parser unit :=
  fun s =>
    match w with
    | EmptyString => Some (tt, s)
    | String c w' =>
        match s with
        | String a r => if Ascii.eqb (lower a) c then p_word w' r else None
        | _ => None
        end
    end.

(** [%Y]: four digits. *)
Definition p_Y : parser nat :=
  fun s =>
    match p_two (fun _ _ => true) s with
    | Some (hi, r) =>
        match p_two (fun _ _ => true) r with
        | Some (lo, r') => Some (100 * hi + lo, r')
        | None => None
        end
    | None => None
    end.

(** [%m] and [%I]: [1[0-2]|0[1-9]|[1-9]]. *)
Definition p_m : parser nat :=
  p_alt (p_two (fun x y => (x =? 1) && (y <=? 2) || (x =? 0) && (1 <=? y)))
        (p_one (fun x => 1 <=? x)).

(** [%d]: [3[0-1]|[1-2]\d|0[1-9]|[1-9]| [1-9]]. *)
Definition p_d : parser nat :=
  p_alt (p_two (fun x y => (x =? 3) && (y <=? 1)
                           || (1 <=? x) && (x <=? 2)
                           || (x =? 0) && (1 <=? y)))
    (p_alt (p_one (fun x => 1 <=? x))
           (fun s => match p_lit " " s with
                     | Some (_, r) => p_one (fun x => 1 <=? x) r
                     | None => None
                     end)).

(** [%M]: [[0-5]\d|\d]. *)
Definition p_M : parser nat :=
  p_alt (p_two (fun x _ => x <=? 5)) (p_one (fun _ => true)).

(** [%p]: the locale's [am] and [pm]; the result tells whether it is pm. *)
Definition p_p : parser bool :=
  fun s =>
    match p_word "am" s with
    | Some (_, r) => Some (false, r)
    | None => match p_word "pm" s with
              | Some (_, r) => Some (true, r)
              | None => None
              end
    end.

(** [%Z]: [utc] and [gmt], which every host accepts.  (A host adds the
    names of its own time zone; the catalogue reports GMT.) *)
Definition p_Z : parser unit := p_alt (p_word "utc") (p_word "gmt").

Definition p_bind {A B} (p : parser A) (k : A -> parser B) : parser B :=
  fun s => match p s with Some (a, r) => k a r | None => None end.

Definition p_ret {A} (a : A) : parser A := fun s => Some (a, s).

Notation "'parse' x '<-' p ';' k" := (p_bind p (fun x => k))
  (at level 10, x pattern, p at level 100, k at level 200).

(** The hour of the 12-hour clock, with its am/pm mark. *)
Definition hour24 (h12 : nat) (pm : bool) : nat :=
  if pm then (if h12 =? 12 then 12 else h12 + 12)
  else (if h12 =? 12 then 0 else h12).

(** The matcher of ["%Y-%m-%d %I:%M%p %Z"]. *)
Definition re_last_updated : parser datetime :=
  parse y <- p_Y; parse _ <- p_lit "-"; parse m <- p_m;
  parse _ <- p_lit "-"; parse d <- p_d; parse _ <- p_blank;
  parse h <- p_m; parse _ <- p_lit ":"; parse mi <- p_M;
  parse pm <- p_p; parse _ <- p_blank; parse _ <- p_Z;
  p_ret (mk_datetime y m d (hour24 h pm) mi 0 0).

(** The matcher of ["%Y-%m-%d"]. *)
Definition re_added : parser datetime :=
  parse y <- p_Y; parse _ <- p_lit "-"; parse m <- p_m;
  parse _ <- p_lit "-"; parse d <- p_d;
  p_ret (mk_datetime y m d 0 0 0 0).

(** The string has to match to its end, and the date has to exist. *)
Definition strptime (re : parser datetime) (s : string) : result datetime :=
  match re s with
  | Some (dt, EmptyString) =>
      if valid_date (year dt) (month dt) (day dt) then Ok dt
      else Raise ValueError
  | _ => Raise ValueError
  end.

(** Chronological order, field by field. *)
Definition key (dt : datetime) : list nat :=
  [year dt; month dt; day dt; hour dt; minute dt; second dt; microsecond dt].

Fixpoint lex_leb (a b : list nat) : bool :=
  match a, b with
  | [], _ => true
  | _ :: _, [] => false
  | x :: a', y :: b' => (x <? y) || ((x =? y) && lex_leb a' b')
  end.

Definition dt_leb (a b : datetime) : bool := lex_leb (key a) (key b).

End DateTime.

(** ** SQLite: values, comparison, the two tables *)

Module Sqlite.

(** The storage classes that occur (no REAL, no BLOB). *)
Inductive sqlval :=
| SNull
| SInt (z : Z)
| SText (s : string).

Global Instance sqlval_eq_dec : EqDecision sqlval.
Proof. solve_decision. Defined.

(** How the [sqlite3] module binds a Python object to a [?]: an [int]
    outside the signed 64-bit range is refused. *)
Definition bind_param (v : value) : result sqlval :=
  match v with
  | VNone => Ok SNull
  | VInt z =>
      if (- 2 ^ 63 <=? z) && (z <? 2 ^ 63) then Ok (SInt z)
      else Raise OverflowError
  | VStr s => Ok (SText s)
  end.

(** A column declared [VARCHAR(255)] or [TEXT] has TEXT affinity: an
    integer is stored as its decimal text. *)
Definition text_affinity (v : sqlval) : sqlval :=
  match v with
  | SInt z => SText (pretty z)
  | _ => v
  end.

(** Comparison of two values: NULL compares with nothing, an integer is
    below every text, two texts compare byte by byte (the BINARY
    collation). *)
Definition sql_compare (a b : sqlval) : option comparison :=
  match a, b with
  | SNull, _ | _, SNull => None
  | SInt x, SInt y => Some (x ?= y)
  | SInt _, SText _ => Some Lt
  | SText _, SInt _ => Some Gt
  | SText x, SText y => Some (String.compare x y)
  end.

(** [a > b] and [a >= b] as a WHERE clause reads them: a NULL result
    does not select the row. *)
Definition sql_gt (a b : sqlval) : bool :=
  match sql_compare a b with Some Gt => true | _ => false end.

Definition sql_ge (a b : sqlval) : bool :=
  match sql_compare a b with Some Gt | Some Eq => true | _ => false end.

(** A row of [PluginData].  [slug], [version] and [download_link] have TEXT
    affinity, [active_installs] and [downloaded] INTEGER affinity,
    [last_updated] and [added_date] NUMERIC affinity; the last four never
    receive a text that reads as a number, so they keep what is bound. *)
Record plugin_row := mk_plugin_row {
  slug : sqlval;
  version : sqlval;
  active_installs : sqlval;
  downloaded : sqlval;
  last_updated : sqlval;
  added_date : sqlval;
  download_link : sqlval }.

Global Instance plugin_row_eq_dec : EqDecision plugin_row.
Proof. solve_decision. Defined.

(** A row of [PluginResults].  The [id] column is declared
    [INT AUTO_INCREMENT PRIMARY KEY], which SQLite reads as an ordinary
    column: it stays NULL, and is left out here. *)
Record result_row := mk_result_row {
  r_slug : string;
  file_path : string;
  check_id : string;
  start_line : Z;
  end_line : Z;
  vuln_lines : string }.

(** The database file: each table exists or not. *)
Record database := mk_database {
  PluginData : option (list plugin_row);
  PluginResults : option (list result_row) }.

(** Two keys collide on the primary key when they are equal and not NULL
    (SQLite lets NULL into a primary key that is not an INTEGER one, and
    NULLs never collide). *)
Definition pk_conflict (a b : sqlval) : bool :=
  match a with
  | SNull => false
  | _ => bool_decide (a = b)
  end.

(** The [DO UPDATE SET] list of the upsert, column by column. *)
Definition do_update (old excluded : plugin_row) : plugin_row :=
  {| slug := slug old;
     version := version excluded;
     active_installs := active_installs excluded;
     downloaded := downloaded excluded;
     last_updated := last_updated excluded;
     added_date := added_date excluded;
     download_link := download_link excluded |}.

(** [INSERT ... ON CONFLICT(slug) DO UPDATE SET ...] on the rows. *)
Fixpoint upsert (r : plugin_row) (t : list plugin_row) : list plugin_row :=
  match t with
  | [] => [r]
  | old :: t' =>
      if pk_conflict (slug r) (slug old) then do_update old r :: t'
      else old :: upsert r t'
  end.

(** A statement on a table that does not exist fails with SQLITE_ERROR,
    which the [sqlite3] module raises as [OperationalError]. *)
Definition no_such_table {A} (name : string) : result A :=
  Raise (OperationalError ("no such table: " +:+ name)).

(** What a [try ... except sqlite3.ProgrammingError] lets through. *)
Definition except_ProgrammingError {A} (body handler : result A) : result A :=
  match body with
  | Raise (ProgrammingError _) => handler
  | _ => body
  end.

(** What a [try ... except sqlite3.DatabaseError] lets through: both
    [OperationalError] and [ProgrammingError] are caught. *)
Definition except_DatabaseError {A} (body handler : result A) : result A :=
  match body with
  | Raise (ProgrammingError _) | Raise (OperationalError _) => handler
  | _ => body
  end.

(** [CREATE TABLE IF NOT EXISTS]: an existing table keeps its rows. *)
Definition create_if_not_exists {A} (t : option (list A)) : option (list A) :=
  match t with
  | Some rows => Some rows
  | None => Some []
  end.

(** The primary-key constraint on a table. *)
Definition keys (t : list plugin_row) : list sqlval :=
  filter (fun k => k <> SNull) (slug <$> t).

Definition pk_unique (t : list plugin_row) : Prop := NoDup (keys t).

End Sqlite.

(** ** [dbutils.py] *)

Module DbUtils.
Import Sqlite.

Definition create_plugin_data_table (db : database) : database :=
  {| PluginData := create_if_not_exists (PluginData db);
     PluginResults := PluginResults db |}.

Definition create_plugin_results_table (db : database) : database :=
  {| PluginData := PluginData db;
     PluginResults := create_if_not_exists (PluginResults db) |}.

(** [sqlite3.connect] opens the file, creating it when it is not there;
    the schema is created only on request. *)
Definition connect_to_db (file : database) (create_schema : bool)
  : result database :=
  except_DatabaseError
    (if create_schema
     then Ok (create_plugin_results_table (create_plugin_data_table file))
     else Ok file)
    (Raise (SystemExit
       "Database does not exist. Please run with the '--create-schema' flag to create the database.")).

Definition delete_results_table (db : database) : database :=
  create_plugin_results_table
    {| PluginData := PluginData db; PluginResults := None |}.

Definition table_missing : string :=
  "Table does not exist. Please run with the '--create-schema' flag to create the table.".

(** The two date conversions of [insert_plugin_into_db]: a value that
    counts as true is parsed and printed again, any other is kept. *)
Definition convert_date (re : DateTime.parser DateTime.datetime)
    (fmt : DateTime.datetime -> string) (v : value) : result value :=
  if truthy v then
    match v with
    | VStr s => let? dt := DateTime.strptime re s in Ok (VStr (fmt dt))
    | _ => Raise TypeError
    end
  else Ok v.

(** The tuple [data], in the order its components are evaluated. *)
Record plugin_data := mk_plugin_data {
  d_slug : value;
  d_version : value;
  d_active_installs : Z;
  d_downloaded : Z;
  d_last_updated : value;
  d_added_date : value;
  d_download_link : value }.

Definition prepare_data (plugin : pydict) : result plugin_data :=
  let last_updated := dict_get plugin "last_updated" VNone in
  let added_date := dict_get plugin "added" VNone in
  let? last_updated :=
    convert_date DateTime.re_last_updated DateTime.strftime_canonical last_updated in
  let? added_date :=
    convert_date DateTime.re_added DateTime.strftime_date added_date in
  let? slug := getitem plugin "slug" in
  let version := dict_get plugin "version" (VStr "N/A") in
  let? active_installs := py_int (dict_get plugin "active_installs" (VInt 0)) in
  let? downloaded := py_int (dict_get plugin "downloaded" (VInt 0)) in
  Ok (mk_plugin_data slug version active_installs downloaded
        last_updated added_date
        (dict_get plugin "download_link" (VStr "N/A"))).

(** The seven parameters bound to the statement, each stored under the
    affinity of its column. *)
Definition bind_row (d : plugin_data) : result plugin_row :=
  let? slug := bind_param (d_slug d) in
  let? version := bind_param (d_version d) in
  let? active_installs := bind_param (VInt (d_active_installs d)) in
  let? downloaded := bind_param (VInt (d_downloaded d)) in
  let? last_updated := bind_param (d_last_updated d) in
  let? added_date := bind_param (d_added_date d) in
  let? download_link := bind_param (d_download_link d) in
  Ok (mk_plugin_row (text_affinity slug) (text_affinity version)
        active_installs downloaded last_updated added_date
        (text_affinity download_link)).

(** [cursor.execute(sql, data)] for the upsert: the statement is prepared
    (which needs the table), the parameters are bound, the row is
    written. *)
Definition execute_upsert (db : database) (d : plugin_data) : result database :=
  match PluginData db with
  | Some t =>
      let? r := bind_row d in
      Ok {| PluginData := Some (upsert r t); PluginResults := PluginResults db |}
  | None => no_such_table "PluginData"
  end.

Definition insert_plugin_into_db (db : database) (plugin : pydict)
  : result database :=
  let? data := prepare_data plugin in
  except_ProgrammingError (execute_upsert db data)
    (Raise (SystemExit table_missing)).

(** One entry of the [results] list of the analyzer's document, with the
    fields that [insert_result_into_db] reads: [path], [check_id],
    [start.line], [end.line], [extra.lines]. *)
Record finding := mk_finding {
  f_path : string;
  f_check_id : string;
  f_start_line : Z;
  f_end_line : Z;
  f_lines : string }.

Definition execute_insert_result (db : database) (r : result_row)
  : result database :=
  match PluginResults db with
  | Some t =>
      let? _ := bind_param (VInt (start_line r)) in
      let? _ := bind_param (VInt (end_line r)) in
      Ok {| PluginData := PluginData db; PluginResults := Some (t ++ [r]) |}
  | None => no_such_table "PluginResults"
  end.

Definition insert_result_into_db (db : database) (slug : string) (item : finding)
  : result database :=
  let data :=
    mk_result_row slug (f_path item) (f_check_id item)
      (f_start_line item) (f_end_line item) (f_lines item) in
  except_ProgrammingError (execute_insert_result db data)
    (Raise (SystemExit table_missing)).

(** [adapt_datetime_iso], registered as the adapter of [datetime]. *)
Definition adapt_datetime_iso (val : DateTime.datetime) : sqlval :=
  SText (DateTime.isoformat val).

(** [select_plugins_for_download]; [now] is what [datetime.now()] returns,
    and the result is what [fetchall()] reads from the cursor. *)
Definition select_plugins_for_download (db : database) (now : DateTime.datetime)
    (active_installs : Z) : result (list (sqlval * sqlval)) :=
  let two_years_ago := DateTime.minus_years now 2 in
  except_ProgrammingError
    (match PluginData db with
     | Some t =>
         let? p1 := bind_param (VInt active_installs) in
         let p2 := adapt_datetime_iso two_years_ago in
         Ok (map (fun r => (slug r, download_link r))
               (filter (fun r => sql_gt (Sqlite.active_installs r) p1
                                 && sql_ge (last_updated r) p2 = true) t))
     | None => no_such_table "PluginData"
     end)
    (Raise (SystemExit table_missing)).

End DbUtils.

(** ** The world around [wordpress-plugin-audit.py] *)

(** *** The plugin workspace and the archives

    The directory [download_dir/plugins] maps the name of each entry to the
    files below it; a plugin directory exists when its name has an entry,
    even an empty one.  A directory is told by its files: the directories
    below a plugin directory that hold no file are not represented.  The
    workspace describes the paths [download_dir/plugins/slug] for the slugs
    that are one path component (not empty, neither [.] nor [..], without
    [/]), which is what the catalogue sends. *)
Abbreviation dir := (gmap (list string) string).
Abbreviation workspace := (gmap string dir).

(** What reading the data of a member gives: its content, or an exception.
    The exception comes when the member is opened, before its file is
    created ([Breaks None e]: a bad local header raises [BadZipFile], an
    encrypted member [RuntimeError], an unknown compression method
    [NotImplementedError]), or while its data is copied, after the file has
    been created and has received a part of the content, possibly the empty
    one ([Breaks (Some part) e]: a wrong check sum raises [BadZipFile], a
    damaged compressed stream [zlib.error]). *)
Inductive reading :=
| Reads (content : string)
| Breaks (written : option string) (e : exn).

(** A member of a zip archive: the top-level directory it belongs to, its
    path below it (empty for the entry of the directory itself, which has no
    data: its reading is [Reads ""]) and what reading it gives.  (No name of
    an archive stands for a file and for a directory at once.) *)
Record member := mk_member {
  m_top : string;
  m_path : list string;
  m_data : reading }.

(** Writing a file: its directories are made first. *)
Definition write_member (w : workspace) (top : string) (path : list string)
    (data : string) : workspace :=
  let d := default ∅ (w !! top) in
  <[top := match path with [] => d | _ => <[path := data]> d end]> w.

(** What a member whose reading breaks leaves: its directories, and its
    file with the part written if the file was created. *)
Definition left_behind (w : workspace) (top : string) (path : list string)
    (written : option string) : workspace :=
  match written with
  | Some part => write_member w top path part
  | None => write_member w top [] ""
  end.

(** [ZipFile.extractall]: the members are written one after the other; the
    first member whose reading breaks stops the extraction with its
    exception, and what was written stays. *)
Fixpoint extractall (w : workspace) (z : list member) : result unit * workspace :=
  match z with
  | [] => (Ok tt, w)
  | m :: z' =>
      match m_data m with
      | Reads data => extractall (write_member w (m_top m) (m_path m) data) z'
      | Breaks written e => (Raise e, left_behind w (m_top m) (m_path m) written)
      end
  end.

(** *** The external collaborators *)

(** The catalogue page as decoded from JSON: the [info] and [plugins] keys
    may each be missing. *)
Record page_json := mk_page {
  info : option pydict;
  plugins : option (list pydict) }.

(** What [requests.get] meets: no answer at all, or a status with a body.
    The body of a catalogue answer decodes to a page or is not JSON; the
    body of an archive answer opens as a zip archive or does not. *)
Inductive http (B : Type) :=
| Unreachable
| Status (code : Z) (body : option B).
Arguments Unreachable {B}.
Arguments Status {B} code body.

(** The findings document: its [results] key may be missing. *)
Record semgrep_doc := mk_doc { results : option (list DbUtils.finding) }.

Record env := mk_env {
  (** the catalogue API, by page number *)
  catalog : Z -> http page_json;
  (** the archive server, by download link *)
  archive : string -> http (list member);
  (** the analyzer: rule configuration, plugin name and plugin directory
      give the exit status of the process ([None] when it could not be
      started) and the directory as the process leaves it *)
  semgrep : string -> string -> dir -> option Z * dir;
  (** [json.load] on the content of a file *)
  json_load : string -> option semgrep_doc;
  (** [datetime.now()] *)
  now : DateTime.datetime }.

(** *** Observable events *)

Inductive message :=
| MsgPageFailed (page code : Z)
| MsgNoPluginInfo
| MsgInserted (slug : value)
| MsgLength (n : nat)
| MsgSkipExisting (slug : string)
| MsgDeleteExisting (slug : string)
| MsgDownloading (slug : string)
| MsgDownloadFailed (slug : string)
| MsgUnzipFailed (slug : string)
| MsgSemgrepDone (plugin : string)
| MsgSemgrepFailed (plugin : string)
| MsgUnexpected (plugin : string).

Inductive event :=
| PageRequest (page : Z)            (* [requests.get] on a catalogue page *)
| Commit                            (* [db_conn.commit()] *)
| Admit (slug : Sqlite.sqlval)      (* a coroutine is appended to [ongoing] *)
| Resolve (slug : Sqlite.sqlval)    (* that coroutine has completed *)
| Rmtree (slug : string)            (* [shutil.rmtree] *)
| HttpGet (link : Sqlite.sqlval)    (* [requests.get] on a download link *)
| RunSemgrep (plugin : string)      (* [subprocess.run] *)
| Print (m : message).

(** *** State, exceptions and events together *)

Record state := mk_state {
  ws : workspace;
  db : Sqlite.database }.

Definition M (A : Type) : Type := state -> result A * state * list event.

Definition ret {A} (a : A) : M A := fun s => (Ok a, s, []).

Definition bind {A B} (m : M A) (k : A -> M B) : M B :=
  fun s =>
    match m s with
    | (Ok a, s', t) => let '(r, s'', t') := k a s' in (r, s'', t ++ t')
    | (Raise e, s', t) => (Raise e, s', t)
    end.

Definition raise {A} (e : exn) : M A := fun s => (Raise e, s, []).

Definition emit (e : event) : M unit := fun s => (Ok tt, s, [e]).

Definition print (m : message) : M unit := emit (Print m).

Notation "'do' x '<-' m ';' k" := (bind m (fun x => k))
  (at level 10, x pattern, m at level 100, k at level 200) : py_scope.
Notation "m ';;' k" := (bind m (fun _ => k))
  (at level 100, k at level 200, right associativity) : py_scope.

Definition when (b : bool) (m : M unit) : M unit := if b then m else ret tt.

(** A statement on the database: the new database on success, the old one
    when the statement raises. *)
Definition on_db (f : Sqlite.database -> result Sqlite.database) : M unit :=
  fun s =>
    match f (db s) with
    | Ok d => (Ok tt, {| ws := ws s; db := d |}, [])
    | Raise e => (Raise e, s, [])
    end.

Definition lift {A} (r : result A) : M A := fun s => (r, s, []).

(** [for x in l: body], where the body tells whether the loop goes on
    ([false] is a [break]). *)
Fixpoint for_break {A} (l : list A) (body : A -> M bool) : M unit :=
  match l with
  | [] => ret tt
  | x :: l' => do go <- body x; if go then for_break l' body else ret tt
  end.

Fixpoint for_each {A} (l : list A) (body : A -> M unit) : M unit :=
  match l with
  | [] => ret tt
  | x :: l' => body x;; for_each l' body
  end.

Definition events {A} (r : result A * state * list event) : list event := r.2.
Definition final {A} (r : result A * state * list event) : state := r.1.2.
Definition outcome {A} (r : result A * state * list event) : result A := r.1.1.

(** ** [wordpress-plugin-audit.py] *)

Section Program.
Variable E : env.

(** [get_plugins(page)]: a status other than 200 prints and returns
    [None]; nothing catches a failed connection or a body that is not
    JSON. *)
Definition get_plugins (page : Z) : M (option page_json) :=
  emit (PageRequest page);;
  match catalog E page with
  | Unreachable => raise RequestException
  | Status code body =>
      if code =? 200 then
        match body with
        | Some data => ret (Some data)
        | None => raise JSONDecodeError
        end
      else print (MsgPageFailed page code);; ret None
  end.

(** [range(1, total_pages + 1)] for the value found under [pages]. *)
Definition page_range (total_pages : value) : result (list Z) :=
  match total_pages with
  | VInt n => Ok (seqZ 1 n)
  | _ => Raise TypeError
  end.

Definition store_page (verbose : bool) (page : Z) : M bool :=
  do data <- get_plugins page;
  match data with
  | Some (mk_page _ (Some plugins)) =>
      for_each plugins (fun plugin =>
        on_db (fun d => DbUtils.insert_plugin_into_db d plugin);;
        when verbose
          (do slug <- lift (getitem plugin "slug"); print (MsgInserted slug)));;
      emit Commit;;
      ret true
  | _ => ret false
  end.

Definition write_plugins_to_db (verbose : bool) : M unit :=
  do data <- get_plugins 1;
  match data with
  | Some (mk_page (Some info) _) =>
      do total_pages <- lift (getitem info "pages");
      do pages <- lift (page_range total_pages);
      for_break pages (store_page verbose)
  | _ => print MsgNoPluginInfo
  end.

(** The two [except] clauses of [download_and_extract_plugin]: the message
    that each prints; every other exception goes on. *)
Definition handler (slug : string) (e : exn) : option message :=
  match e with
  | RequestException => Some (MsgDownloadFailed slug)
  | BadZipFile => Some (MsgUnzipFailed slug)
  | _ => None
  end.

(** [download_and_extract_plugin]: the slug names the directory, so it has
    to be a string; the two handled failures print and return, and what the
    extraction has written by then stays. *)
Definition fetch_archive (slug : string) (download_link : Sqlite.sqlval) : M unit :=
  emit (HttpGet download_link);;
  match download_link with
  | Sqlite.SText url =>
      match archive E url with
      | Unreachable => print (MsgDownloadFailed slug)
      | Status code body =>
          if (400 <=? code) && (code <? 600) then print (MsgDownloadFailed slug)
          else
            match body with
            | None => print (MsgUnzipFailed slug)
            | Some z =>
                fun s =>
                  match extractall (ws s) z with
                  | (Ok _, w) => (Ok tt, {| ws := w; db := db s |}, [])
                  | (Raise e, w) =>
                      match handler slug e with
                      | Some msg => (Ok tt, {| ws := w; db := db s |}, [Print msg])
                      | None => (Raise e, {| ws := w; db := db s |}, [])
                      end
                  end
            end
      end
  | _ => print (MsgDownloadFailed slug)
  end.

(** [shutil.rmtree] and [os.path.exists] on the path
    [download_dir/plugins/slug], for a slug that is one path component: the
    path is then the entry of the workspace under the slug.  (Another text,
    empty or with a separator, names a path that the workspace does not
    describe.) *)
Definition rmtree (slug : string) : M unit :=
  fun s => (Ok tt, {| ws := delete slug (ws s); db := db s |}, [Rmtree slug]).

Definition path_exists (slug : string) : M bool :=
  fun s => (Ok (bool_decide (is_Some (ws s !! slug))), s, []).

Definition try_download (slug : string) (download_link : Sqlite.sqlval)
    (verbose : bool) : M unit :=
  when verbose (print (MsgDownloading slug));;
  fetch_archive slug download_link.

Definition download_and_extract_plugin (slug download_link : Sqlite.sqlval)
    (replace_downloads verbose : bool) : M unit :=
  match slug with
  | Sqlite.SText slug =>
      do present <- path_exists slug;
      if present then
        if negb replace_downloads then
          when verbose (print (MsgSkipExisting slug))
        else
          when verbose (print (MsgDeleteExisting slug));;
          rmtree slug;;
          try_download slug download_link verbose
      else try_download slug download_link verbose
  | _ => raise TypeError
  end.

(** [await asyncio.gather] on the coroutines of [ongoing]: no coroutine of the batch awaits
    anything, so the event loop runs them to completion one after the
    other, in order; an exception of one of them reaches the caller after
    the whole batch has run. *)
Definition attempt (m : M unit) : M (option exn) :=
  fun s =>
    match m s with
    | (Ok _, s', t) => (Ok None, s', t)
    | (Raise e, s', t) => (Ok (Some e), s', t)
    end.

Fixpoint gather (ongoing : list (Sqlite.sqlval * M unit)) (failed : option exn)
  : M unit :=
  match ongoing with
  | [] => match failed with Some e => raise e | None => ret tt end
  | (slug, coro) :: rest =>
      do r <- attempt coro;
      emit (Resolve slug);;
      gather rest (match failed with Some e => Some e | None => r end)
  end.

(** The batch size written in the loop. *)
Definition batch_size : nat := 10.

Fixpoint download_loop (plugins : list (Sqlite.sqlval * Sqlite.sqlval))
    (ongoing : list (Sqlite.sqlval * M unit))
    (replace_downloads verbose : bool) : M unit :=
  match plugins with
  | [] =>
      if (0 <? length ongoing)%nat then gather ongoing None else ret tt
  | (slug, download_link) :: rest =>
      let ongoing :=
        ongoing ++ [(slug, download_and_extract_plugin slug download_link
                             replace_downloads verbose)] in
      emit (Admit slug);;
      if (length ongoing =? batch_size)%nat then
        gather ongoing None;;
        download_loop rest [] replace_downloads verbose
      else download_loop rest ongoing replace_downloads verbose
  end.

Definition download_plugins_in_database (active_installs : Z)
    (replace_downloads verbose : bool) : M unit :=
  do plugins <- (fun s =>
    (DbUtils.select_plugins_for_download (db s) (now E) active_installs, s, []));
  print (MsgLength (length plugins));;
  download_loop plugins [] replace_downloads verbose.

(** [os.listdir] of the workspace. *)
Definition listdir (w : workspace) : list string := (map_to_list w).*1.

Definition output_file : list string := ["semgrep_output.json"].

(** The analyzer process for one plugin: it may rewrite the plugin
    directory; a non-zero exit status ([CalledProcessError]) and a process
    that does not start are caught and printed. *)
Definition run_semgrep (config plugin : string) (verbose : bool) : M unit :=
  fun s =>
    let '(status, d) := semgrep E config plugin (default ∅ (ws s !! plugin)) in
    (Ok tt, {| ws := <[plugin := d]> (ws s); db := db s |},
     RunSemgrep plugin ::
     match status with
     | Some code =>
         if code =? 0
         then (if verbose then [Print (MsgSemgrepDone plugin)] else [])
         else [Print (MsgSemgrepFailed plugin)]
     | None => [Print (MsgUnexpected plugin)]
     end).

(** [open(output_file)] and [json.load(file)], then [data["results"]]:
    none of the three is inside the [try]. *)
Definition read_results (plugin : string) : M (list DbUtils.finding) :=
  fun s =>
    (match default ∅ (ws s !! plugin) !! output_file with
     | None => Raise FileNotFoundError
     | Some text =>
         match json_load E text with
         | None => Raise JSONDecodeError
         | Some data =>
             match results data with
             | None => Raise (KeyError "results")
             | Some l => Ok l
             end
         end
     end, s, []).

Definition audit_plugin (config : string) (verbose : bool) (plugin : string)
  : M unit :=
  run_semgrep config plugin verbose;;
  do items <- read_results plugin;
  for_each items (fun item =>
    on_db (fun d => DbUtils.insert_result_into_db d plugin item);;
    emit Commit).

Definition run_semgrep_and_store_results (config : string) (verbose : bool)
  : M unit :=
  do plugins <- (fun s => (Ok (listdir (ws s)), s, []));
  for_each plugins (audit_plugin config verbose).

End Program.

(** ** Definitions used to state the properties *)

(** The hour of the 12-hour clock as the catalogue prints it: with two
    digits, or without a leading zero (["6:00pm"]). *)
Definition hour_text (h : nat) (padded : bool) : string :=
  if padded || (10 <=? h)%nat then Digits.pad2 h
  else String (Digits.digit h) EmptyString.

(** The timestamp as the catalogue prints it,
    ["YYYY-MM-DD hh:mmAM/PM ZONE"]. *)
Definition source_timestamp (y m d h : nat) (padded : bool) (mi : nat)
    (mark zone : string) : string :=
  Digits.pad4 y +:+ "-" +:+ Digits.pad2 m +:+ "-" +:+ Digits.pad2 d
  +:+ " " +:+ hour_text h padded +:+ ":" +:+ Digits.pad2 mi +:+ mark
  +:+ " " +:+ zone.

Definition is_pm (mark : string) : bool :=
  bool_decide (mark = "PM" \/ mark = "pm").

(** The canonical representation, ["YYYY-MM-DD HH:MM:SS"], every field
    with its full number of digits. *)
Definition canonical_timestamp (y m d h mi s : nat) : string :=
  Digits.pad4 y +:+ "-" +:+ Digits.pad2 m +:+ "-" +:+ Digits.pad2 d
  +:+ " " +:+ Digits.pad2 h +:+ ":" +:+ Digits.pad2 mi
  +:+ ":" +:+ Digits.pad2 s.

(** The text that the write stores for a date and a time: what [strftime]
    prints. *)
Definition stored_timestamp (y m d h mi s : nat) : string :=
  DateTime.strftime_canonical (DateTime.mk_datetime y m d h mi s 0).

(** The matcher of the canonical representation, to read a stored
    timestamp back. *)
Definition re_canonical : DateTime.parser DateTime.datetime :=
  let two := DateTime.p_two (fun _ _ => true) in
  DateTime.p_bind DateTime.p_Y (fun y =>
  DateTime.p_bind (DateTime.p_lit "-") (fun _ =>
  DateTime.p_bind two (fun m =>
  DateTime.p_bind (DateTime.p_lit "-") (fun _ =>
  DateTime.p_bind two (fun d =>
  DateTime.p_bind (DateTime.p_lit " ") (fun _ =>
  DateTime.p_bind two (fun h =>
  DateTime.p_bind (DateTime.p_lit ":") (fun _ =>
  DateTime.p_bind two (fun mi =>
  DateTime.p_bind (DateTime.p_lit ":") (fun _ =>
  DateTime.p_bind two (fun s =>
  DateTime.p_ret (DateTime.mk_datetime y m d h mi s 0)))))))))))).

(** Selection as the specification words it: more active installs than the
    threshold, and a last update that is not null and not older than two
    years at the current time. *)
Definition within_two_years (now : DateTime.datetime) (v : Sqlite.sqlval) : bool :=
  match v with
  | Sqlite.SText s =>
      match re_canonical s with
      | Some (dt, EmptyString) => DateTime.dt_leb (DateTime.minus_years now 2) dt
      | _ => false
      end
  | _ => false
  end.

Definition spec_select (t : list Sqlite.plugin_row) (now : DateTime.datetime)
    (threshold : Z) : list (Sqlite.sqlval * Sqlite.sqlval) :=
  map (fun r => (Sqlite.slug r, Sqlite.download_link r))
    (filter (fun r => Sqlite.sql_gt (Sqlite.active_installs r) (Sqlite.SInt threshold)
                      && within_two_years now (Sqlite.last_updated r) = true) t).

(** The schedule of a run: its admissions and completions. *)
Definition is_sched (e : event) : bool :=
  match e with Admit _ | Resolve _ => true | _ => false end.

Definition schedule (t : list event) : list event := List.filter is_sched t.

(** The number of operations admitted and not yet completed after a run of
    events, starting from [n]. *)
Fixpoint unresolved (n : nat) (t : list event) : nat :=
  match t with
  | [] => n
  | Admit _ :: t' => unresolved (S n) t'
  | Resolve _ :: t' => unresolved (Nat.pred n) t'
  | _ :: t' => unresolved n t'
  end.

(** The largest number of operations unresolved at any moment of the run. *)
Fixpoint peak (n : nat) (t : list event) : nat :=
  match t with
  | [] => n
  | Admit _ :: t' => Nat.max n (peak (S n) t')
  | Resolve _ :: t' => Nat.max n (peak (Nat.pred n) t')
  | _ :: t' => peak n t'
  end.

(** The batch barrier: once a completion has been seen, nothing is admitted
    until every admitted operation has completed. *)
Inductive phase := Admitting | Draining.

Fixpoint barrier (ph : phase) (n : nat) (t : list event) : bool :=
  match t with
  | [] => true
  | Admit _ :: t' =>
      match ph with
      | Admitting => barrier Admitting (S n) t'
      | Draining => (n =? 0)%nat && barrier Admitting (S n) t'
      end
  | Resolve _ :: t' => barrier Draining (Nat.pred n) t'
  | _ :: t' => barrier ph n t'
  end.

(** The requests for catalogue pages of a run, in order. *)
Definition page_requests (t : list event) : list Z :=
  omap (fun e => match e with PageRequest p => Some p | _ => None end) t.

(** The calls of [requests.get] on download links of a run. *)
Definition http_gets (t : list event) : list Sqlite.sqlval :=
  omap (fun e => match e with HttpGet l => Some l | _ => None end) t.

(** A run without its printed messages. *)
Definition actions (t : list event) : list event :=
  List.filter (fun e => match e with Print _ => false | _ => true end) t.

(** The messages that report a failure of the audit of one plugin. *)
Definition audit_failures (t : list event) : list string :=
  omap (fun e => match e with
                 | Print (MsgSemgrepFailed p) | Print (MsgUnexpected p) => Some p
                 | _ => None
                 end) t.

(** The am/pm marks and the zone names of the catalogue's timestamps. *)
Definition marks : list string := ["AM"; "PM"; "am"; "pm"].
Definition zones : list string := ["GMT"; "UTC"; "gmt"; "utc"].

(** A database without its schema, and one with two empty tables. *)
Definition no_schema : Sqlite.database := Sqlite.mk_database None None.
Definition empty_schema : Sqlite.database := Sqlite.mk_database (Some []) (Some []).

(** The columns of [PluginData] that a catalogue entry may leave out, with
    the key under which the entry carries each. *)
Definition optional_keys : list string :=
  ["version"; "active_installs"; "downloaded"; "last_updated"; "added";
   "download_link"].

(** The row that an entry of the catalogue writes. *)
Definition written_row (plugin : pydict) : result Sqlite.plugin_row :=
  let? d := DbUtils.prepare_data plugin in DbUtils.bind_row d.

(** The column that receives the value found under a key of the entry, and
    what the column holds when the entry has no such key. *)
Definition column (k : string) (r : Sqlite.plugin_row) : Sqlite.sqlval :=
  if String.eqb k "slug" then Sqlite.slug r
  else if String.eqb k "version" then Sqlite.version r
  else if String.eqb k "active_installs" then Sqlite.active_installs r
  else if String.eqb k "downloaded" then Sqlite.downloaded r
  else if String.eqb k "last_updated" then Sqlite.last_updated r
  else if String.eqb k "added" then Sqlite.added_date r
  else Sqlite.download_link r.

Definition default_of (k : string) : Sqlite.sqlval :=
  if String.eqb k "version" || String.eqb k "download_link" then Sqlite.SText "N/A"
  else if String.eqb k "active_installs" || String.eqb k "downloaded" then Sqlite.SInt 0
  else Sqlite.SNull.

(** Sample data: an entry as the catalogue sends it, an entry that only
    names its slug, an entry without slug whose timestamp does not parse, a
    row already stored for the first slug, and a current time. *)
Definition akismet : pydict :=
  list_to_map
    [("slug", VStr "akismet"); ("version", VStr "5.3");
     ("active_installs", VInt 50); ("downloaded", VInt 9000);
     ("last_updated", VStr "2024-11-04 6:00pm GMT"); ("added", VStr "2005-10-20");
     ("download_link", VStr "https://downloads.wordpress.org/plugin/akismet.5.3.zip")].

Definition bare_entry : pydict := {[ "slug" := VStr "akismet" ]}.

Definition no_slug_bad_date : pydict := {[ "last_updated" := VStr "yesterday" ]}.

Definition old_akismet_row : Sqlite.plugin_row :=
  Sqlite.mk_plugin_row (Sqlite.SText "akismet") (Sqlite.SText "4.0")
    (Sqlite.SInt 7) (Sqlite.SInt 8) Sqlite.SNull Sqlite.SNull
    (Sqlite.SText "https://downloads.wordpress.org/plugin/akismet.4.0.zip").

Definition stocked : Sqlite.database :=
  Sqlite.mk_database (Some [old_akismet_row]) (Some []).

(** The row that [akismet] writes, and the catalogue once it is written. *)
Definition akismet_row : Sqlite.plugin_row :=
  Sqlite.mk_plugin_row (Sqlite.SText "akismet") (Sqlite.SText "5.3")
    (Sqlite.SInt 50) (Sqlite.SInt 9000) (Sqlite.SText "2024-11-04 18:00:00")
    (Sqlite.SText "2005-10-20")
    (Sqlite.SText "https://downloads.wordpress.org/plugin/akismet.5.3.zip").

Definition restocked : Sqlite.database :=
  Sqlite.mk_database (Some [akismet_row]) (Some []).

Definition noon_2026_11_04 : DateTime.datetime :=
  DateTime.mk_datetime 2026 11 4 12 0 0 0.

(** The events that the download loop schedules for the slugs still to
    come, given the slugs admitted and not yet awaited. *)
Fixpoint batches (plugins ongoing : list Sqlite.sqlval) : list event :=
  match plugins with
  | [] => Resolve <$> ongoing
  | slug :: rest =>
      let ongoing := ongoing ++ [slug] in
      Admit slug ::
      if (length ongoing =? batch_size)%nat
      then (Resolve <$> ongoing) ++ batches rest []
      else batches rest ongoing
  end.

(** A catalogue of [N] pages without a malformed or empty page: page 1
    reports [N] pages, and every page from 1 to [N] answers with status 200
    and a list of entries that the store accepts. *)
Definition well_formed_catalog (E : env) (N : Z) : Prop :=
  (exists info pl,
     catalog E 1 = Status 200 (Some (mk_page (Some info) pl)) /\
     info !! "pages" = Some (VInt N)) /\
  (forall p, 1 <= p <= N ->
     exists inf entries,
       catalog E p = Status 200 (Some (mk_page inf (Some entries))) /\
       Forall (fun plugin => is_ok (written_row plugin) = true) entries).

(** The archive that [download_and_extract_plugin] gets to extract: the
    link is a text, the server answers, the status is no error, the body
    opens as a zip archive. *)
Definition fetched (E : env) (download_link : Sqlite.sqlval) : option (list member) :=
  match download_link with
  | Sqlite.SText url =>
      match archive E url with
      | Status code (Some z) =>
          if (400 <=? code) && (code <? 600) then None else Some z
      | _ => None
      end
  | _ => None
  end.

(** The members of an archive before the first one whose reading breaks,
    and the workspace once a list of members is written. *)
Fixpoint sound_prefix (z : list member) : list (string * list string * string) :=
  match z with
  | [] => []
  | m :: z' =>
      match m_data m with
      | Reads data => (m_top m, m_path m, data) :: sound_prefix z'
      | Breaks _ _ => []
      end
  end.





(** An archive whose members, where their reading breaks, break with an
    exception that [download_and_extract_plugin] handles. *)
Definition breaks_quietly (z : list member) : Prop :=
  Forall (fun m => match m_data m with
                   | Reads _ => True
                   | Breaks _ e => is_Some (handler "" e)
                   end) z.

(** A link whose archive, when one is fetched, breaks quietly. *)
Definition quiet_link (E : env) (link : Sqlite.sqlval) : Prop :=
  forall z, fetched E link = Some z -> breaks_quietly z.

(** An entry with its slug and the time of its last update as the
    catalogue prints it, and the catalogue once it is written. *)
Definition akismet_brief : pydict :=
  list_to_map
    [("slug", VStr "akismet"); ("last_updated", VStr "2024-11-04 6:00pm GMT")].

Definition brief_stored : Sqlite.database :=
  Sqlite.mk_database
    (Some [Sqlite.mk_plugin_row (Sqlite.SText "akismet") (Sqlite.SText "N/A")
             (Sqlite.SInt 0) (Sqlite.SInt 0) (Sqlite.SText "2024-11-04 18:00:00")
             Sqlite.SNull (Sqlite.SText "N/A")])
    (Some []).

(** Sample collaborators: a catalogue of three empty pages, one archive
    whose last member is damaged, an analyzer that succeeds on the plugin
    [good] alone, where it reports two findings. *)
Definition hello_zip : list member :=
  [mk_member "hello" [] (Reads "");
   mk_member "hello" ["hello.php"] (Reads "<?php echo 1;");
   mk_member "hello" ["readme.txt"] (Breaks (Some "") BadZipFile)].

Definition hello_link : string := "https://downloads.wordpress.org/plugin/hello.zip".

Definition two_findings : list DbUtils.finding :=
  [DbUtils.mk_finding "good/a.php" "php.lang.security.eval-use" 3 3 "eval($x);";
   DbUtils.mk_finding "good/b.php" "php.lang.security.exec-use" 7 8 "exec($y);"].

Definition sample_env : env :=
  {| catalog := fun p =>
       if (1 <=? p) && (p <=? 3)
       then Status 200 (Some (mk_page (Some {[ "pages" := VInt 3 ]}) (Some [])))
       else Status 404 None;
     archive := fun url =>
       if String.eqb url hello_link then Status 200 (Some hello_zip)
       else Unreachable;
     semgrep := fun config plugin d =>
       if String.eqb plugin "good"
       then (Some 0, <[output_file := "findings"]> d)
       else (Some 2, d);
     json_load := fun text =>
       if String.eqb text "findings" then Some (mk_doc (Some two_findings))
       else None;
     now := noon_2026_11_04 |}.

(** Four catalogue rows that the selection returns, a workspace that holds
    the plugin [hello] already, and two workspaces to audit, each with the
    plugin [good] and a plugin on which the analyzer fails: [woo] is listed
    before [good], [bad] after it. *)
Definition recent_row (slug : string) : Sqlite.plugin_row :=
  Sqlite.mk_plugin_row (Sqlite.SText slug) (Sqlite.SText "1.0")
    (Sqlite.SInt 50) (Sqlite.SInt 100) (Sqlite.SText "2025-06-01 09:30:00")
    Sqlite.SNull (Sqlite.SText "N/A").

Definition four_plugins : state :=
  mk_state ∅
    (Sqlite.mk_database
       (Some [recent_row "p1"; recent_row "p2"; recent_row "p3"; recent_row "p4"])
       (Some [])).

(** A catalogue with a row whose link answers and a row whose link does
    not, and nothing downloaded. *)
Definition hello_listed : state :=
  mk_state ∅
    (Sqlite.mk_database
       (Some [Sqlite.mk_plugin_row (Sqlite.SText "hello") (Sqlite.SText "1.7")
                (Sqlite.SInt 50) (Sqlite.SInt 100)
                (Sqlite.SText "2025-06-01 09:30:00") Sqlite.SNull
                (Sqlite.SText hello_link);
              recent_row "p1"])
       (Some [])).

Definition hello_present : state :=
  mk_state {[ "hello" := {[ ["old.php"] := "<?php" ]} ]} empty_schema.

Definition nothing_yet : state := mk_state ∅ empty_schema.

Definition to_audit : state :=
  mk_state {[ "woo" := {[ ["woo.php"] := "<?php" ]};
              "good" := {[ ["a.php"] := "<?php" ]} ]} empty_schema.

Definition to_audit_last : state :=
  mk_state {[ "bad" := {[ ["bad.php"] := "<?php" ]};
              "good" := {[ ["a.php"] := "<?php" ]} ]} empty_schema.

(** The date as the catalogue prints it under [added], ["YYYY-MM-DD"]. *)
Definition source_date (y m d : nat) : string :=
  Digits.pad4 y +:+ "-" +:+ Digits.pad2 m +:+ "-" +:+ Digits.pad2 d.

(** An integer that SQLite stores: a signed 64-bit one. *)
Definition int64 (z : Z) : Prop := - 2 ^ 63 <= z < 2 ^ 63.

(** The row that a finding of a plugin writes to [PluginResults]. *)
Definition finding_row (plugin : string) (item : DbUtils.finding)
  : Sqlite.result_row :=
  Sqlite.mk_result_row plugin (DbUtils.f_path item) (DbUtils.f_check_id item)
    (DbUtils.f_start_line item) (DbUtils.f_end_line item) (DbUtils.f_lines item).

(** A relation between the state before and the state after that a
    computation respects, however it ends. *)
Definition preserves {A} (R : state -> state -> Prop) (m : M A) : Prop :=
  forall s, R s (final (m s)).

(** The row that an entry with a null slug and nothing else writes. *)
Definition null_row : Sqlite.plugin_row :=
  Sqlite.mk_plugin_row Sqlite.SNull (Sqlite.SText "N/A") (Sqlite.SInt 0)
    (Sqlite.SInt 0) Sqlite.SNull Sqlite.SNull (Sqlite.SText "N/A").

(** Why the findings of a plugin directory cannot be read, if they
    cannot: no output file, a file that is not JSON, a document without
    [results]. *)
Definition unreadable (E : env) (d : dir) : option exn :=
  match d !! output_file with
  | None => Some FileNotFoundError
  | Some text =>
      match json_load E text with
      | None => Some JSONDecodeError
      | Some doc =>
          match results doc with
          | None => Some (KeyError "results")
          | Some _ => None
          end
      end
  end.

(** The plugin directory of [good] with the output of an earlier analysis
    in it, for an analyzer that now fails on it. *)
Definition stale_env : env :=
  {| catalog := catalog sample_env;
     archive := archive sample_env;
     semgrep := fun config plugin d => (Some 2, d);
     json_load := json_load sample_env;
     now := now sample_env |}.

Definition audited_before : state :=
  mk_state {[ "good" := {[ ["a.php"] := "<?php"; output_file := "findings" ]} ]}
    empty_schema.

(** A page that the store accepts, and a page that ends the loop of
    [write_plugins_to_db]: a status other than 200, or a document without
    [plugins]. *)
Definition page_is_stored (E : env) (p : Z) : Prop :=
  exists inf entries,
    catalog E p = Status 200 (Some (mk_page inf (Some entries))) /\
    Forall (fun plugin => is_ok (written_row plugin) = true) entries.

Definition page_breaks (E : env) (p : Z) : Prop :=
  match catalog E p with
  | Status code body => code <> 200 \/ exists inf, body = Some (mk_page inf None)
  | Unreachable => False
  end.

(** A catalogue that announces five pages and fails on the third. *)
Definition broken_env : env :=
  {| catalog := fun p =>
       if p =? 3 then Status 503 None
       else Status 200 (Some (mk_page (Some {[ "pages" := VInt 5 ]}) (Some [bare_entry])));
     archive := archive sample_env;
     semgrep := semgrep sample_env;
     json_load := json_load sample_env;
     now := now sample_env |}.

(** What [write_plugins_to_db] keeps: the workspace, the table of
    findings, the existence of the catalogue table and the uniqueness of
    its primary key. *)
Definition store_frame (s s' : state) : Prop :=
  ws s' = ws s /\
  Sqlite.PluginResults (db s') = Sqlite.PluginResults (db s) /\
  (forall t, Sqlite.PluginData (db s) = Some t ->
     exists t', Sqlite.PluginData (db s') = Some t' /\
                (length t <= length t')%nat /\
                (Sqlite.pk_unique t -> Sqlite.pk_unique t')).

(** What the audit pass keeps: the catalogue table, and the findings
    recorded before, to which it only appends. *)
Definition audit_frame (s s' : state) : Prop :=
  Sqlite.PluginData (db s') = Sqlite.PluginData (db s) /\
  match Sqlite.PluginResults (db s) with
  | Some t => exists more, Sqlite.PluginResults (db s') = Some (t ++ more)
  | None => Sqlite.PluginResults (db s') = None
  end.

(** The downloads admitted by a run, and those completed, in order. *)
Definition admitted (t : list event) : list Sqlite.sqlval :=
  omap (fun e => match e with Admit slug => Some slug | _ => None end) t.

Definition resolved (t : list event) : list Sqlite.sqlval :=
  omap (fun e => match e with Resolve slug => Some slug | _ => None end) t.

(** A row whose [last_updated] is not a text, or is a canonical timestamp
    of another day than the day of the bound, two years before [now]. *)
Definition off_boundary_day (now : DateTime.datetime) (r : Sqlite.plugin_row) : Prop :=
  match Sqlite.last_updated r with
  | Sqlite.SText s =>
      exists y m d h mi sec,
        (y < 100 * 100 /\ m < 100 /\ d < 100 /\ h < 100 /\ mi < 100 /\ sec < 100)%nat /\
        s = canonical_timestamp y m d h mi sec /\
        (y, m, d) <> (DateTime.year (DateTime.minus_years now 2),
                      DateTime.month (DateTime.minus_years now 2),
                      DateTime.day (DateTime.minus_years now 2))
  | _ => True
  end.

(** The exception of a request for a catalogue page that nothing catches:
    no answer, or an answer with status 200 that is not JSON. *)
Definition page_fails (E : env) (p : Z) : option exn :=
  match catalog E p with
  | Unreachable => Some RequestException
  | Status code None => if code =? 200 then Some JSONDecodeError else None
  | Status _ (Some _) => None
  end.

(** A catalogue that announces five pages and does not answer for the
    third. *)
Definition offline_env : env :=
  {| catalog := fun p =>
       if p =? 3 then Unreachable
       else Status 200 (Some (mk_page (Some {[ "pages" := VInt 5 ]}) (Some [bare_entry])));
     archive := archive sample_env;
     semgrep := semgrep sample_env;
     json_load := json_load sample_env;
     now := now sample_env |}.




(** * Properties *)

(** Case analysis on a number below a bound. *)
Tactic Notation "below" ident(n) int_or_var(k) :=
  do k (destruct n as [|n]; [try (vm_compute; reflexivity); try lia|]); try lia.

(** ** Printing and parsing timestamps *)

Section TimestampFacts.
Import Digits DateTime.
Local Open Scope nat_scope.

Lemma digit_val_digit k : k < 10 -> digit_val (digit k) = Some k.
Proof. intros H. do 10 (destruct k as [|k]; [reflexivity|]). lia. Qed.

Lemma pad2_append n r :
  pad2 n +:+ r = String (digit (n / 10)) (String (digit (n mod 10)) r).
Proof. reflexivity. Qed.

Lemma pad4_append n r : pad4 n +:+ r = pad2 (n / 100) +:+ pad2 (n mod 100) +:+ r.
Proof. reflexivity. Qed.

Lemma p_two_pad2 ok n r :
  n < 100 ->
  p_two ok (pad2 n +:+ r) = if ok (n / 10) (n mod 10) then Some (n, r) else None.
Proof.
  intros H. rewrite pad2_append. unfold p_two.
  rewrite (digit_val_digit (n / 10)) by (apply Nat.Div0.div_lt_upper_bound; lia).
  rewrite (digit_val_digit (n mod 10)) by (apply Nat.mod_upper_bound; lia).
  replace (10 * (n / 10) + n mod 10) with n; [done|].
  apply Nat.div_mod_eq.
Qed.

Lemma p_Y_pad4 y r : y < 100 * 100 -> p_Y (pad4 y +:+ r) = Some (y, r).
Proof.
  intros H. unfold p_Y. rewrite pad4_append.
  rewrite p_two_pad2 by (apply Nat.Div0.div_lt_upper_bound; lia).
  rewrite p_two_pad2 by (apply Nat.mod_upper_bound; lia).
  f_equal. f_equal. symmetry. apply Nat.div_mod_eq.
Qed.

Lemma p_m_pad2 m r : 1 <= m <= 12 -> p_m (pad2 m +:+ r) = Some (m, r).
Proof. intros H. below m 13. Qed.

Lemma p_d_pad2 d r : 1 <= d <= 31 -> p_d (pad2 d +:+ r) = Some (d, r).
Proof. intros H. below d 32. Qed.

Lemma p_M_pad2 mi r : mi < 60 -> p_M (pad2 mi +:+ r) = Some (mi, r).
Proof. intros H. below mi 60. Qed.

Lemma p_lit_append c r : p_lit c (String c EmptyString +:+ r) = Some (tt, r).
Proof. unfold p_lit. simpl. now rewrite Ascii.eqb_refl. Qed.

Lemma is_space_digit k : k < 10 -> is_space (digit k) = false.
Proof. intros H. below k 10. Qed.

Lemma p_blank_space s : p_blank (" " +:+ s) = Some (tt, skip_spaces s).
Proof. reflexivity. Qed.

Lemma skip_spaces_cons c s :
  is_space c = false -> skip_spaces (String c s) = String c s.
Proof. intros H. cbn [skip_spaces]. now rewrite H. Qed.

Lemma p_blank_pad2 n r :
  n < 100 -> p_blank (" " +:+ pad2 n +:+ r) = Some (tt, pad2 n +:+ r).
Proof.
  intros H. rewrite p_blank_space, pad2_append, skip_spaces_cons; [reflexivity|].
  apply is_space_digit, Nat.Div0.div_lt_upper_bound; lia.
Qed.

Lemma p_bind_some {A B} (p : parser A) (k : A -> parser B) s a r :
  p s = Some (a, r) -> p_bind p k s = k a r.
Proof. unfold p_bind. now intros ->. Qed.

Lemma days_in_month_le y m : days_in_month y m <= 31.
Proof.
  unfold days_in_month.
  do 12 (destruct m as [|m]; [destruct (is_leap y); lia|]). lia.
Qed.

Lemma valid_date_bounds y m d :
  valid_date y m d = true ->
  1 <= y < 100 * 100 /\ 1 <= m <= 12 /\ 1 <= d <= 31.
Proof.
  unfold valid_date. rewrite !andb_true_iff, !Nat.leb_le, Nat.ltb_lt.
  pose proof (days_in_month_le y m). lia.
Qed.

(** The mark and the zone close the timestamp. *)
Lemma tail_parse {A} (f : bool -> A) mark zone :
  In mark marks -> In zone zones ->
  p_bind p_p (fun pm => p_bind p_blank (fun _ => p_bind p_Z (fun _ => p_ret (f pm))))
    (mark +:+ " " +:+ zone) = Some (f (is_pm mark), EmptyString).
Proof.
  intros Hm Hz.
  destruct Hm as [<-|[<-|[<-|[<-|[]]]]]; destruct Hz as [<-|[<-|[<-|[<-|[]]]]];
    vm_compute; reflexivity.
Qed.

Lemma p_blank_hour h padded r :
  1 <= h <= 12 ->
  p_blank (" " +:+ hour_text h padded +:+ r) = Some (tt, hour_text h padded +:+ r).
Proof. intros H. destruct padded; below h 13. Qed.

Lemma p_m_hour h padded r :
  1 <= h <= 12 ->
  p_m (hour_text h padded +:+ ":" +:+ r) = Some (h, ":" +:+ r).
Proof. intros H. destruct padded; below h 13. Qed.

Lemma re_last_updated_source y m d h padded mi mark zone :
  valid_date y m d = true -> 1 <= h <= 12 -> mi < 60 ->
  In mark marks -> In zone zones ->
  re_last_updated (source_timestamp y m d h padded mi mark zone)
  = Some (mk_datetime y m d (hour24 h (is_pm mark)) mi 0 0, EmptyString).
Proof.
  intros Hv Hh Hmi Hmark Hzone.
  apply valid_date_bounds in Hv as (Hy & Hm & Hd).
  unfold re_last_updated, source_timestamp.
  erewrite p_bind_some by (apply p_Y_pad4; lia).
  erewrite p_bind_some by apply p_lit_append.
  erewrite p_bind_some by (apply p_m_pad2; lia).
  erewrite p_bind_some by apply p_lit_append.
  erewrite p_bind_some by (apply p_d_pad2; lia).
  erewrite p_bind_some by (apply p_blank_hour; lia).
  erewrite p_bind_some by (apply p_m_hour; lia).
  erewrite p_bind_some by apply p_lit_append.
  erewrite p_bind_some by (apply p_M_pad2; lia).
  apply (tail_parse (fun pm => mk_datetime y m d (hour24 h pm) mi 0 0)); assumption.
Qed.

(** [strptime] reads a timestamp of the catalogue back into its date and
    its time on the 24-hour clock. *)
Lemma strptime_source y m d h padded mi mark zone :
  valid_date y m d = true -> 1 <= h <= 12 -> mi < 60 ->
  In mark marks -> In zone zones ->
  strptime re_last_updated (source_timestamp y m d h padded mi mark zone)
  = Ok (mk_datetime y m d (hour24 h (is_pm mark)) mi 0 0).
Proof.
  intros Hv Hh Hmi Hmark Hzone. unfold strptime.
  rewrite re_last_updated_source by assumption.
  cbn [year month day]. now rewrite Hv.
Qed.

Lemma source_timestamp_truthy y m d h padded mi mark zone :
  truthy (VStr (source_timestamp y m d h padded mi mark zone)) = true.
Proof. reflexivity. Qed.

Lemma convert_source_timestamp y m d h padded mi mark zone :
  valid_date y m d = true -> 1 <= h <= 12 -> mi < 60 ->
  In mark marks -> In zone zones ->
  DbUtils.convert_date re_last_updated strftime_canonical
    (VStr (source_timestamp y m d h padded mi mark zone))
  = Ok (VStr (stored_timestamp y m d (hour24 h (is_pm mark)) mi 0)).
Proof.
  intros Hv Hh Hmi Hmark Hzone. unfold DbUtils.convert_date.
  rewrite source_timestamp_truthy. now rewrite strptime_source.
Qed.

(** From the year 1000 on, [%Y] prints four digits. *)
Lemma year_text_pad4 y : 1000 <= y -> year_text y = pad4 y.
Proof.
  intros H. unfold year_text.
  rewrite !(proj2 (Nat.ltb_ge _ _)) by lia. reflexivity.
Qed.

Lemma stored_timestamp_canonical y m d h mi s :
  1000 <= y -> stored_timestamp y m d h mi s = canonical_timestamp y m d h mi s.
Proof.
  intros H. unfold stored_timestamp, canonical_timestamp, strftime_canonical.
  cbn [year month day hour minute second]. now rewrite year_text_pad4.
Qed.

End TimestampFacts.

(** ** The catalogue table *)

Section UpsertFacts.
Import Sqlite.

Lemma do_update_same old r : slug old = slug r -> do_update old r = r.
Proof. destruct old, r; simpl; intros ->; reflexivity. Qed.

Lemma pk_conflict_true a b : pk_conflict a b = true <-> a <> SNull /\ a = b.
Proof.
  destruct a; simpl; rewrite ?bool_decide_eq_true; intuition congruence.
Qed.



Lemma keys_cons r t :
  keys (r :: t) = if decide (slug r <> SNull) then slug r :: keys t else keys t.
Proof. unfold keys. rewrite fmap_cons, filter_cons. reflexivity. Qed.


Lemma pk_unique_tail r t : pk_unique (r :: t) -> pk_unique t.
Proof.
  unfold pk_unique. rewrite keys_cons. case_decide; [|done].
  rewrite NoDup_cons. tauto.
Qed.



Lemma upsert_elem r t : r ∈ upsert r t.
Proof.
  induction t as [|old t IH]; simpl; [left|].
  destruct (pk_conflict (slug r) (slug old)) eqn:Hc.
  - apply pk_conflict_true in Hc as [_ Heq].
    rewrite do_update_same by done. left.
  - now right.
Qed.

Lemma keys_upsert_elem k r t : k ∈ keys (upsert r t) -> k ∈ keys t \/ k = slug r.
Proof.
  induction t as [|old t IH]; simpl.
  - rewrite keys_cons. case_decide; [|now left].
    rewrite elem_of_cons. tauto.
  - destruct (pk_conflict (slug r) (slug old)) eqn:Hc.
    + rewrite !keys_cons. change (slug (do_update old r)) with (slug old). tauto.
    + rewrite !keys_cons. case_decide; [|exact IH].
      rewrite !elem_of_cons. tauto.
Qed.

(** The upsert keeps the primary key unique. *)
Lemma upsert_pk_unique r t : pk_unique t -> pk_unique (upsert r t).
Proof.
  induction t as [|old t IH]; intros Hu; simpl.
  - unfold pk_unique. rewrite keys_cons. case_decide.
    + apply NoDup_singleton.
    + apply NoDup_nil_2.
  - destruct (pk_conflict (slug r) (slug old)) eqn:Hc.
    + unfold pk_unique in *. rewrite keys_cons in *.
      change (slug (do_update old r)) with (slug old). exact Hu.
    + pose proof (pk_unique_tail _ _ Hu) as Ht.
      unfold pk_unique in *. rewrite keys_cons in *.
      case_decide as Hold; [|now apply IH].
      apply NoDup_cons in Hu as [Hnot _]. apply NoDup_cons. split; [|now apply IH].
      intros Hk. apply keys_upsert_elem in Hk as [Hk|Hk]; [done|].
      assert (pk_conflict (slug r) (slug old) = true); [|congruence].
      apply pk_conflict_true. split; congruence.
Qed.

End UpsertFacts.

(** ** [dbutils.py]: what a write does *)

Section InsertFacts.
Import Sqlite DbUtils.

(** Inversion of a chain of [let?] that ends well. *)
Ltac inv_binds :=
  repeat match goal with
  | H : rbind ?r _ = Ok _ |- _ =>
      let E := fresh "E" in
      destruct r eqn:E; cbn [rbind] in H; [|discriminate H]
  | H : Ok _ = Ok _ |- _ => injection H as H
  end.

Lemma bind_param_raise v e : bind_param v = Raise e -> e = OverflowError.
Proof. destruct v; simpl; try discriminate. case_match; congruence. Qed.

Lemma bind_row_raise d e : bind_row d = Raise e -> e = OverflowError.
Proof.
  unfold bind_row.
  repeat match goal with
  | |- rbind (bind_param ?v) _ = Raise _ -> _ =>
      destruct (bind_param v) eqn:?; cbn [rbind];
      [|intros [= <-]; eauto using bind_param_raise]
  end.
  intros [=].
Qed.

Lemma convert_date_raise re fmt v e :
  convert_date re fmt v = Raise e -> e = ValueError \/ e = TypeError.
Proof.
  unfold convert_date, DateTime.strptime, rbind.
  repeat case_match; intros; simplify_eq; auto.
Qed.

Lemma py_int_raise v e : py_int v = Raise e -> e = ValueError \/ e = TypeError.
Proof. unfold py_int. repeat case_match; intros; simplify_eq; auto. Qed.

(** What [prepare_data] can raise. *)
Lemma prepare_data_raise plugin e :
  prepare_data plugin = Raise e ->
  e = KeyError "slug" \/ e = ValueError \/ e = TypeError.
Proof.
  unfold prepare_data. cbv zeta.
  destruct (convert_date DateTime.re_last_updated _ _) eqn:E1; cbn [rbind];
    [|intros [= <-]; right; eauto using convert_date_raise].
  destruct (convert_date DateTime.re_added _ _) eqn:E2; cbn [rbind];
    [|intros [= <-]; right; eauto using convert_date_raise].
  unfold getitem. destruct (plugin !! "slug"); cbn [rbind]; [|intros [= <-]; auto].
  destruct (py_int (dict_get plugin "active_installs" _)) eqn:E3; cbn [rbind];
    [|intros [= <-]; right; eauto using py_int_raise].
  destruct (py_int (dict_get plugin "downloaded" _)) eqn:E4; cbn [rbind];
    [|intros [= <-]; right; eauto using py_int_raise].
  intros [=].
Qed.

(** A write succeeds exactly when the table exists and the entry yields a
    row, and then it is the upsert of that row. *)
Lemma insert_ok_iff db plugin db' :
  insert_plugin_into_db db plugin = Ok db' <->
  exists t r, PluginData db = Some t /\ written_row plugin = Ok r /\
    db' = {| PluginData := Some (upsert r t); PluginResults := PluginResults db |}.
Proof.
  unfold insert_plugin_into_db, written_row, execute_upsert, no_such_table.
  destruct (prepare_data plugin) as [d|e]; cbn [rbind].
  - destruct (PluginData db) as [t|]; cbn [except_ProgrammingError].
    + destruct (bind_row d) as [r|e] eqn:Hr; cbn [rbind].
      * split; [intros [= <-]; eauto|intros (? & ? & [= <-] & [= <-] & ->); done].
      * apply bind_row_raise in Hr as ->.
        split; [discriminate|intros (? & ? & _ & [=] & _)].
    + split; [discriminate|intros (? & ? & [=] & _)].
  - split; [discriminate|intros (? & ? & _ & [=] & _)].
Qed.

(** No write ends in the [SystemExit] of its handler. *)
Lemma insert_never_exits db plugin msg :
  insert_plugin_into_db db plugin <> Raise (SystemExit msg).
Proof.
  unfold insert_plugin_into_db, execute_upsert, no_such_table.
  destruct (prepare_data plugin) as [d|e] eqn:Hp; cbn [rbind].
  - destruct (PluginData db); cbn [except_ProgrammingError]; [|discriminate].
    destruct (bind_row d) as [r|e] eqn:Hr; cbn [rbind]; [discriminate|].
    apply bind_row_raise in Hr as ->. discriminate.
  - apply prepare_data_raise in Hp as [-> | [-> | ->]]; discriminate.
Qed.

(** The row that an entry writes, field by field. *)
Lemma written_row_iff plugin r :
  written_row plugin = Ok r <->
  exists lu ad sl ai dw bs bv bai bdw blu bad bdl,
    convert_date DateTime.re_last_updated DateTime.strftime_canonical
      (dict_get plugin "last_updated" VNone) = Ok lu /\
    convert_date DateTime.re_added DateTime.strftime_date
      (dict_get plugin "added" VNone) = Ok ad /\
    plugin !! "slug" = Some sl /\
    py_int (dict_get plugin "active_installs" (VInt 0)) = Ok ai /\
    py_int (dict_get plugin "downloaded" (VInt 0)) = Ok dw /\
    bind_param sl = Ok bs /\
    bind_param (dict_get plugin "version" (VStr "N/A")) = Ok bv /\
    bind_param (VInt ai) = Ok bai /\
    bind_param (VInt dw) = Ok bdw /\
    bind_param lu = Ok blu /\
    bind_param ad = Ok bad /\
    bind_param (dict_get plugin "download_link" (VStr "N/A")) = Ok bdl /\
    r = mk_plugin_row (text_affinity bs) (text_affinity bv) bai bdw blu bad
          (text_affinity bdl).
Proof.
  unfold written_row, prepare_data, getitem. cbv zeta. split.
  - intros H.
    destruct (convert_date DateTime.re_last_updated _ _) as [lu|] eqn:E1;
      cbn [rbind] in H; [|discriminate].
    destruct (convert_date DateTime.re_added _ _) as [ad|] eqn:E2;
      cbn [rbind] in H; [|discriminate].
    destruct (plugin !! "slug") as [sl|] eqn:E3; cbn [rbind] in H; [|discriminate].
    destruct (py_int (dict_get plugin "active_installs" _)) as [ai|] eqn:E4;
      cbn [rbind] in H; [|discriminate].
    destruct (py_int (dict_get plugin "downloaded" _)) as [dw|] eqn:E5;
      cbn [rbind] in H; [|discriminate].
    unfold bind_row in H.
    cbn [d_slug d_version d_active_installs d_downloaded d_last_updated
         d_added_date d_download_link] in H.
    inv_binds. subst r.
    do 12 eexists. split_and!; first [eassumption | reflexivity].
  - intros (lu & ad & sl & ai & dw & bs & bv & bai & bdw & blu & bad & bdl
            & -> & -> & -> & -> & -> & Hbs & Hbv & Hbai & Hbdw & Hblu & Hbad
            & Hbdl & ->).
    cbn [rbind]. unfold bind_row.
    cbn [d_slug d_version d_active_installs d_downloaded d_last_updated
         d_added_date d_download_link].
    rewrite Hbs, Hbv, Hbai, Hbdw, Hblu, Hbad, Hbdl. reflexivity.
Qed.

Lemma dict_get_present (plugin : pydict) k dflt v :
  plugin !! k = Some v -> dict_get plugin k dflt = v.
Proof. unfold dict_get. now intros ->. Qed.

Lemma dict_get_absent (plugin : pydict) k dflt :
  plugin !! k = None -> dict_get plugin k dflt = dflt.
Proof. unfold dict_get. now intros ->. Qed.

Lemma dict_get_delete_eq (plugin : pydict) k dflt :
  dict_get (delete k plugin) k dflt = dflt.
Proof. apply dict_get_absent, lookup_delete_eq. Qed.

Lemma dict_get_delete_ne (plugin : pydict) k k' dflt :
  k <> k' -> dict_get (delete k plugin) k' dflt = dict_get plugin k' dflt.
Proof. intros H. unfold dict_get. now rewrite lookup_delete_ne. Qed.

Lemma bind_param_zero : bind_param (VInt 0) = Ok (SInt 0).
Proof. reflexivity. Qed.

(** An absent optional key leaves the default of its column in the row. *)
Lemma written_row_default plugin r k :
  written_row plugin = Ok r -> k ∈ optional_keys -> plugin !! k = None ->
  column k r = default_of k.
Proof.
  intros Hr Hk Hnone.
  apply written_row_iff in Hr
    as (lu & ad & sl & ai & dw & bs & bv & bai & bdw & blu & bad & bdl
        & Hlu & Had & _ & Hai & Hdw & _ & Hbv & Hbai & Hbdw & Hblu & Hbad
        & Hbdl & ->).
  unfold optional_keys in Hk. rewrite !elem_of_cons, elem_of_nil in Hk.
  destruct Hk as [->|[->|[->|[->|[->|[->|[]]]]]]];
    rewrite (dict_get_absent _ _ _ Hnone) in *.
  - injection Hbv as <-. reflexivity.
  - injection Hai as <-. rewrite bind_param_zero in Hbai.
    injection Hbai as <-. reflexivity.
  - injection Hdw as <-. rewrite bind_param_zero in Hbdw.
    injection Hbdw as <-. reflexivity.
  - injection Hlu as <-. injection Hblu as <-. reflexivity.
  - injection Had as <-. injection Hbad as <-. reflexivity.
  - injection Hbdl as <-. reflexivity.
Qed.

(** Without an optional key the entry still yields a row. *)
Lemma written_row_delete plugin r k :
  written_row plugin = Ok r -> k ∈ optional_keys ->
  exists r', written_row (delete k plugin) = Ok r'.
Proof.
  intros Hr Hk.
  apply written_row_iff in Hr
    as (lu & ad & sl & ai & dw & bs & bv & bai & bdw & blu & bad & bdl
        & Hlu & Had & Hsl & Hai & Hdw & Hbs & Hbv & Hbai & Hbdw & Hblu & Hbad
        & Hbdl & ->).
  unfold optional_keys in Hk. rewrite !elem_of_cons, elem_of_nil in Hk.
  destruct Hk as [->|[->|[->|[->|[->|[->|[]]]]]]];
    eexists; apply written_row_iff; do 12 eexists;
    rewrite ?dict_get_delete_eq, ?dict_get_delete_ne, ?lookup_delete_ne by done;
    split_and!; first [eassumption | reflexivity].
Qed.

End InsertFacts.

(** ** Claims on [dbutils.py] *)

Section CatalogueClaims.
Import Sqlite DbUtils.




(** C8 — Missing schema.  Against a database without its tables every store
    operation raises [OperationalError], the class of the transient I/O
    errors, and [connect_to_db] reports nothing; the [SystemExit] with the
    [--create-schema] advice is never reached, whatever the database and the
    arguments. *)
Theorem missing_schema_raises_operational_error :
  insert_plugin_into_db no_schema bare_entry
    = Raise (OperationalError "no such table: PluginData") /\
  (forall slug item,
     insert_result_into_db no_schema slug item
     = Raise (OperationalError "no such table: PluginResults")) /\
  (forall now n,
     select_plugins_for_download no_schema now n
     = Raise (OperationalError "no such table: PluginData")) /\
  connect_to_db no_schema false = Ok no_schema /\
  (forall db plugin msg, insert_plugin_into_db db plugin <> Raise (SystemExit msg)) /\
  (forall db slug item msg,
     insert_result_into_db db slug item <> Raise (SystemExit msg)) /\
  (forall db now n msg,
     select_plugins_for_download db now n <> Raise (SystemExit msg)).
Proof.
  repeat split; try reflexivity.
  - intros. apply insert_never_exits.
  - intros db slug item msg.
    unfold insert_result_into_db, execute_insert_result, no_such_table.
    cbv zeta. destruct (PluginResults db); [|discriminate].
    repeat match goal with
    | |- context [rbind (bind_param ?v) _] =>
        let He := fresh "He" in
        destruct (bind_param v) as [?|?] eqn:He; cbn [rbind];
        [|apply bind_param_raise in He as ->; discriminate]
    end.
    discriminate.
  - intros db now n msg. unfold select_plugins_for_download, no_such_table.
    cbv zeta. destruct (PluginData db); [|discriminate].
    destruct (bind_param (VInt n)) as [?|?] eqn:He; cbn [rbind];
      [|apply bind_param_raise in He as ->]; discriminate.
Qed.

(** C9, as stated, fails: the column of an absent timestamp holds NULL,
    neither the sentinel nor zero. *)
Lemma absent_timestamp_is_null :
  ~ (forall plugin db' r k,
       insert_plugin_into_db empty_schema plugin = Ok db' ->
       PluginData db' = Some [r] ->
       k ∈ optional_keys -> plugin !! k = None ->
       column k r = SText "N/A" \/ column k r = SInt 0).
Proof.
  intros H.
  destruct (H bare_entry
              (mk_database
                 (Some [mk_plugin_row (SText "akismet") (SText "N/A") (SInt 0)
                          (SInt 0) SNull SNull (SText "N/A")]) (Some []))
              (mk_plugin_row (SText "akismet") (SText "N/A") (SInt 0)
                 (SInt 0) SNull SNull (SText "N/A"))
              "last_updated") as [Hc|Hc];
    try reflexivity; try discriminate Hc.
  unfold optional_keys. rewrite !elem_of_cons. tauto.
Qed.

(** C9 — Normalisation and defaults.  The row that a successful write puts
    in the table holds, for a timestamp in the format of the catalogue (the
    hour with or without its leading zero), the text that [strftime] prints
    for it on the 24-hour clock with seconds 00, which from the year 1000 on
    is its canonical representation (an earlier year is printed without its
    leading zeros); and for every absent optional key the default of its
    column: ["N/A"] for version and download link, zero for the two
    counters, NULL for the two dates. *)
Theorem stored_entry_is_normalised db plugin db' :
  insert_plugin_into_db db plugin = Ok db' ->
  exists t t' r,
    PluginData db = Some t /\ PluginData db' = Some t' /\
    t' = upsert r t /\ r ∈ t' /\
    (forall y m d h padded mi mark zone,
       DateTime.valid_date y m d = true -> (1 <= h <= 12)%nat -> (mi < 60)%nat ->
       In mark marks -> In zone zones ->
       plugin !! "last_updated"
         = Some (VStr (source_timestamp y m d h padded mi mark zone)) ->
       last_updated r
         = SText (stored_timestamp y m d (DateTime.hour24 h (is_pm mark)) mi 0) /\
       ((1000 <= y)%nat ->
        last_updated r
          = SText (canonical_timestamp y m d (DateTime.hour24 h (is_pm mark)) mi 0))) /\
    (forall k, k ∈ optional_keys -> plugin !! k = None ->
       column k r = default_of k).
Proof.
  intros Hins. apply insert_ok_iff in Hins as (t & r & Ht & Hr & ->).
  exists t, (upsert r t), r.
  split_and!; [exact Ht|reflexivity|reflexivity|apply upsert_elem| |].
  - intros y m d h padded mi mark zone Hv Hh Hmi Hmark Hzone Hlook.
    apply written_row_iff in Hr
      as (lu & ad & sl & ai & dw & bs & bv & bai & bdw & blu & bad & bdl
          & Hlu & _ & _ & _ & _ & _ & _ & _ & _ & Hblu & _ & _ & ->).
    rewrite (dict_get_present _ _ _ _ Hlook) in Hlu.
    rewrite convert_source_timestamp in Hlu by assumption.
    injection Hlu as <-. injection Hblu as <-. cbn [last_updated].
    split; [reflexivity|]. intros Hy. now rewrite stored_timestamp_canonical.
  - intros k Hk Hnone. now apply (written_row_default plugin).
Qed.

Lemma stored_entry_is_normalised_witness :
  exists t t' r,
    PluginData empty_schema = Some t /\ PluginData brief_stored = Some t' /\
    t' = upsert r t /\ r ∈ t' /\
    last_updated r = SText "2024-11-04 18:00:00" /\
    column "version" r = SText "N/A" /\
    column "active_installs" r = SInt 0 /\
    column "added" r = SNull.
Proof.
  destruct (stored_entry_is_normalised empty_schema akismet_brief brief_stored)
    as (t & t' & r & Ht & Ht' & Hup & Hin & Hnorm & Hdef);
    [vm_compute; reflexivity|].
  exists t, t', r. split_and!; try assumption.
  - destruct (Hnorm 2024 11 4 6 false 0 "pm" "GMT")%nat as [_ Hcanon];
      [reflexivity|lia|lia|right; right; right; left; reflexivity
      |left; reflexivity|vm_compute; reflexivity|].
    rewrite Hcanon by lia. vm_compute. reflexivity.
  - rewrite (Hdef "version"); [reflexivity| |vm_compute; reflexivity].
    unfold optional_keys. rewrite !elem_of_cons. tauto.
  - rewrite (Hdef "active_installs"); [reflexivity| |vm_compute; reflexivity].
    unfold optional_keys. rewrite !elem_of_cons. tauto.
  - rewrite (Hdef "added"); [reflexivity| |vm_compute; reflexivity].
    unfold optional_keys. rewrite !elem_of_cons. tauto.
Defined.

(** C10, as stated, fails: the dates are converted before the slug is read,
    so an entry without slug whose timestamp does not parse raises
    [ValueError], not [KeyError]. *)
Lemma missing_slug_bad_date_raises_ValueError :
  ~ (forall db plugin,
       plugin !! "slug" = None ->
       insert_plugin_into_db db plugin = Raise (KeyError "slug")).
Proof.
  intros H.
  assert (no_slug_bad_date !! "slug" = None) as Hs by reflexivity.
  specialize (H empty_schema no_slug_bad_date Hs).
  vm_compute in H. discriminate H.
Qed.

Lemma no_slug_raises plugin :
  plugin !! "slug" = None -> exists e, prepare_data plugin = Raise e.
Proof.
  intros Hs. unfold prepare_data, getitem. cbv zeta. rewrite Hs.
  destruct (convert_date DateTime.re_last_updated _ _); cbn [rbind]; [|eauto].
  destruct (convert_date DateTime.re_added _ _); cbn [rbind]; eauto.
Qed.

(** C10 — The slug is the only required key.  For an entry that the write
    accepts: without any one of its optional keys the write still succeeds and
    the column holds its default; without its slug the write raises
    [KeyError].  Any entry without slug makes the write raise [KeyError],
    [ValueError] or [TypeError], and the store is as it was. *)
Theorem slug_is_the_only_required_key st plugin db' k other :
  insert_plugin_into_db (db st) plugin = Ok db' -> k ∈ optional_keys ->
  (exists db'' r,
     insert_plugin_into_db (db st) (delete k plugin) = Ok db'' /\
     written_row (delete k plugin) = Ok r /\ column k r = default_of k) /\
  insert_plugin_into_db (db st) (delete "slug" plugin) = Raise (KeyError "slug") /\
  (exists e,
     (e = KeyError "slug" \/ e = ValueError \/ e = TypeError) /\
     insert_plugin_into_db (db st) (delete "slug" other) = Raise e /\
     on_db (fun d => insert_plugin_into_db d (delete "slug" other)) st
     = (Raise e, st, [])).
Proof.
  intros Hins Hk.
  apply insert_ok_iff in Hins as (t & r & Ht & Hr & ->).
  split_and!.
  - destruct (written_row_delete _ _ _ Hr Hk) as [r' Hr'].
    eexists _, r'. split_and!; [|exact Hr'|].
    + apply insert_ok_iff. eauto.
    + apply (written_row_default (delete k plugin)); [done..|].
      apply lookup_delete_eq.
  - apply written_row_iff in Hr
      as (lu & ad & sl & ai & dw & bs & bv & bai & bdw & blu & bad & bdl
          & Hlu & Had & _).
    unfold insert_plugin_into_db, prepare_data, getitem. cbv zeta.
    rewrite !dict_get_delete_ne by done. rewrite Hlu, Had. cbn [rbind].
    rewrite lookup_delete_eq. reflexivity.
  - destruct (no_slug_raises (delete "slug" other)) as [e He];
      [apply lookup_delete_eq|].
    exists e. split; [now apply (prepare_data_raise (delete "slug" other))|].
    unfold on_db, insert_plugin_into_db. rewrite He. split; reflexivity.
Qed.

Lemma slug_is_the_only_required_key_witness :
  (exists db'' r,
     insert_plugin_into_db empty_schema (delete "version" akismet) = Ok db'' /\
     written_row (delete "version" akismet) = Ok r /\
     column "version" r = default_of "version") /\
  insert_plugin_into_db empty_schema (delete "slug" akismet)
    = Raise (KeyError "slug") /\
  (exists e,
     (e = KeyError "slug" \/ e = ValueError \/ e = TypeError) /\
     insert_plugin_into_db empty_schema (delete "slug" no_slug_bad_date) = Raise e /\
     on_db (fun d => insert_plugin_into_db d (delete "slug" no_slug_bad_date))
       (mk_state ∅ empty_schema)
     = (Raise e, mk_state ∅ empty_schema, [])).
Proof.
  apply (slug_is_the_only_required_key (mk_state ∅ empty_schema) akismet
           restocked "version" no_slug_bad_date).
  - vm_compute. reflexivity.
  - unfold optional_keys. constructor.
Defined.

Lemma ascii_compare_refl a : Ascii.compare a a = Eq.
Proof. unfold Ascii.compare. apply N.compare_refl. Qed.

Lemma compare_common_prefix p a b :
  String.compare (p +:+ a) (p +:+ b) = String.compare a b.
Proof.
  induction p as [|c p IH]; [reflexivity|].
  simpl. now rewrite ascii_compare_refl.
Qed.

(** A stored timestamp of the very day of the bound sorts below the bound,
    at the blank that faces the letter T. *)
Lemma same_day_sorts_below y m d h mi s h' mi' s' us :
  sql_ge (SText (canonical_timestamp y m d h mi s))
         (adapt_datetime_iso (DateTime.mk_datetime y m d h' mi' s' us)) = false.
Proof.
  unfold sql_ge, sql_compare, adapt_datetime_iso, canonical_timestamp,
    DateTime.strftime_canonical, DateTime.isoformat.
  cbn [DateTime.year DateTime.month DateTime.day].
  rewrite !compare_common_prefix. reflexivity.
Qed.

(** C2 — Selection.  The entry [akismet], updated at 18:00 on 2024-11-04 and
    installed 50 times, is less than two years old at noon on 2026-11-04,
    and the selection as specified returns it; the query returns nothing.
    The stored text and the bound differ in their separator, so no row of
    the day of the bound is ever selected, whatever the times. *)
Theorem selection_misses_the_boundary_day :
  insert_plugin_into_db empty_schema akismet = Ok restocked /\
  select_plugins_for_download restocked noon_2026_11_04 10 = Ok [] /\
  spec_select [akismet_row] noon_2026_11_04 10
    = [(slug akismet_row, download_link akismet_row)] /\
  (forall y m d h mi s h' mi' s' us,
     sql_ge (SText (canonical_timestamp y m d h mi s))
            (adapt_datetime_iso (DateTime.mk_datetime y m d h' mi' s' us))
     = false).
Proof.
  split_and!; [vm_compute; reflexivity..|].
  intros. apply same_day_sorts_below.
Qed.

End CatalogueClaims.

(** ** The monad of the main program *)

Section MonadFacts.
Context {A B : Type}.
Implicit Types (m : M A) (k : A -> M B).

Lemma events_bind m k s :
  events (bind m k s) =
  events (m s) ++ match outcome (m s) with
                  | Ok a => events (k a (final (m s)))
                  | Raise _ => []
                  end.
Proof.
  unfold bind, events, outcome, final.
  destruct (m s) as [[[a|e] s1] t1]; cbn.
  - now destruct (k a s1) as [[? ?] ?].
  - now rewrite app_nil_r.
Qed.

Lemma final_bind m k s :
  final (bind m k s) =
  match outcome (m s) with
  | Ok a => final (k a (final (m s)))
  | Raise _ => final (m s)
  end.
Proof.
  unfold bind, events, outcome, final.
  destruct (m s) as [[[a|e] s1] t1]; cbn; [|reflexivity].
  now destruct (k a s1) as [[? ?] ?].
Qed.

Lemma outcome_bind m k s :
  outcome (bind m k s) =
  match outcome (m s) with
  | Ok a => outcome (k a (final (m s)))
  | Raise e => Raise e
  end.
Proof.
  unfold bind, events, outcome, final.
  destruct (m s) as [[[a|e] s1] t1]; cbn; [|reflexivity].
  now destruct (k a s1) as [[? ?] ?].
Qed.

Lemma bind_ok m k s a s1 t1 r s2 t2 :
  m s = (Ok a, s1, t1) -> k a s1 = (r, s2, t2) ->
  bind m k s = (r, s2, t1 ++ t2).
Proof. unfold bind. now intros -> ->. Qed.

Lemma bind_raise m k s e s1 t1 :
  m s = (Raise e, s1, t1) -> bind m k s = (Raise e, s1, t1).
Proof. unfold bind. now intros ->. Qed.

End MonadFacts.

Lemma run_eta {A} (r : result A * state * list event) :
  r = (outcome r, final r, events r).
Proof. now destruct r as [[? ?] ?]. Qed.

Lemma actions_app t1 t2 : actions (t1 ++ t2) = actions t1 ++ actions t2.
Proof. apply List.filter_app. Qed.

Lemma schedule_app t1 t2 : schedule (t1 ++ t2) = schedule t1 ++ schedule t2.
Proof. apply List.filter_app. Qed.

Lemma page_requests_app t1 t2 :
  page_requests (t1 ++ t2) = page_requests t1 ++ page_requests t2.
Proof. apply omap_app. Qed.

Lemma when_print_run verbose msg s :
  outcome (when verbose (print msg) s) = Ok tt /\
  final (when verbose (print msg) s) = s /\
  actions (events (when verbose (print msg) s)) = [].
Proof. now destruct verbose. Qed.

(** ** Downloading one plugin *)

Section DownloadFacts.
Variable E : env.



Lemma write_member_ne w top path data slug :
  top <> slug -> write_member w top path data !! slug = w !! slug.
Proof. intros H. unfold write_member. now rewrite lookup_insert_ne. Qed.

Lemma write_member_keeps w top path data slug :
  is_Some (w !! slug) -> is_Some (write_member w top path data !! slug).
Proof.
  intros H. destruct (decide (top = slug)) as [->|Hne].
  - unfold write_member. now rewrite lookup_insert_eq.
  - now rewrite write_member_ne.
Qed.

Lemma write_member_top w top path data :
  is_Some (write_member w top path data !! top).
Proof. unfold write_member. now rewrite lookup_insert_eq. Qed.

Lemma left_behind_ne w top path written slug :
  top <> slug -> left_behind w top path written !! slug = w !! slug.
Proof. intros H. destruct written; now apply write_member_ne. Qed.

Lemma left_behind_keeps w top path written slug :
  is_Some (w !! slug) -> is_Some (left_behind w top path written !! slug).
Proof. intros H. destruct written; now apply write_member_keeps. Qed.


(** The extraction removes nothing, and writes below the top-level
    directories of its members only. *)
Lemma extractall_keeps w z slug :
  is_Some (w !! slug) -> is_Some ((extractall w z).2 !! slug).
Proof.
  revert w. induction z as [|m z IH]; intros w Hw; [exact Hw|].
  cbn [extractall]. destruct (m_data m) as [data|written e].
  - apply IH. now apply write_member_keeps.
  - now apply left_behind_keeps.
Qed.

Lemma extractall_ne w z slug :
  Forall (fun m => m_top m <> slug) z -> (extractall w z).2 !! slug = w !! slug.
Proof.
  intros Hall. revert w. induction Hall as [|m z Hm _ IH]; intros w; [reflexivity|].
  cbn [extractall]. destruct (m_data m) as [data|written e].
  - rewrite IH. now apply write_member_ne.
  - now apply left_behind_ne.
Qed.

Lemma extractall_creates w z slug path data :
  (slug, path, data) ∈ sound_prefix z -> is_Some ((extractall w z).2 !! slug).
Proof.
  revert w. induction z as [|m z IH]; intros w Hin; [now apply elem_of_nil in Hin|].
  cbn [extractall sound_prefix] in Hin |- *.
  destruct (m_data m) as [content|written e]; [|now apply elem_of_nil in Hin].
  apply elem_of_cons in Hin as [Heq|Hin]; [|now apply IH].
  injection Heq as -> -> ->. apply extractall_keeps, write_member_top.
Qed.

(** How a call that has fetched an archive ends: normally, unless the
    extraction has raised an exception that no clause handles. *)
Lemma fetch_archive_run slug link s :
  actions (events (fetch_archive E slug link s)) = [HttpGet link] /\
  db (final (fetch_archive E slug link s)) = db s /\
  match fetched E link with
  | Some z =>
      ws (final (fetch_archive E slug link s)) = (extractall (ws s) z).2 /\
      outcome (fetch_archive E slug link s)
      = match (extractall (ws s) z).1 with
        | Ok _ => Ok tt
        | Raise e => match handler slug e with Some _ => Ok tt | None => Raise e end
        end
  | None =>
      ws (final (fetch_archive E slug link s)) = ws s /\
      outcome (fetch_archive E slug link s) = Ok tt
  end.
Proof.
  unfold fetch_archive, fetched, bind, emit, print, outcome, final, events.
  destruct link as [| |url]; try (now cbn).
  destruct (archive E url) as [|code body]; try (now cbn).
  destruct body as [z|]; destruct ((400 <=? code) && (code <? 600));
    try (now cbn).
  cbn beta. destruct (extractall (ws s) z) as [[[]|e] w]; [now cbn|].
  cbn [fst snd]. now destruct (handler slug e).
Qed.

Lemma try_download_run slug link verbose s :
  outcome (try_download E slug link verbose s)
  = outcome (fetch_archive E slug link s) /\
  actions (events (try_download E slug link verbose s)) = [HttpGet link] /\
  final (try_download E slug link verbose s) = final (fetch_archive E slug link s).
Proof.
  destruct (fetch_archive_run slug link s) as (Ha & _).
  destruct (when_print_run verbose (MsgDownloading slug) s) as (Hwo & Hwf & Hwa).
  unfold try_download.
  rewrite outcome_bind, events_bind, final_bind, actions_app, Hwo, Hwf, Hwa.
  now rewrite Ha.
Qed.

Lemma download_skip slug link verbose s :
  is_Some (ws s !! slug) ->
  download_and_extract_plugin E (Sqlite.SText slug) link false verbose s
  = (Ok tt, s, if verbose then [Print (MsgSkipExisting slug)] else []).
Proof.
  intros Hs. unfold download_and_extract_plugin, path_exists, bind.
  rewrite bool_decide_true by assumption. now destruct verbose.
Qed.

Lemma download_replace slug link verbose s :
  is_Some (ws s !! slug) ->
  let r := download_and_extract_plugin E (Sqlite.SText slug) link true verbose s in
  let s0 := {| ws := delete slug (ws s); db := db s |} in
  outcome r = outcome (fetch_archive E slug link s0) /\
  actions (events r) = [Rmtree slug; HttpGet link] /\
  final r = final (fetch_archive E slug link s0).
Proof.
  intros Hs r s0. subst r.
  destruct (try_download_run slug link verbose s0) as (Ho & Ha & Hf).
  destruct (when_print_run verbose (MsgDeleteExisting slug) s) as (Hwo & Hwf & Hwa).
  unfold download_and_extract_plugin.
  rewrite outcome_bind, events_bind, final_bind.
  unfold path_exists. cbn [outcome final events fst snd].
  rewrite bool_decide_true by assumption. cbn [negb app].
  rewrite outcome_bind, events_bind, final_bind, actions_app, Hwo, Hwf, Hwa.
  rewrite outcome_bind, events_bind, final_bind, actions_app.
  unfold rmtree. cbn [outcome final events fst snd].
  fold s0. now rewrite Ho, Ha, Hf.
Qed.

Lemma download_fresh slug link replace verbose s :
  ws s !! slug = None ->
  let r := download_and_extract_plugin E (Sqlite.SText slug) link replace verbose s in
  outcome r = outcome (fetch_archive E slug link s) /\
  actions (events r) = [HttpGet link] /\
  final r = final (fetch_archive E slug link s).
Proof.
  intros Hs r. subst r.
  destruct (try_download_run slug link verbose s) as (Ho & Ha & Hf).
  unfold download_and_extract_plugin.
  rewrite outcome_bind, events_bind, final_bind.
  unfold path_exists. cbn [outcome final events fst snd].
  rewrite bool_decide_false by (rewrite Hs; apply is_Some_None).
  cbn [app]. now rewrite Ho, Ha, Hf.
Qed.

End DownloadFacts.

(** ** Claims on the download of one plugin *)

(** C7 — An existing target directory.  When the workspace holds a directory
    for the slug, the download without replacement succeeds at once: it
    issues no request, does nothing but print, and leaves workspace and
    database as they were.  With replacement its actions are the removal of
    the whole directory and then the one request, and it ends as fetching
    ends, and where it ends, when started without the directory. *)
Theorem existing_directory_skip_or_replace E slug link verbose st :
  is_Some (ws st !! slug) ->
  (let r := download_and_extract_plugin E (Sqlite.SText slug) link false verbose st in
   outcome r = Ok tt /\ http_gets (events r) = [] /\ actions (events r) = [] /\
   final r = st) /\
  (let r := download_and_extract_plugin E (Sqlite.SText slug) link true verbose st in
   let st0 := {| ws := delete slug (ws st); db := db st |} in
   outcome r = outcome (fetch_archive E slug link st0) /\
   actions (events r) = [Rmtree slug; HttpGet link] /\
   ws st0 !! slug = None /\
   final r = final (fetch_archive E slug link st0)).
Proof.
  intros Hs. split.
  - cbv zeta. rewrite download_skip by assumption. now destruct verbose.
  - destruct (download_replace E slug link verbose st Hs) as (Ho & Ha & Hf).
    cbv zeta. split_and!; try assumption. apply lookup_delete_eq.
Qed.

Lemma existing_directory_skip_or_replace_witness :
  (let r := download_and_extract_plugin sample_env (Sqlite.SText "hello")
              (Sqlite.SText hello_link) false true hello_present in
   outcome r = Ok tt /\ http_gets (events r) = [] /\ actions (events r) = [] /\
   final r = hello_present) /\
  (let r := download_and_extract_plugin sample_env (Sqlite.SText "hello")
              (Sqlite.SText hello_link) true true hello_present in
   let st0 := {| ws := delete "hello" (ws hello_present); db := db hello_present |} in
   outcome r = outcome (fetch_archive sample_env "hello" (Sqlite.SText hello_link) st0) /\
   actions (events r) = [Rmtree "hello"; HttpGet (Sqlite.SText hello_link)] /\
   ws st0 !! "hello" = None /\
   final r = final (fetch_archive sample_env "hello" (Sqlite.SText hello_link) st0)).
Proof.
  apply (existing_directory_skip_or_replace sample_env "hello"
           (Sqlite.SText hello_link) true hello_present).
  apply (bool_decide_unpack _). vm_compute. exact I.
Defined.




(** ** Storing the catalogue *)

Section CatalogueRun.
Import Sqlite DbUtils.
Variable E : env.

Lemma get_plugins_ok p page s :
  catalog E p = Status 200 (Some page) ->
  get_plugins E p s = (Ok (Some page), s, [PageRequest p]).
Proof. intros Hc. unfold get_plugins, bind, emit. now rewrite Hc. Qed.

Lemma store_entry_run verbose plugin s :
  is_Some (PluginData (db s)) -> is_ok (written_row plugin) = true ->
  exists s' t,
    (on_db (fun d => insert_plugin_into_db d plugin);;
     when verbose
       (do slug <- lift (getitem plugin "slug"); print (MsgInserted slug))) s
    = (Ok tt, s', t) /\
    is_Some (PluginData (db s')) /\ page_requests t = [] /\ ws s' = ws s.
Proof.
  intros [t Ht] Hr. destruct (written_row plugin) as [r|] eqn:Hw; [|discriminate].
  assert (insert_plugin_into_db (db s) plugin
          = Ok (mk_database (Some (upsert r t)) (PluginResults (db s)))) as Hi
    by (apply insert_ok_iff; eauto).
  apply written_row_iff in Hw
    as (lu & ad & sl & ai & dw & bs & bv & bai & bdw & blu & bad & bdl
        & _ & _ & Hsl & _).
  unfold bind, on_db, when, lift, getitem, print, emit, ret. rewrite Hi, Hsl.
  destruct verbose; eexists _, _; (split; [reflexivity|]); cbn [db ws];
    split_and!; eauto.
Qed.

Lemma store_entries_run verbose entries s :
  is_Some (PluginData (db s)) ->
  Forall (fun plugin => is_ok (written_row plugin) = true) entries ->
  exists s' t,
    for_each entries (fun plugin =>
      on_db (fun d => insert_plugin_into_db d plugin);;
      when verbose
        (do slug <- lift (getitem plugin "slug"); print (MsgInserted slug))) s
    = (Ok tt, s', t) /\
    is_Some (PluginData (db s')) /\ page_requests t = [] /\ ws s' = ws s.
Proof.
  intros Hs Hall. revert s Hs.
  induction Hall as [|plugin entries Hp _ IH]; intros s Hs.
  - eexists _, _. split; [reflexivity|]. now split_and!.
  - destruct (store_entry_run verbose plugin s Hs Hp)
      as (s1 & t1 & H1 & Hs1 & Ht1 & Hw1).
    destruct (IH s1 Hs1) as (s2 & t2 & H2 & Hs2 & Ht2 & Hw2).
    eexists _, _. split; [cbn [for_each]; eapply bind_ok; eassumption|].
    rewrite page_requests_app, Ht1, Ht2. split_and!; [done|done|congruence].
Qed.

Lemma store_page_run verbose N p s :
  well_formed_catalog E N -> 1 <= p <= N -> is_Some (PluginData (db s)) ->
  exists s' t,
    store_page E verbose p s = (Ok true, s', t) /\
    is_Some (PluginData (db s')) /\ page_requests t = [p] /\ ws s' = ws s.
Proof.
  intros [_ Hwf] Hp Hs. destruct (Hwf p Hp) as (inf & entries & Hc & Hall).
  destruct (store_entries_run verbose entries s Hs Hall)
    as (s1 & t1 & H1 & Hs1 & Ht1 & Hw1).
  eexists _, _. split.
  - unfold store_page. eapply bind_ok; [apply get_plugins_ok; eassumption|].
    cbn beta iota. eapply bind_ok; [eassumption|]. reflexivity.
  - rewrite !page_requests_app, Ht1. now split_and!.
Qed.

Lemma store_pages_run verbose N l s :
  well_formed_catalog E N -> Forall (fun p => 1 <= p <= N) l ->
  is_Some (PluginData (db s)) ->
  exists s' t,
    for_break l (store_page E verbose) s = (Ok tt, s', t) /\
    is_Some (PluginData (db s')) /\ page_requests t = l /\ ws s' = ws s.
Proof.
  intros Hwf Hall. revert s.
  induction Hall as [|p l Hp _ IH]; intros s Hs.
  - eexists _, _. split; [reflexivity|]. now split_and!.
  - destruct (store_page_run verbose N p s Hwf Hp Hs)
      as (s1 & t1 & H1 & Hs1 & Ht1 & Hw1).
    destruct (IH s1 Hs1) as (s2 & t2 & H2 & Hs2 & Ht2 & Hw2).
    eexists _, _. split; [cbn [for_break]; eapply bind_ok; eassumption|].
    rewrite page_requests_app, Ht1, Ht2. split_and!; [done|done|congruence].
Qed.

Lemma write_plugins_to_db_run verbose N s :
  well_formed_catalog E N -> is_Some (PluginData (db s)) ->
  exists s' t,
    write_plugins_to_db E verbose s = (Ok tt, s', t) /\
    is_Some (PluginData (db s')) /\ page_requests t = 1 :: seqZ 1 N /\
    ws s' = ws s.
Proof.
  intros Hwf Hs.
  assert (Forall (fun p => 1 <= p <= N) (seqZ 1 N)) as Hall
    by (apply Forall_forall; intros p Hp%elem_of_seqZ; lia).
  destruct (store_pages_run verbose N _ s Hwf Hall Hs)
    as (s1 & t1 & H1 & Hs1 & Ht1 & Hw1).
  destruct Hwf as [(inf & pl & Hc & Hpages) _].
  eexists _, _. split.
  - unfold write_plugins_to_db. eapply bind_ok; [apply get_plugins_ok; eassumption|].
    cbn beta iota. unfold bind at 1, lift at 1, getitem. rewrite Hpages.
    unfold bind at 1, lift at 1. cbn [page_range].
    rewrite H1. reflexivity.
  - rewrite !page_requests_app, Ht1. now split_and!.
Qed.

End CatalogueRun.

Lemma sample_catalog_well_formed : well_formed_catalog sample_env 3.
Proof.
  split.
  - eexists _, _. split; [reflexivity|]. vm_compute. reflexivity.
  - intros p Hp. eexists _, []. split; [|constructor].
    cbn [catalog sample_env].
    replace ((1 <=? p) && (p <=? 3)) with true; [reflexivity|].
    symmetry. apply andb_true_iff. lia.
Qed.

(** C4, as claimed, fails: on a catalogue of three pages the requests are
    for the pages 1, 1, 2, 3. *)
Lemma first_page_is_requested_twice :
  ~ (forall E N verbose st,
       well_formed_catalog E N -> is_Some (Sqlite.PluginData (db st)) ->
       page_requests (events (write_plugins_to_db E verbose st)) = seqZ 1 N).
Proof.
  intros H.
  specialize (H sample_env 3 false nothing_yet sample_catalog_well_formed).
  assert (page_requests (events (write_plugins_to_db sample_env false nothing_yet))
          = [1; 1; 2; 3]) as Hrun by (vm_compute; reflexivity).
  rewrite Hrun in H. discriminate H; eexists; reflexivity.
Qed.

(** C4, amended — Pagination.  On a catalogue of [N] pages without a
    malformed or empty page, and a database that has its table,
    [write_plugins_to_db] returns normally after exactly [N + 1] page
    requests: page 1 once to learn the number of pages, and then the pages
    1, 2, ..., [N] in increasing order, page 1 again included. *)
Theorem pages_are_requested_in_order E N verbose st :
  well_formed_catalog E N -> is_Some (Sqlite.PluginData (db st)) ->
  let r := write_plugins_to_db E verbose st in
  outcome r = Ok tt /\
  page_requests (events r) = 1 :: seqZ 1 N /\
  length (page_requests (events r)) = S (Z.to_nat N).
Proof.
  intros Hwf Hs.
  destruct (write_plugins_to_db_run E verbose N st Hwf Hs)
    as (s' & t & Hrun & _ & Ht & _).
  cbv zeta. rewrite Hrun. cbn [outcome events fst snd].
  rewrite Ht. cbn [length]. now rewrite length_seqZ.
Qed.

Lemma pages_are_requested_in_order_witness :
  let r := write_plugins_to_db sample_env true nothing_yet in
  outcome r = Ok tt /\
  page_requests (events r) = 1 :: seqZ 1 3 /\
  length (page_requests (events r)) = S (Z.to_nat 3).
Proof.
  apply (pages_are_requested_in_order sample_env 3 true nothing_yet).
  - split.
    + eexists _, _. split; [reflexivity|]. vm_compute. reflexivity.
    + intros p Hp. eexists _, []. split; [|constructor].
      cbn [catalog sample_env].
      replace ((1 <=? p) && (p <=? 3)) with true; [reflexivity|].
      symmetry. apply andb_true_iff. lia.
  - eexists. reflexivity.
Defined.

(** ** The download loop *)

Section ScheduleFacts.

Lemma peak_ge n t : (n <= peak n t)%nat.
Proof.
  revert n. induction t as [|e t IH]; intros n; [reflexivity|].
  destruct e; cbn; try apply IH; lia.
Qed.

Lemma schedule_actions t : schedule (actions t) = schedule t.
Proof.
  unfold schedule, actions. induction t as [|e t IH]; [reflexivity|].
  destruct e; cbn; now rewrite ?IH.
Qed.

Lemma peak_schedule n t : peak n (schedule t) = peak n t.
Proof.
  unfold schedule. revert n. induction t as [|e t IH]; intros n; [reflexivity|].
  destruct e; cbn; now rewrite ?IH.
Qed.

Lemma barrier_schedule ph n t : barrier ph n (schedule t) = barrier ph n t.
Proof.
  unfold schedule. revert ph n. induction t as [|e t IH]; intros ph n; [reflexivity|].
  destruct e; cbn; now rewrite ?IH.
Qed.

Lemma unresolved_schedule n t : unresolved n (schedule t) = unresolved n t.
Proof.
  unfold schedule. revert n. induction t as [|e t IH]; intros n; [reflexivity|].
  destruct e; cbn; now rewrite ?IH.
Qed.

Lemma peak_resolved l n t :
  peak n ((Resolve <$> l) ++ t) = Nat.max n (peak (n - length l) t).
Proof.
  revert n. induction l as [|x l IH]; intros n; cbn.
  - rewrite Nat.sub_0_r. pose proof (peak_ge n t). lia.
  - rewrite IH. replace (Nat.pred n - length l)%nat with (n - S (length l))%nat by lia.
    lia.
Qed.

Lemma unresolved_resolved l n t :
  unresolved n ((Resolve <$> l) ++ t) = unresolved (n - length l) t.
Proof.
  revert n. induction l as [|x l IH]; intros n; cbn.
  - now rewrite Nat.sub_0_r.
  - rewrite IH. f_equal. lia.
Qed.

Lemma barrier_resolved l ph n t :
  l <> [] ->
  barrier ph n ((Resolve <$> l) ++ t) = barrier Draining (n - length l) t.
Proof.
  intros Hl. revert ph n. induction l as [|x l IH]; intros ph n; [done|].
  cbn. destruct l as [|y l].
  - cbn. f_equal. lia.
  - rewrite IH by done. f_equal. cbn. lia.
Qed.

Lemma barrier_drained t : barrier Draining 0 t = barrier Admitting 0 t.
Proof.
  induction t as [|e t IH]; [reflexivity|]. destruct e; cbn; try assumption; reflexivity.
Qed.

End ScheduleFacts.

Section LoopFacts.
Variable E : env.

Lemma download_quiet slug link replace verbose s :
  schedule (events (download_and_extract_plugin E slug link replace verbose s)) = [].
Proof.
  rewrite <- schedule_actions.
  destruct slug as [| |slug]; try reflexivity.
  destruct (ws s !! slug) as [d|] eqn:Hd.
  - destruct replace.
    + destruct (download_replace E slug link verbose s) as (_ & -> & _);
        [now rewrite Hd|reflexivity].
    + rewrite download_skip by now rewrite Hd. now destruct verbose.
  - destruct (download_fresh E slug link replace verbose s Hd) as (_ & -> & _).
    reflexivity.
Qed.

Lemma attempt_run (m : M unit) s :
  events (attempt m s) = events (m s) /\
  final (attempt m s) = final (m s) /\
  exists r, outcome (attempt m s) = Ok r.
Proof. unfold attempt. destruct (m s) as [[[u|e] s1] t1]; eauto. Qed.

Lemma gather_schedule ongoing failed s :
  Forall (fun c : Sqlite.sqlval * M unit =>
            forall s, schedule (events (c.2 s)) = []) ongoing ->
  schedule (events (gather ongoing failed s)) = Resolve <$> ongoing.*1.
Proof.
  intros Hq. revert failed s.
  induction Hq as [|[slug coro] ongoing Hc _ IH]; intros failed s.
  - now destruct failed.
  - destruct (attempt_run coro s) as (Hev & _ & r & Hr).
    specialize (Hc s). cbn [snd] in Hc.
    cbn [gather]. rewrite events_bind, schedule_app, Hev, Hc, Hr.
    rewrite events_bind, schedule_app. cbn [emit events outcome fst snd].
    now rewrite IH.
Qed.

Lemma download_loop_batches plugins ongoing replace verbose s :
  Forall (fun c : Sqlite.sqlval * M unit =>
            forall s, schedule (events (c.2 s)) = []) ongoing ->
  (length ongoing < batch_size)%nat ->
  let t := schedule (events (download_loop E plugins ongoing replace verbose s)) in
  (peak (length ongoing) t <= batch_size)%nat /\
  barrier Admitting (length ongoing) t = true /\
  unresolved (length ongoing) t = 0%nat.
Proof.
  revert ongoing s. unfold batch_size.
  induction plugins as [|[slug link] rest IH]; intros ongoing s Hq Hlen; cbv zeta.
  - cbn [download_loop]. destruct (0 <? length ongoing)%nat eqn:Hl.
    + apply Nat.ltb_lt in Hl.
      rewrite gather_schedule by assumption.
      rewrite <- (app_nil_r (Resolve <$> _)).
      rewrite peak_resolved, unresolved_resolved, barrier_resolved, !length_fmap.
      * cbn [peak barrier unresolved]. split_and!; [lia|reflexivity|lia].
      * destruct ongoing; [cbn in Hl; lia|discriminate].
    + apply Nat.ltb_ge in Hl. replace (length ongoing) with 0%nat by lia.
      cbn. split_and!; [lia|reflexivity|reflexivity].
  - cbn [download_loop]. cbv zeta.
    set (coro := download_and_extract_plugin E slug link replace verbose).
    assert (Forall (fun c : Sqlite.sqlval * M unit =>
                      forall s, schedule (events (c.2 s)) = [])
              (ongoing ++ [(slug, coro)])) as Hq'.
    { apply Forall_app. split; [assumption|].
      constructor; [|constructor]. intros s'. apply download_quiet. }
    assert (length (ongoing ++ [(slug, coro)]) = S (length ongoing)) as Hlen'
      by (rewrite length_app; cbn; lia).
    rewrite events_bind, schedule_app. cbn [emit events outcome final fst snd].
    change (schedule [Admit slug]) with [Admit slug]. cbn [app peak barrier unresolved].
    change batch_size with 10%nat.
    destruct (length (ongoing ++ [(slug, coro)]) =? 10)%nat eqn:Hten.
    + apply Nat.eqb_eq in Hten.
      rewrite events_bind, schedule_app, gather_schedule by assumption.
      rewrite peak_resolved, unresolved_resolved, barrier_resolved, !length_fmap.
      * replace (S (length ongoing) - length (ongoing ++ [(slug, coro)]))%nat
          with 0%nat by lia.
        rewrite barrier_drained.
        destruct (outcome (gather (ongoing ++ [(slug, coro)]) None s)) as [u|e].
        -- destruct (IH [] (final (gather (ongoing ++ [(slug, coro)]) None s)))
             as (Hp & Hb & Hu); [constructor|cbn; lia|].
           cbn [length] in Hp, Hb, Hu. split_and!; [lia|assumption|assumption].
        -- cbn [schedule List.filter peak barrier unresolved].
           split_and!; [lia|reflexivity|reflexivity].
      * destruct ongoing; discriminate.
    + apply Nat.eqb_neq in Hten.
      destruct (IH (ongoing ++ [(slug, coro)]) s Hq') as (Hp & Hb & Hu); [lia|].
      rewrite Hlen' in Hp, Hb, Hu. split_and!; [lia|assumption|assumption].
Qed.

End LoopFacts.

(** C1, as claimed, fails: the program takes no concurrency limit; with four
    records selected, four downloads are unresolved at once, more than a
    limit of three. *)
Lemma four_downloads_are_unresolved_at_once :
  ~ (forall (N : nat) E active_installs replace verbose st,
       (peak 0 (events (download_plugins_in_database E active_installs
                          replace verbose st)) <= N)%nat).
Proof.
  intros H. specialize (H 3%nat sample_env 10 false false four_plugins).
  assert (peak 0 (events (download_plugins_in_database sample_env 10 false false
                            four_plugins)) = 4%nat) as Hrun
    by (vm_compute; reflexivity).
  rewrite Hrun in H. lia.
Qed.

(** C1, amended — Batches of ten.  Whatever the database holds and whatever
    the arguments are, a run of [download_plugins_in_database] never has
    more than ten downloads unresolved at once (ten is written in the loop;
    no argument sets it), it admits no download between the first completion
    of a batch and its last, and it leaves no admitted download
    unresolved. *)
Theorem downloads_run_in_batches_of_ten E active_installs replace verbose st :
  let t := events (download_plugins_in_database E active_installs replace
                     verbose st) in
  (peak 0 t <= batch_size)%nat /\
  barrier Admitting 0 t = true /\
  unresolved 0 t = 0%nat.
Proof.
  cbv zeta. rewrite <- peak_schedule, <- barrier_schedule, <- unresolved_schedule.
  unfold download_plugins_in_database.
  rewrite events_bind, schedule_app. cbn [events outcome final fst snd].
  destruct (DbUtils.select_plugins_for_download (db st) (now E) active_installs)
    as [plugins|e]; [|cbn; unfold batch_size; split_and!; [lia|done|done]].
  rewrite events_bind, schedule_app. cbn [print emit events outcome final fst snd].
  change (schedule [] ++ schedule [Print (MsgLength (length plugins))] ++
          schedule (events (download_loop E plugins [] replace verbose st)))
    with (schedule (events (download_loop E plugins [] replace verbose st))).
  apply (download_loop_batches E plugins [] replace verbose st); [constructor|].
  unfold batch_size. cbn. lia.
Qed.

(** ** The audit pass *)

(** C5 — Audit isolation fails.  In a workspace with the plugin [good], for
    which the analyzer writes two findings, and a plugin on which the
    analyzer exits with status 2 and writes no output file, the audit pass
    does not go on after the failure: it ends with the uncaught
    [FileNotFoundError] of [open(output_file)].  When the failing plugin is
    listed first nothing is recorded and [good] is never analysed; when it
    is listed last the two findings are recorded and the failure is printed,
    and the pass still ends with the exception. *)
Theorem missing_output_file_aborts_the_audit :
  (let r := run_semgrep_and_store_results sample_env "p/php" false to_audit in
   listdir (ws to_audit) = ["woo"; "good"] /\
   outcome r = Raise FileNotFoundError /\
   events r = [RunSemgrep "woo"; Print (MsgSemgrepFailed "woo")] /\
   Sqlite.PluginResults (db (final r)) = Some []) /\
  (let r := run_semgrep_and_store_results sample_env "p/php" false to_audit_last in
   listdir (ws to_audit_last) = ["good"; "bad"] /\
   outcome r = Raise FileNotFoundError /\
   audit_failures (events r) = ["bad"] /\
   length <$> Sqlite.PluginResults (db (final r)) = Some 2%nat).
Proof.
  cbv zeta. split_and!; vm_compute; reflexivity.
Qed.

(** * Further properties of the code *)

(** ** [insert_plugin_into_db]: dates *)

Section DateExtras.
Import Digits DateTime Sqlite DbUtils.
Local Open Scope nat_scope.

Lemma append_empty_r (s : string) : s +:+ "" = s.
Proof.
  induction s as [|a s IH]; [reflexivity|]. exact (f_equal (String a) IH).
Qed.

Lemma re_added_fields y m d :
  1 <= y < 100 * 100 -> 1 <= m <= 12 -> 1 <= d <= 31 ->
  re_added (source_date y m d) = Some (mk_datetime y m d 0 0 0 0, EmptyString).
Proof.
  intros Hy Hm Hd.
  unfold re_added, source_date.
  erewrite p_bind_some by (apply p_Y_pad4; lia).
  erewrite p_bind_some by apply p_lit_append.
  erewrite p_bind_some by (apply p_m_pad2; lia).
  erewrite p_bind_some by apply p_lit_append.
  rewrite <- (append_empty_r (pad2 d)).
  erewrite p_bind_some by (apply p_d_pad2; lia).
  reflexivity.
Qed.

Lemma re_added_source y m d :
  valid_date y m d = true ->
  re_added (source_date y m d) = Some (mk_datetime y m d 0 0 0 0, EmptyString).
Proof.
  intros Hv. apply valid_date_bounds in Hv as (Hy & Hm & Hd).
  now apply re_added_fields.
Qed.

Lemma source_date_truthy y m d : truthy (VStr (source_date y m d)) = true.
Proof. reflexivity. Qed.

Lemma length_append (s1 s2 : string) :
  String.length (s1 +:+ s2) = String.length s1 + String.length s2.
Proof.
  induction s1 as [|a s1 IH]; [reflexivity|].
  change (S (String.length (s1 +:+ s2)) = S (String.length s1 + String.length s2)).
  now rewrite IH.
Qed.

Lemma length_year_text y : y < 1000 -> String.length (year_text y) < 4.
Proof.
  intros H. unfold year_text.
  destruct (y <? 10); [cbn [String.length]; lia|].
  destruct (y <? 100); [change (String.length (pad2 y)) with 2; lia|].
  rewrite (proj2 (Nat.ltb_lt _ _)) by assumption.
  change (String.length (String (digit (y / 100)) (pad2 (y mod 100)))) with 3. lia.
Qed.

(** An [added] date of the catalogue is stored as [strftime] prints it:
    for every date of the calendar from the year 1000 on, the row that an
    entry with this date under [added] writes holds the same text in
    [added_date]; for an earlier year it holds another text, the date
    without the leading zeros of its year. *)
Theorem added_date_is_stored_unchanged plugin r y m d :
  valid_date y m d = true ->
  plugin !! "added" = Some (VStr (source_date y m d)) ->
  written_row plugin = Ok r ->
  added_date r = SText (strftime_date (mk_datetime y m d 0 0 0 0)) /\
  (1000 <= y -> added_date r = SText (source_date y m d)) /\
  (y < 1000 -> added_date r <> SText (source_date y m d)).
Proof.
  intros Hv Ha Hr.
  apply written_row_iff in Hr
    as (lu & ad & sl & ai & dw & bs & bv & bai & bdw & blu & bad & bdl
        & _ & Had & _ & _ & _ & _ & _ & _ & _ & _ & Hbad & _ & ->).
  rewrite (dict_get_present _ _ _ _ Ha) in Had.
  unfold convert_date, strptime in Had.
  rewrite source_date_truthy, (re_added_source y m d Hv) in Had.
  cbn [year month day rbind] in Had. rewrite Hv in Had.
  injection Had as <-. injection Hbad as <-. cbn [added_date].
  unfold strftime_date, source_date. cbn [year month day].
  split_and!; [reflexivity| |].
  - intros Hy. now rewrite year_text_pad4.
  - intros Hy [= Heq]. apply (f_equal String.length) in Heq.
    rewrite !length_append in Heq.
    pose proof (length_year_text y Hy) as Hlen.
    change (String.length (pad4 y)) with 4 in Heq. lia.
Qed.

Lemma added_date_is_stored_unchanged_witness :
  added_date akismet_row = SText (source_date 2005 10 20).
Proof.
  apply (added_date_is_stored_unchanged akismet akismet_row 2005 10 20).
  - reflexivity.
  - vm_compute. reflexivity.
  - vm_compute. reflexivity.
  - lia.
Defined.

(** A date that the calendar does not have (30 February, 31 April) makes
    the write raise [ValueError], whatever the database holds, when nothing
    before it raises: the conversion comes before the statement is run. *)
Theorem nonexistent_added_date_raises_ValueError db plugin y m d :
  1 <= y < 100 * 100 -> 1 <= m <= 12 -> 1 <= d <= 31 ->
  valid_date y m d = false ->
  plugin !! "last_updated" = None ->
  plugin !! "added" = Some (VStr (source_date y m d)) ->
  insert_plugin_into_db db plugin = Raise ValueError.
Proof.
  intros Hy Hm Hd Hv Hl Ha.
  unfold insert_plugin_into_db, prepare_data. cbv zeta.
  rewrite (dict_get_absent _ _ _ Hl), (dict_get_present _ _ _ _ Ha).
  change (convert_date re_last_updated strftime_canonical VNone) with (Ok VNone).
  cbn [rbind]. unfold convert_date at 1, strptime.
  rewrite source_date_truthy.
  rewrite (re_added_fields y m d) by assumption.
  cbn [year month day]. rewrite Hv. reflexivity.
Qed.

Lemma nonexistent_added_date_raises_ValueError_witness :
  insert_plugin_into_db empty_schema
    {[ "slug" := VStr "akismet"; "added" := VStr (source_date 2023 2 30) ]}
  = Raise ValueError.
Proof.
  apply (nonexistent_added_date_raises_ValueError empty_schema _ 2023 2 30);
    try lia; vm_compute; reflexivity.
Defined.

End DateExtras.

(** ** [insert_plugin_into_db]: the other rows *)

Section TableExtras.
Import Sqlite DbUtils.

Lemma upsert_others r t :
  filter (fun x => slug x <> slug r) (upsert r t)
  = filter (fun x => slug x <> slug r) t.
Proof.
  induction t as [|old t IH]; cbn [upsert].
  - now rewrite filter_cons_False by (intros H; now apply H).
  - destruct (pk_conflict (slug r) (slug old)) eqn:Hc.
    + apply pk_conflict_true in Hc as [_ Heq].
      rewrite !filter_cons_False; [reflexivity| |];
        intros H; apply H; [now symmetry|]. cbn [do_update slug]. now symmetry.
    + rewrite !filter_cons. now rewrite IH.
Qed.

Lemma upsert_null r t : slug r = SNull -> upsert r t = t ++ [r].
Proof.
  intros Hn. induction t as [|old t IH]; cbn [upsert]; [reflexivity|].
  rewrite Hn. cbn [pk_conflict]. now rewrite IH.
Qed.

Lemma upsert_length_known r t :
  slug r ∈ keys t -> length (upsert r t) = length t.
Proof.
  induction t as [|old t IH]; cbn [upsert].
  - unfold keys. cbn. now intros ?%elem_of_nil.
  - intros Hk. destruct (pk_conflict (slug r) (slug old)) eqn:Hc; [reflexivity|].
    cbn [length]. f_equal. apply IH.
    rewrite keys_cons in Hk. case_decide as Ho; [|assumption].
    apply elem_of_cons in Hk as [Hk|Hk]; [|assumption].
    exfalso. assert (pk_conflict (slug r) (slug old) = true); [|congruence].
    apply pk_conflict_true. split; congruence.
Qed.

Lemma upsert_length_new r t :
  slug r ∉ keys t -> length (upsert r t) = S (length t).
Proof.
  induction t as [|old t IH]; cbn [upsert]; [reflexivity|].
  intros Hk. destruct (pk_conflict (slug r) (slug old)) eqn:Hc.
  - apply pk_conflict_true in Hc as [Hn Heq]. exfalso. apply Hk.
    rewrite keys_cons, decide_True by congruence. rewrite Heq. left.
  - cbn [length]. f_equal. apply IH. intros Hin. apply Hk.
    rewrite keys_cons. case_decide; [now right|assumption].
Qed.

(** A write touches the row of its slug only: the rows of the other slugs
    stay, in their order, the table of findings stays, and the catalogue
    grows by one row when the slug is new and keeps its size when the slug
    is known. *)
Theorem write_touches_one_row db plugin db' :
  insert_plugin_into_db db plugin = Ok db' ->
  exists t t' r,
    PluginData db = Some t /\ PluginData db' = Some t' /\
    written_row plugin = Ok r /\
    filter (fun x => slug x <> slug r) t' = filter (fun x => slug x <> slug r) t /\
    length t' = (if bool_decide (slug r ∈ keys t) then length t else S (length t)) /\
    PluginResults db' = PluginResults db.
Proof.
  intros H. apply insert_ok_iff in H as (t & r & Ht & Hr & ->).
  exists t, (upsert r t), r. split_and!; try done.
  - apply upsert_others.
  - case_bool_decide; [now apply upsert_length_known|now apply upsert_length_new].
Qed.

Lemma write_touches_one_row_witness :
  exists t t' r,
    PluginData stocked = Some t /\ PluginData restocked = Some t' /\
    written_row akismet = Ok r /\
    filter (fun x => slug x <> slug r) t' = filter (fun x => slug x <> slug r) t /\
    length t' = (if bool_decide (slug r ∈ keys t) then length t else S (length t)) /\
    PluginResults restocked = PluginResults stocked.
Proof.
  apply (write_touches_one_row stocked akismet restocked).
  vm_compute. reflexivity.
Defined.

(** An entry whose slug is [None] (a JSON null) never meets a conflict:
    every write of it adds a row with a NULL slug at the end of the table,
    so writing it twice leaves two rows. *)
Theorem null_slug_adds_a_row_each_time db plugin db1 db2 :
  plugin !! "slug" = Some VNone ->
  insert_plugin_into_db db plugin = Ok db1 ->
  insert_plugin_into_db db1 plugin = Ok db2 ->
  exists t r,
    PluginData db = Some t /\ slug r = SNull /\
    PluginData db1 = Some (t ++ [r]) /\
    PluginData db2 = Some (t ++ [r; r]).
Proof.
  intros Hs H1 H2.
  apply insert_ok_iff in H1 as (t & r & Ht & Hr & ->).
  apply insert_ok_iff in H2 as (t1 & r1 & Ht1 & Hr1 & ->).
  cbn [PluginData] in Ht1. injection Ht1 as <-.
  rewrite Hr in Hr1. injection Hr1 as <-.
  assert (slug r = SNull) as Hn.
  { apply written_row_iff in Hr
      as (lu & ad & sl & ai & dw & bs & bv & bai & bdw & blu & bad & bdl
          & _ & _ & Hsl & _ & _ & Hbs & _ & _ & _ & _ & _ & _ & ->).
    rewrite Hs in Hsl. injection Hsl as <-. now injection Hbs as <-. }
  exists t, r. cbn [PluginData]. rewrite !upsert_null by assumption.
  now rewrite <- app_assoc.
Qed.

Lemma null_slug_adds_a_row_each_time_witness :
  exists t r,
    PluginData stocked = Some t /\ slug r = SNull /\
    PluginData (mk_database (Some [old_akismet_row; null_row]) (Some []))
      = Some (t ++ [r]) /\
    PluginData (mk_database (Some [old_akismet_row; null_row; null_row]) (Some []))
      = Some (t ++ [r; r]).
Proof.
  apply (null_slug_adds_a_row_each_time stocked {[ "slug" := VNone ]}
           (mk_database (Some [old_akismet_row; null_row]) (Some []))
           (mk_database (Some [old_akismet_row; null_row; null_row]) (Some [])));
    vm_compute; reflexivity.
Defined.

End TableExtras.

(** ** The schema and the table of findings *)

Section ResultsExtras.
Import Sqlite DbUtils.

Lemma bind_param_int64 z : int64 z -> bind_param (VInt z) = Ok (SInt z).
Proof.
  unfold int64. intros [Hlo Hhi]. cbn [bind_param].
  apply Z.leb_le in Hlo. apply Z.ltb_lt in Hhi. now rewrite Hlo, Hhi.
Qed.

Lemma insert_result_ok db plugin item t :
  PluginResults db = Some t ->
  int64 (f_start_line item) -> int64 (f_end_line item) ->
  insert_result_into_db db plugin item
  = Ok {| PluginData := PluginData db;
          PluginResults := Some (t ++ [finding_row plugin item]) |}.
Proof.
  intros Ht Hs He. unfold insert_result_into_db, execute_insert_result.
  cbv zeta. rewrite Ht. cbn [start_line end_line].
  now rewrite (bind_param_int64 _ Hs), (bind_param_int64 _ He).
Qed.

(** With [create_schema], [connect_to_db] gives a database on which no
    operation fails for a missing table: the tables that were there keep
    their rows, the others are created empty, connecting again changes
    nothing, and then every entry that yields a row can be written, every
    finding with 64-bit line numbers can be recorded, and the selection
    answers for every 64-bit threshold. *)
Theorem created_schema_serves_every_operation file :
  exists db,
    connect_to_db file true = Ok db /\
    PluginData db = Some (default [] (PluginData file)) /\
    PluginResults db = Some (default [] (PluginResults file)) /\
    connect_to_db db true = Ok db /\
    (forall plugin, is_ok (written_row plugin) = true ->
       is_ok (insert_plugin_into_db db plugin) = true) /\
    (forall plugin item, int64 (f_start_line item) -> int64 (f_end_line item) ->
       is_ok (insert_result_into_db db plugin item) = true) /\
    (forall now n, int64 n -> is_ok (select_plugins_for_download db now n) = true).
Proof.
  eexists. split; [reflexivity|]. destruct file as [[pd|] [pr|]]; cbn.
  all: split_and!; try reflexivity.
  all: try (intros plugin Hr; destruct (written_row plugin) as [r|] eqn:Hw;
            [|discriminate];
            erewrite (proj2 (insert_ok_iff _ _ _)); [reflexivity|];
            eexists _, _; split_and!; [reflexivity|eassumption|reflexivity]).
  all: try (intros plugin item Hs He; erewrite insert_result_ok; try eassumption;
            reflexivity).
  all: intros now n Hn; unfold select_plugins_for_download; cbn [PluginData];
    now rewrite (bind_param_int64 _ Hn).
Qed.

(** [delete_results_table] leaves the catalogue alone and an empty table of
    findings, also when there was no such table; a finding recorded next is
    the only row. *)
Theorem cleared_results_hold_the_new_finding_only db plugin item :
  int64 (f_start_line item) -> int64 (f_end_line item) ->
  PluginData (delete_results_table db) = PluginData db /\
  PluginResults (delete_results_table db) = Some [] /\
  insert_result_into_db (delete_results_table db) plugin item
  = Ok {| PluginData := PluginData db;
          PluginResults := Some [finding_row plugin item] |}.
Proof.
  intros Hs He. split_and!; try reflexivity.
  now rewrite (insert_result_ok _ plugin item []).
Qed.

Lemma cleared_results_hold_the_new_finding_only_witness :
  PluginData (delete_results_table no_schema) = PluginData no_schema /\
  PluginResults (delete_results_table no_schema) = Some [] /\
  insert_result_into_db (delete_results_table no_schema) "good"
    (mk_finding "good/a.php" "php.lang.security.eval-use" 3 3 "eval($x);")
  = Ok {| PluginData := PluginData no_schema;
          PluginResults :=
            Some [finding_row "good"
                    (mk_finding "good/a.php" "php.lang.security.eval-use" 3 3
                       "eval($x);")] |}.
Proof.
  apply (cleared_results_hold_the_new_finding_only no_schema "good"
           (mk_finding "good/a.php" "php.lang.security.eval-use" 3 3 "eval($x);"));
    unfold int64; cbn; lia.
Defined.

(** Every pair that the selection returns comes from a row of the
    catalogue whose [last_updated] is a text that does not sort below the
    ISO text of the bound (two years before now), and whose
    [active_installs] is not NULL and, when it is an integer, greater than
    the threshold: a row with NULL in either column is never selected. *)
Theorem selected_rows_pass_both_tests db now n l p :
  select_plugins_for_download db now n = Ok l -> p ∈ l ->
  exists t r s,
    PluginData db = Some t /\ r ∈ t /\ p = (slug r, download_link r) /\
    last_updated r = SText s /\
    String.compare s (DateTime.isoformat (DateTime.minus_years now 2)) <> Lt /\
    match active_installs r with
    | SInt k => n < k
    | SText _ => True
    | SNull => False
    end.
Proof.
  unfold select_plugins_for_download. cbv zeta.
  destruct (PluginData db) as [t|]; [|discriminate].
  destruct (bind_param (VInt n)) as [p1|e] eqn:Hp; cbn [rbind];
    [|apply bind_param_raise in Hp as ->; discriminate].
  cbn [except_ProgrammingError]. intros [= <-] Hin.
  assert (p1 = SInt n) as -> by (cbn in Hp; case_match; congruence).
  apply list_elem_of_In, in_map_iff in Hin as (r & <- & Hr).
  apply list_elem_of_In, list_elem_of_filter in Hr as [Hsel Hr].
  apply andb_true_iff in Hsel as [Hgt Hge].
  unfold sql_ge, adapt_datetime_iso in Hge. unfold sql_gt in Hgt.
  destruct (last_updated r) as [| |s] eqn:Hlu; try discriminate.
  exists t, r, s. split_and!; try done.
  - cbn in Hge. intros Hlt. now rewrite Hlt in Hge.
  - destruct (Sqlite.active_installs r) as [|k|]; cbn in Hgt; try done.
    destruct (k ?= n) eqn:Hk; try discriminate. now apply Z.compare_gt_iff in Hk.
Qed.

Lemma selected_rows_pass_both_tests_witness :
  exists t r s,
    PluginData (db four_plugins) = Some t /\ r ∈ t /\
    (SText "p1", SText "N/A") = (slug r, download_link r) /\
    last_updated r = SText s /\
    String.compare s (DateTime.isoformat (DateTime.minus_years noon_2026_11_04 2))
      <> Lt /\
    match active_installs r with
    | SInt k => 10 < k
    | SText _ => True
    | SNull => False
    end.
Proof.
  apply (selected_rows_pass_both_tests (db four_plugins) noon_2026_11_04 10
           [(SText "p1", SText "N/A"); (SText "p2", SText "N/A");
            (SText "p3", SText "N/A"); (SText "p4", SText "N/A")]).
  - vm_compute. reflexivity.
  - left.
Defined.

End ResultsExtras.

(** ** The audit pass: one plugin, and the first failure *)

Section AuditExtras.
Import Sqlite DbUtils.
Variable E : env.

Lemma store_findings_run plugin items s t :
  PluginResults (db s) = Some t ->
  Forall (fun item => int64 (f_start_line item) /\ int64 (f_end_line item)) items ->
  for_each items (fun item =>
    on_db (fun d => insert_result_into_db d plugin item);; emit Commit) s
  = (Ok tt,
     {| ws := ws s;
        db := {| PluginData := PluginData (db s);
                 PluginResults := Some (t ++ (finding_row plugin <$> items)) |} |},
     replicate (length items) Commit).
Proof.
  intros Ht Hall. revert s t Ht.
  induction Hall as [|item items [Hs He] _ IH]; intros s t Ht.
  - cbn. rewrite app_nil_r, <- Ht. now destruct s as [w []].
  - pose (s1 := {| ws := ws s;
                   db := {| PluginData := PluginData (db s);
                            PluginResults := Some (t ++ [finding_row plugin item]) |} |}).
    assert ((on_db (fun d => insert_result_into_db d plugin item);; emit Commit) s
            = (Ok tt, s1, [] ++ [Commit])) as H1.
    { eapply bind_ok; [|reflexivity]. unfold on_db.
      now rewrite (insert_result_ok _ plugin item t Ht Hs He). }
    cbn [for_each].
    rewrite (bind_ok _ _ _ _ _ _ _ _ _ H1 (IH s1 _ eq_refl)).
    cbn [s1 ws db PluginData fmap list_fmap length replicate app].
    now rewrite <- app_assoc.
Qed.

Lemma run_semgrep_run config plugin verbose s :
  outcome (run_semgrep E config plugin verbose s) = Ok tt /\
  final (run_semgrep E config plugin verbose s)
  = {| ws := <[plugin := (semgrep E config plugin (default ∅ (ws s !! plugin))).2]>
               (ws s);
       db := db s |}.
Proof.
  unfold run_semgrep. now destruct (semgrep E config plugin _) as [status d].
Qed.

Lemma audit_plugin_run config verbose plugin st t text doc items :
  let d := (semgrep E config plugin (default ∅ (ws st !! plugin))).2 in
  let r := audit_plugin E config verbose plugin st in
  PluginResults (db st) = Some t ->
  d !! output_file = Some text ->
  json_load E text = Some doc ->
  results doc = Some items ->
  Forall (fun item => int64 (f_start_line item) /\ int64 (f_end_line item)) items ->
  outcome r = Ok tt /\
  ws (final r) = <[plugin := d]> (ws st) /\
  PluginData (db (final r)) = PluginData (db st) /\
  PluginResults (db (final r)) = Some (t ++ (finding_row plugin <$> items)) /\
  events r = events (run_semgrep E config plugin verbose st)
             ++ replicate (length items) Commit.
Proof.
  intros d r Ht Hd Hj Hres Hall. subst r d.
  destruct (run_semgrep_run config plugin verbose st) as (Ho & Hf).
  assert (read_results E plugin (final (run_semgrep E config plugin verbose st))
          = (Ok items, final (run_semgrep E config plugin verbose st), [])) as Hread.
  { unfold read_results. rewrite Hf. cbn [ws].
    rewrite lookup_insert_eq. cbn [from_option id]. now rewrite Hd, Hj, Hres. }
  unfold audit_plugin.
  rewrite outcome_bind, final_bind, events_bind, Ho.
  rewrite outcome_bind, final_bind, events_bind, Hread.
  cbn [outcome final events fst snd app].
  rewrite (store_findings_run plugin items _ t); [|now rewrite Hf|assumption].
  cbn [outcome final events fst snd ws db PluginData PluginResults].
  rewrite Hf. cbn [ws db]. now split_and!.
Qed.

(** Whatever the exit status of the analyzer, the findings of the output
    file that the plugin directory holds after the analysis are recorded,
    in their order and one commit each: also those of an output file left
    by an earlier analysis when the analyzer has failed this time, in which
    case the failure is printed as well. *)
Theorem output_file_is_recorded_whatever_the_status
    config verbose plugin st t text doc items :
  let d := (semgrep E config plugin (default ∅ (ws st !! plugin))).2 in
  let r := audit_plugin E config verbose plugin st in
  PluginResults (db st) = Some t ->
  d !! output_file = Some text ->
  json_load E text = Some doc ->
  results doc = Some items ->
  Forall (fun item => int64 (f_start_line item) /\ int64 (f_end_line item)) items ->
  outcome r = Ok tt /\
  ws (final r) = <[plugin := d]> (ws st) /\
  PluginData (db (final r)) = PluginData (db st) /\
  PluginResults (db (final r)) = Some (t ++ (finding_row plugin <$> items)) /\
  events r = events (run_semgrep E config plugin verbose st)
             ++ replicate (length items) Commit /\
  audit_failures (events r)
  = match (semgrep E config plugin (default ∅ (ws st !! plugin))).1 with
    | Some code => if code =? 0 then [] else [plugin]
    | None => [plugin]
    end.
Proof.
  intros d r Ht Hd Hj Hres Hall.
  destruct (audit_plugin_run config verbose plugin st t text doc items
              Ht Hd Hj Hres Hall) as (Ho & Hw & Hpd & Hpr & Hev).
  split_and!; try assumption. subst r. rewrite Hev.
  unfold audit_failures. rewrite omap_app.
  assert (forall n, omap (fun e => match e with
                                   | Print (MsgSemgrepFailed p)
                                   | Print (MsgUnexpected p) => Some p
                                   | _ => None
                                   end) (replicate n Commit) = []) as ->
    by (induction n; [reflexivity|assumption]).
  rewrite app_nil_r. unfold run_semgrep.
  destruct (semgrep E config plugin _) as [[code|] d']; [|reflexivity].
  cbn [events fst snd]. destruct (code =? 0); [|reflexivity]. now destruct verbose.
Qed.

(** The audit pass ends at the first plugin of the listing whose findings
    cannot be read after its analysis (no output file, a file that is not
    JSON, a document without [results]): the exception is raised out of the
    pass, the database is as before, and no other plugin is analysed. *)
Theorem audit_ends_at_first_unreadable_output config verbose st plugin rest e :
  let r := run_semgrep_and_store_results E config verbose st in
  listdir (ws st) = plugin :: rest ->
  unreadable E (semgrep E config plugin (default ∅ (ws st !! plugin))).2 = Some e ->
  outcome r = Raise e /\
  db (final r) = db st /\
  events r = events (run_semgrep E config plugin verbose st).
Proof.
  intros r Hl Hu. subst r.
  destruct (run_semgrep_run config plugin verbose st) as (Ho & Hf).
  assert (audit_plugin E config verbose plugin st
          = (Raise e, final (run_semgrep E config plugin verbose st),
             events (run_semgrep E config plugin verbose st))) as Haudit.
  { unfold audit_plugin, bind.
    destruct (run_semgrep E config plugin verbose st) as [[o s1] t1].
    cbn [outcome final events fst snd] in Ho, Hf |- *. subst o s1.
    unfold read_results. cbn [ws].
    rewrite lookup_insert_eq. cbn [from_option id]. unfold unreadable in Hu.
    destruct (_ !! output_file) as [text|];
      [|injection Hu as <-; cbn; now rewrite app_nil_r].
    destruct (json_load E text) as [doc|];
      [|injection Hu as <-; cbn; now rewrite app_nil_r].
    destruct (results doc); [discriminate|].
    injection Hu as <-. cbn. now rewrite app_nil_r. }
  assert (run_semgrep_and_store_results E config verbose st
          = (Raise e, final (run_semgrep E config plugin verbose st),
             events (run_semgrep E config plugin verbose st))) as ->.
  { unfold run_semgrep_and_store_results, bind at 1. rewrite Hl. cbn [for_each].
    now rewrite (bind_raise _ _ _ _ _ _ Haudit). }
  split_and!; try reflexivity.
  change (db (final (run_semgrep E config plugin verbose st)) = db st).
  now rewrite Hf.
Qed.

End AuditExtras.

Section AuditWitnesses.
Import Sqlite DbUtils.

Lemma output_file_is_recorded_whatever_the_status_witness :
  let d := (semgrep stale_env "p/php" "good"
              (default ∅ (ws audited_before !! "good"))).2 in
  let r := audit_plugin stale_env "p/php" false "good" audited_before in
  outcome r = Ok tt /\
  ws (final r) = <["good" := d]> (ws audited_before) /\
  PluginData (db (final r)) = PluginData (db audited_before) /\
  PluginResults (db (final r)) = Some ([] ++ (finding_row "good" <$> two_findings)) /\
  events r = events (run_semgrep stale_env "p/php" "good" false audited_before)
             ++ replicate (length two_findings) Commit /\
  audit_failures (events r)
  = match (semgrep stale_env "p/php" "good"
             (default ∅ (ws audited_before !! "good"))).1 with
    | Some code => if code =? 0 then [] else ["good"]
    | None => ["good"]
    end.
Proof.
  apply (output_file_is_recorded_whatever_the_status stale_env "p/php" false "good"
           audited_before [] "findings" (mk_doc (Some two_findings)) two_findings).
  - reflexivity.
  - apply (bool_decide_eq_true_1 _). vm_compute. reflexivity.
  - reflexivity.
  - reflexivity.
  - repeat constructor; unfold int64; cbn; lia.
Defined.

Lemma audit_ends_at_first_unreadable_output_witness :
  let r := run_semgrep_and_store_results sample_env "p/php" true to_audit in
  outcome r = Raise FileNotFoundError /\
  db (final r) = db to_audit /\
  events r = events (run_semgrep sample_env "p/php" "woo" true to_audit).
Proof.
  apply (audit_ends_at_first_unreadable_output sample_env "p/php" true to_audit
           "woo" ["good"] FileNotFoundError).
  - vm_compute. reflexivity.
  - apply (bool_decide_eq_true_1 _). vm_compute. reflexivity.
Defined.

End AuditWitnesses.

(** ** Storing the catalogue: early stops and what is kept *)

Section CatalogueExtras.
Import Sqlite DbUtils.
Variable E : env.

Lemma store_page_stored verbose p s :
  page_is_stored E p -> is_Some (PluginData (db s)) ->
  exists s' t,
    store_page E verbose p s = (Ok true, s', t) /\
    is_Some (PluginData (db s')) /\ page_requests t = [p].
Proof.
  intros (inf & entries & Hc & Hall) Hs.
  destruct (store_entries_run verbose entries s Hs Hall)
    as (s1 & t1 & H1 & Hs1 & Ht1 & Hw1).
  eexists _, _. split.
  - unfold store_page. eapply bind_ok; [apply get_plugins_ok; eassumption|].
    cbn beta iota. eapply bind_ok; [eassumption|]. reflexivity.
  - rewrite !page_requests_app, Ht1. now split.
Qed.

Lemma store_page_breaks verbose p s :
  page_breaks E p ->
  exists t, store_page E verbose p s = (Ok false, s, t) /\ page_requests t = [p].
Proof.
  unfold page_breaks, store_page, get_plugins, bind, emit, print, ret.
  destruct (catalog E p) as [|code body]; [done|].
  destruct (code =? 200) eqn:Hcode.
  - apply Z.eqb_eq in Hcode as ->. intros [H|(inf & ->)]; [done|].
    eexists. split; reflexivity.
  - intros _. eexists. split; reflexivity.
Qed.

Lemma store_pages_stop verbose l p l' s :
  Forall (page_is_stored E) l -> page_breaks E p ->
  is_Some (PluginData (db s)) ->
  exists s' t,
    for_break (l ++ p :: l') (store_page E verbose) s = (Ok tt, s', t) /\
    page_requests t = l ++ [p].
Proof.
  intros Hall Hp. revert s. induction Hall as [|q l Hq _ IH]; intros s Hs.
  - destruct (store_page_breaks verbose p s Hp) as (t & Hrun & Ht).
    eexists _, _. split.
    + cbn [app for_break]. eapply bind_ok; [eassumption|reflexivity].
    + now rewrite page_requests_app, Ht.
  - destruct (store_page_stored verbose q s Hq Hs) as (s1 & t1 & H1 & Hs1 & Ht1).
    destruct (IH s1 Hs1) as (s2 & t2 & H2 & Ht2).
    eexists _, _. split.
    + cbn [app for_break]. eapply bind_ok; eassumption.
    + now rewrite page_requests_app, Ht1, Ht2.
Qed.

(** The early stop.  When page 1 announces [N] pages, the pages before
    page [k] are stored and page [k] answers with a status other than 200 or
    without [plugins], [write_plugins_to_db] returns normally and has
    requested page 1 and then the pages 1 to [k]: no page after [k] is
    requested. *)
Theorem catalogue_stops_at_first_bad_page N k verbose st :
  1 <= k <= N ->
  (exists info pl,
     catalog E 1 = Status 200 (Some (mk_page (Some info) pl)) /\
     info !! "pages" = Some (VInt N)) ->
  (forall p, 1 <= p < k -> page_is_stored E p) ->
  page_breaks E k ->
  is_Some (PluginData (db st)) ->
  let r := write_plugins_to_db E verbose st in
  outcome r = Ok tt /\ page_requests (events r) = 1 :: seqZ 1 k.
Proof.
  intros Hk (info & pl & Hc & Hpages) Hgood Hbad Hs r. subst r.
  assert (seqZ 1 N = seqZ 1 (k - 1) ++ k :: seqZ (k + 1) (N - k)) as Hsplit.
  { replace N with ((k - 1) + (1 + (N - k))) at 1 by lia.
    rewrite seqZ_app by lia. f_equal.
    replace (1 + (k - 1)) with k by lia.
    rewrite seqZ_cons by lia. f_equal. f_equal; lia. }
  assert (Forall (page_is_stored E) (seqZ 1 (k - 1))) as Hall
    by (apply Forall_forall; intros p Hp%elem_of_seqZ; apply Hgood; lia).
  destruct (store_pages_stop verbose _ k (seqZ (k + 1) (N - k)) st Hall Hbad Hs)
    as (s1 & t1 & H1 & Ht1).
  assert (write_plugins_to_db E verbose st = (Ok tt, s1, [PageRequest 1] ++ t1)) as ->.
  { unfold write_plugins_to_db. eapply bind_ok; [apply get_plugins_ok; eassumption|].
    cbn beta iota. unfold bind at 1, lift at 1, getitem. rewrite Hpages.
    unfold bind at 1, lift at 1. cbn [page_range].
    rewrite Hsplit, H1. reflexivity. }
  split; [reflexivity|]. cbn [events snd]. rewrite page_requests_app, Ht1.
  cbn [page_requests omap app]. f_equal.
  replace k with ((k - 1) + 1) at 3 by lia.
  rewrite seqZ_app by lia. f_equal. now replace (1 + (k - 1)) with k by lia.
Qed.

(** When the first request does not give a document with [info] (a status
    other than 200, or a document without it), nothing else is requested
    and nothing is stored: the run prints that it failed and returns. *)
Theorem first_page_without_info_stores_nothing verbose st :
  match catalog E 1 with
  | Status code body =>
      code <> 200 \/ exists pl, body = Some (mk_page None pl)
  | Unreachable => False
  end ->
  let r := write_plugins_to_db E verbose st in
  outcome r = Ok tt /\ final r = st /\
  page_requests (events r) = [1] /\
  last (events r) = Some (Print MsgNoPluginInfo).
Proof.
  unfold write_plugins_to_db, get_plugins, bind, emit, print, ret.
  destruct (catalog E 1) as [|code body]; [done|].
  destruct (code =? 200) eqn:Hcode.
  - apply Z.eqb_eq in Hcode as ->. intros [H|(pl & ->)]; [done|]. now cbn.
  - intros _. now cbn.
Qed.

(** The number of pages has to be there and to be an integer: a first page
    whose [info] has no [pages] raises [KeyError], one whose [pages] is not
    an integer raises [TypeError], both after the one request and before
    anything is stored. *)
Theorem number_of_pages_is_required verbose st info pl :
  catalog E 1 = Status 200 (Some (mk_page (Some info) pl)) ->
  (forall n, info !! "pages" <> Some (VInt n)) ->
  let r := write_plugins_to_db E verbose st in
  outcome r = Raise (match info !! "pages" with
                     | None => KeyError "pages"
                     | Some _ => TypeError
                     end) /\
  final r = st /\ events r = [PageRequest 1].
Proof.
  intros Hc Hn r. subst r.
  unfold write_plugins_to_db.
  rewrite outcome_bind, final_bind, events_bind, (get_plugins_ok E 1 _ st Hc).
  cbn [outcome final events fst snd]. unfold bind, lift, getitem.
  destruct (info !! "pages") as [[|n|]|]; cbn; try done.
  now destruct (Hn n).
Qed.

End CatalogueExtras.

Section CatalogueWitnesses.
Import Sqlite DbUtils.

Lemma broken_env_stores p : p <> 3 -> page_is_stored broken_env p.
Proof.
  intros Hp. eexists _, _. split.
  - cbn [catalog broken_env]. apply Z.eqb_neq in Hp. rewrite Hp. reflexivity.
  - repeat constructor.
Qed.

Lemma catalogue_stops_at_first_bad_page_witness :
  let r := write_plugins_to_db broken_env false nothing_yet in
  outcome r = Ok tt /\ page_requests (events r) = 1 :: seqZ 1 3.
Proof.
  apply (catalogue_stops_at_first_bad_page broken_env 5 3 false nothing_yet).
  - lia.
  - eexists _, _. split; [reflexivity|]. vm_compute. reflexivity.
  - intros p Hp. apply broken_env_stores. lia.
  - left. discriminate.
  - eexists. reflexivity.
Defined.

Lemma first_page_without_info_stores_nothing_witness :
  let r := write_plugins_to_db
             {| catalog := fun _ => Status 503 None;
                archive := archive sample_env;
                semgrep := semgrep sample_env;
                json_load := json_load sample_env;
                now := now sample_env |} false nothing_yet in
  outcome r = Ok tt /\ final r = nothing_yet /\
  page_requests (events r) = [1] /\
  last (events r) = Some (Print MsgNoPluginInfo).
Proof.
  apply (first_page_without_info_stores_nothing
           {| catalog := fun _ => Status 503 None;
              archive := archive sample_env;
              semgrep := semgrep sample_env;
              json_load := json_load sample_env;
              now := now sample_env |} false nothing_yet).
  left. discriminate.
Defined.

Lemma number_of_pages_is_required_witness :
  let r := write_plugins_to_db
             {| catalog := fun _ =>
                  Status 200 (Some (mk_page (Some {[ "pages" := VStr "5" ]}) None));
                archive := archive sample_env;
                semgrep := semgrep sample_env;
                json_load := json_load sample_env;
                now := now sample_env |} false nothing_yet in
  outcome r = Raise (match ({[ "pages" := VStr "5" ]} : pydict) !! "pages" with
                     | None => KeyError "pages"
                     | Some _ => TypeError
                     end) /\
  final r = nothing_yet /\ events r = [PageRequest 1].
Proof.
  apply (number_of_pages_is_required
           {| catalog := fun _ =>
                Status 200 (Some (mk_page (Some {[ "pages" := VStr "5" ]}) None));
              archive := archive sample_env;
              semgrep := semgrep sample_env;
              json_load := json_load sample_env;
              now := now sample_env |} false nothing_yet _ None).
  - reflexivity.
  - intros n. apply (bool_decide_eq_false_1 _). vm_compute. reflexivity.
Defined.

End CatalogueWitnesses.

(** ** What each phase leaves alone *)

Section Frames.
Variable R : state -> state -> Prop.
Hypothesis R_refl : forall s, R s s.
Hypothesis R_trans : forall a b c, R a b -> R b c -> R a c.

Lemma preserves_bind {A B} (m : M A) (k : A -> M B) :
  preserves R m -> (forall a, preserves R (k a)) -> preserves R (bind m k).
Proof.
  intros Hm Hk s. rewrite final_bind.
  destruct (outcome (m s)); [|apply Hm].
  eapply R_trans; [apply Hm|apply Hk].
Qed.

Lemma preserves_pure {A} (m : M A) :
  (forall s, final (m s) = s) -> preserves R m.
Proof. intros H s. rewrite H. apply R_refl. Qed.

Lemma preserves_when b (m : M unit) : preserves R m -> preserves R (when b m).
Proof. intros Hm. destruct b; [exact Hm|]. now apply preserves_pure. Qed.

Lemma preserves_print msg : preserves R (print msg).
Proof. now apply preserves_pure. Qed.

Lemma preserves_for_each {A} (l : list A) (body : A -> M unit) :
  (forall x, preserves R (body x)) -> preserves R (for_each l body).
Proof.
  intros Hb. induction l as [|x l IH]; [now apply preserves_pure|].
  cbn [for_each]. apply preserves_bind; [apply Hb|]. intros _. exact IH.
Qed.

Lemma preserves_for_break {A} (l : list A) (body : A -> M bool) :
  (forall x, preserves R (body x)) -> preserves R (for_break l body).
Proof.
  intros Hb. induction l as [|x l IH]; [now apply preserves_pure|].
  cbn [for_break]. apply preserves_bind; [apply Hb|].
  intros [|]; [exact IH|now apply preserves_pure].
Qed.

Lemma preserves_attempt (m : M unit) : preserves R m -> preserves R (attempt m).
Proof.
  intros Hm s. specialize (Hm s). unfold attempt.
  now destruct (m s) as [[[u|e] s1] t1].
Qed.

End Frames.

Section StoreFrame.
Import Sqlite DbUtils.
Variable E : env.

Lemma store_frame_refl s : store_frame s s.
Proof. split_and!; try done. intros t Ht. exists t. now split_and!. Qed.

Lemma store_frame_trans a b c : store_frame a b -> store_frame b c -> store_frame a c.
Proof.
  intros (Hw1 & Hr1 & Hd1) (Hw2 & Hr2 & Hd2). split_and!; [congruence|congruence|].
  intros t Ht. destruct (Hd1 t Ht) as (t1 & Ht1 & Hl1 & Hu1).
  destruct (Hd2 t1 Ht1) as (t2 & Ht2 & Hl2 & Hu2).
  exists t2. split_and!; [done|lia|auto].
Qed.

Lemma upsert_length_le r t : (length t <= length (upsert r t))%nat.
Proof.
  destruct (decide (slug r ∈ keys t)) as [Hk|Hk].
  - now rewrite upsert_length_known.
  - rewrite upsert_length_new by assumption. lia.
Qed.

Lemma insert_store_frame plugin :
  preserves store_frame (on_db (fun d => insert_plugin_into_db d plugin)).
Proof.
  intros s. unfold on_db.
  destruct (insert_plugin_into_db (db s) plugin) as [d|e] eqn:Hi;
    [|apply store_frame_refl].
  apply insert_ok_iff in Hi as (t & r & Ht & Hr & ->).
  split_and!; try done. intros t0 Ht0. rewrite Ht in Ht0. injection Ht0 as <-.
  exists (upsert r t). split_and!; [done|apply upsert_length_le|apply upsert_pk_unique].
Qed.

Lemma get_plugins_final p s : final (get_plugins E p s) = s.
Proof.
  unfold get_plugins, bind, emit, print, ret, raise.
  destruct (catalog E p) as [|code [body|]]; try reflexivity;
    now destruct (code =? 200).
Qed.

Lemma store_page_frame verbose p : preserves store_frame (store_page E verbose p).
Proof.
  pose proof store_frame_refl as Hr. pose proof store_frame_trans as Ht.
  unfold store_page. apply preserves_bind; try assumption.
  - apply preserves_pure; [assumption|]. apply get_plugins_final.
  - intros [[inf [entries|]]|]; try now apply preserves_pure.
    apply preserves_bind; try assumption; [|intros _; now apply preserves_pure].
    apply preserves_for_each; try assumption. intros plugin.
    apply preserves_bind; try assumption; [apply insert_store_frame|].
    intros _. apply preserves_when; try assumption.
    apply preserves_pure; [assumption|]. intros s.
    unfold bind, lift, getitem, print, emit. now destruct (plugin !! "slug").
Qed.

(** However [write_plugins_to_db] ends (normally, at a page that breaks the
    loop, or with an exception), it leaves the workspace and the table of
    findings as they were, and a catalogue table that was there is still
    there, with no fewer rows and with a unique primary key if it had
    one. *)
Theorem storing_keeps_the_rest verbose st :
  store_frame st (final (write_plugins_to_db E verbose st)).
Proof.
  pose proof store_frame_refl as Hr. pose proof store_frame_trans as Ht.
  revert st. change (preserves store_frame (write_plugins_to_db E verbose)).
  unfold write_plugins_to_db. apply preserves_bind; try assumption.
  - apply preserves_pure; [assumption|]. apply get_plugins_final.
  - intros [[[info|] pl]|]; try now apply preserves_pure.
    apply preserves_bind; try assumption.
    intros total. apply preserves_bind; try assumption.
    intros pages. apply preserves_for_break; try assumption.
    intros p. apply store_page_frame.
Qed.

End StoreFrame.

Section DownloadFrame.
Import Sqlite DbUtils.
Variable E : env.

Let same_db (s s' : state) : Prop := db s' = db s.

Lemma same_db_refl s : same_db s s.
Proof. reflexivity. Qed.

Lemma same_db_trans a b c : same_db a b -> same_db b c -> same_db a c.
Proof. unfold same_db. congruence. Qed.

Lemma download_same_db slug link replace verbose :
  preserves same_db (download_and_extract_plugin E slug link replace verbose).
Proof.
  intros s. unfold same_db.
  destruct slug as [| |slug]; try reflexivity.
  destruct (ws s !! slug) as [d|] eqn:Hd.
  - destruct replace.
    + destruct (download_replace E slug link verbose s) as (_ & _ & ->);
        [now rewrite Hd|].
      now destruct (fetch_archive_run E slug link
                      {| ws := delete slug (ws s); db := db s |}) as (_ & -> & _).
    + now rewrite download_skip by now rewrite Hd.
  - destruct (download_fresh E slug link replace verbose s Hd) as (_ & _ & ->).
    now destruct (fetch_archive_run E slug link s) as (_ & -> & _).
Qed.

Lemma gather_same_db ongoing failed :
  Forall (fun c : sqlval * M unit => preserves same_db c.2) ongoing ->
  preserves same_db (gather ongoing failed).
Proof.
  intros Hall. revert failed.
  induction Hall as [|[slug coro] ongoing Hc _ IH]; intros failed.
  - destruct failed; now apply preserves_pure.
  - cbn [gather]. apply preserves_bind; [apply same_db_trans| |].
    + apply preserves_attempt. exact Hc.
    + intros r. apply preserves_bind; [apply same_db_trans|now apply preserves_pure|].
      intros _. apply IH.
Qed.

Lemma download_loop_same_db plugins ongoing replace verbose :
  Forall (fun c : sqlval * M unit => preserves same_db c.2) ongoing ->
  preserves same_db (download_loop E plugins ongoing replace verbose).
Proof.
  revert ongoing. induction plugins as [|[slug link] rest IH]; intros ongoing Hall.
  - cbn [download_loop]. destruct (0 <? length ongoing)%nat;
      [now apply gather_same_db|now apply preserves_pure].
  - cbn [download_loop]. cbv zeta.
    assert (Forall (fun c : sqlval * M unit => preserves same_db c.2)
              (ongoing ++ [(slug, download_and_extract_plugin E slug link
                                    replace verbose)])) as Hall'.
    { apply Forall_app. split; [assumption|].
      constructor; [apply download_same_db|constructor]. }
    apply preserves_bind; [apply same_db_trans|now apply preserves_pure|].
    intros _. destruct (_ =? batch_size)%nat.
    + apply preserves_bind; [apply same_db_trans|now apply gather_same_db|].
      intros _. apply IH. constructor.
    + now apply IH.
Qed.

(** The download phase never writes to the database: however it ends, with
    whatever the servers answer, the two tables are as they were. *)
Theorem downloading_never_writes_the_database active_installs replace verbose st :
  db (final (download_plugins_in_database E active_installs replace verbose st))
  = db st.
Proof.
  revert st.
  change (preserves same_db
            (download_plugins_in_database E active_installs replace verbose)).
  unfold download_plugins_in_database.
  apply preserves_bind; [apply same_db_trans|now apply preserves_pure|].
  intros plugins. apply preserves_bind; [apply same_db_trans|now apply preserves_pure|].
  intros _. apply download_loop_same_db. constructor.
Qed.

End DownloadFrame.

Section AuditFrame.
Import Sqlite DbUtils.
Variable E : env.

Lemma audit_frame_refl s : audit_frame s s.
Proof.
  split; [reflexivity|]. destruct (PluginResults (db s)) as [t|]; [|reflexivity].
  exists []. now rewrite app_nil_r.
Qed.

Lemma audit_frame_trans a b c : audit_frame a b -> audit_frame b c -> audit_frame a c.
Proof.
  unfold audit_frame. intros [Hd1 Hr1] [Hd2 Hr2]. split; [congruence|].
  destruct (PluginResults (db a)) as [t|].
  - destruct Hr1 as [m1 Hr1]. rewrite Hr1 in Hr2. destruct Hr2 as [m2 Hr2].
    exists (m1 ++ m2). now rewrite app_assoc.
  - now rewrite Hr1 in Hr2.
Qed.

Lemma insert_result_audit_frame plugin item :
  preserves audit_frame (on_db (fun d => insert_result_into_db d plugin item)).
Proof.
  intros s. unfold on_db, insert_result_into_db, execute_insert_result. cbv zeta.
  destruct (PluginResults (db s)) as [t|] eqn:Ht;
    [|cbn; unfold audit_frame; now rewrite Ht].
  cbn [start_line end_line].
  destruct (bind_param (VInt (f_start_line item))) as [x|e] eqn:H1; cbn [rbind];
    [|apply bind_param_raise in H1 as ->; apply audit_frame_refl].
  destruct (bind_param (VInt (f_end_line item))) as [y|e] eqn:H2; cbn [rbind];
    [|apply bind_param_raise in H2 as ->; apply audit_frame_refl].
  cbn. unfold audit_frame. cbn. rewrite Ht. split; [reflexivity|]. now eexists.
Qed.

Lemma run_semgrep_audit_frame config plugin verbose :
  preserves audit_frame (run_semgrep E config plugin verbose).
Proof.
  intros s. destruct (run_semgrep_run E config plugin verbose s) as [_ ->].
  unfold audit_frame. cbn [db].
  split; [reflexivity|]. destruct (PluginResults (db s)) as [t|]; [|reflexivity].
  exists []. now rewrite app_nil_r.
Qed.

(** The audit pass only appends findings: however it ends, the catalogue
    table is as it was, and the findings recorded before are still there,
    in their order, before those it has added; without a table of findings
    it creates none. *)
Theorem audit_only_appends_findings config verbose st :
  audit_frame st (final (run_semgrep_and_store_results E config verbose st)).
Proof.
  pose proof audit_frame_refl as Hr. pose proof audit_frame_trans as Ht.
  revert st.
  change (preserves audit_frame (run_semgrep_and_store_results E config verbose)).
  unfold run_semgrep_and_store_results.
  apply preserves_bind; try assumption.
  intros plugins. apply preserves_for_each; try assumption. intros plugin.
  unfold audit_plugin.
  apply preserves_bind; try assumption; [apply run_semgrep_audit_frame|].
  intros _. apply preserves_bind; try assumption.
  intros items. apply preserves_for_each; try assumption. intros item.
  apply preserves_bind; try assumption; [apply insert_result_audit_frame|].
  intros _. now apply preserves_pure.
Qed.

End AuditFrame.

(** ** Downloads: the directory that appears, and the schedule *)

Section ExtractionExtras.
Variable E : env.

(** The archive names the directory, not the slug.  When no member of the
    fetched archive lies under the slug, the download ends as fetching ends
    and leaves the slug without a directory, so that the next download of
    the slug sends the request again. *)
Theorem archive_names_the_directory slug link replace verbose st z :
  ws st !! slug = None ->
  fetched E link = Some z ->
  Forall (fun m => m_top m <> slug) z ->
  let r := download_and_extract_plugin E (Sqlite.SText slug) link replace verbose st in
  outcome r = outcome (fetch_archive E slug link st) /\
  ws (final r) !! slug = None /\
  actions (events (download_and_extract_plugin E (Sqlite.SText slug) link
                     replace verbose (final r))) = [HttpGet link].
Proof.
  intros Hs Hz Hall r. subst r.
  destruct (download_fresh E slug link replace verbose st Hs) as (Ho & _ & Hf).
  destruct (fetch_archive_run E slug link st) as (_ & _ & Hrun).
  rewrite Hz in Hrun. destruct Hrun as [Hw _].
  assert (ws (final (download_and_extract_plugin E (Sqlite.SText slug) link
                       replace verbose st)) !! slug = None) as Hnone.
  { rewrite Hf, Hw, extractall_ne by assumption. exact Hs. }
  split_and!; [exact Ho|exact Hnone|].
  now destruct (download_fresh E slug link replace verbose _ Hnone) as (_ & -> & _).
Qed.

(** A directory that a download has begun is taken for a download.  When
    one of the members of the fetched archive before its first damaged
    member lies under the slug, the slug has a directory afterwards, whether
    the extraction was complete or not, and the next download without
    replacement does nothing but print. *)
Theorem begun_download_is_skipped_next_time slug link replace verbose st z path data :
  ws st !! slug = None ->
  fetched E link = Some z ->
  (slug, path, data) ∈ sound_prefix z ->
  let r := download_and_extract_plugin E (Sqlite.SText slug) link replace verbose st in
  is_Some (ws (final r) !! slug) /\
  download_and_extract_plugin E (Sqlite.SText slug) link false verbose (final r)
  = (Ok tt, final r, if verbose then [Print (MsgSkipExisting slug)] else []).
Proof.
  intros Hs Hz Hin r. subst r.
  destruct (download_fresh E slug link replace verbose st Hs) as (_ & _ & Hf).
  destruct (fetch_archive_run E slug link st) as (_ & _ & Hrun).
  rewrite Hz in Hrun. destruct Hrun as [Hw _].
  assert (is_Some (ws (final (download_and_extract_plugin E (Sqlite.SText slug)
                                link replace verbose st)) !! slug)) as Hsome.
  { rewrite Hf, Hw. eapply extractall_creates. eassumption. }
  split; [exact Hsome|]. now apply download_skip.
Qed.

End ExtractionExtras.

Section ExtractionWitnesses.

Lemma archive_names_the_directory_witness :
  let r := download_and_extract_plugin sample_env (Sqlite.SText "hello-dolly")
             (Sqlite.SText hello_link) false false nothing_yet in
  outcome r = outcome (fetch_archive sample_env "hello-dolly"
                         (Sqlite.SText hello_link) nothing_yet) /\
  ws (final r) !! "hello-dolly" = None /\
  actions (events (download_and_extract_plugin sample_env (Sqlite.SText "hello-dolly")
                     (Sqlite.SText hello_link) false false (final r)))
  = [HttpGet (Sqlite.SText hello_link)].
Proof.
  apply (archive_names_the_directory sample_env "hello-dolly"
           (Sqlite.SText hello_link) false false nothing_yet hello_zip).
  - reflexivity.
  - vm_compute. reflexivity.
  - repeat constructor; discriminate.
Defined.

Lemma begun_download_is_skipped_next_time_witness :
  let r := download_and_extract_plugin sample_env (Sqlite.SText "hello")
             (Sqlite.SText hello_link) false true nothing_yet in
  is_Some (ws (final r) !! "hello") /\
  download_and_extract_plugin sample_env (Sqlite.SText "hello")
    (Sqlite.SText hello_link) false true (final r)
  = (Ok tt, final r, [Print (MsgSkipExisting "hello")]).
Proof.
  apply (begun_download_is_skipped_next_time sample_env "hello"
           (Sqlite.SText hello_link) false true nothing_yet hello_zip
           ["hello.php"] "<?php echo 1;").
  - reflexivity.
  - vm_compute. reflexivity.
  - apply (bool_decide_unpack _). vm_compute. exact I.
Defined.

End ExtractionWitnesses.

Section ScheduleExtras.
Import Sqlite DbUtils.
Variable E : env.

Lemma admitted_schedule t : admitted (schedule t) = admitted t.
Proof.
  unfold admitted, schedule. induction t as [|e t IH]; [reflexivity|].
  destruct e; cbn; now rewrite ?IH.
Qed.

Lemma resolved_schedule t : resolved (schedule t) = resolved t.
Proof.
  unfold resolved, schedule. induction t as [|e t IH]; [reflexivity|].
  destruct e; cbn; now rewrite ?IH.
Qed.

Lemma admitted_resolve l t : admitted ((Resolve <$> l) ++ t) = admitted t.
Proof. unfold admitted. induction l as [|x l IH]; [reflexivity|]. exact IH. Qed.

Lemma resolved_resolve l t : resolved ((Resolve <$> l) ++ t) = l ++ resolved t.
Proof.
  unfold resolved. induction l as [|x l IH]; [reflexivity|].
  cbn. now rewrite <- IH.
Qed.

Lemma batches_admitted plugins ongoing : admitted (batches plugins ongoing) = plugins.
Proof.
  revert ongoing. induction plugins as [|slug rest IH]; intros ongoing.
  - cbn [batches]. rewrite <- (app_nil_r (Resolve <$> ongoing)).
    now rewrite admitted_resolve.
  - cbn [batches]. cbv zeta. change (admitted (Admit slug :: ?t)) with (slug :: admitted t).
    f_equal. destruct (_ =? batch_size)%nat; [|apply IH].
    now rewrite admitted_resolve.
Qed.

Lemma batches_resolved plugins ongoing :
  resolved (batches plugins ongoing) = ongoing ++ plugins.
Proof.
  revert ongoing. induction plugins as [|slug rest IH]; intros ongoing.
  - cbn [batches]. rewrite <- (app_nil_r (Resolve <$> ongoing)).
    now rewrite resolved_resolve.
  - cbn [batches]. cbv zeta.
    change (resolved (Admit slug :: ?t)) with (resolved t).
    destruct (_ =? batch_size)%nat.
    + rewrite resolved_resolve, IH. cbn [app]. now rewrite <- app_assoc.
    + rewrite IH. now rewrite <- app_assoc.
Qed.

Lemma handler_slug slug slug' e :
  is_Some (handler slug e) -> is_Some (handler slug' e).
Proof. destruct e; cbn; intros H; try (now apply is_Some_None in H); eauto. Qed.

Lemma extractall_quiet w z slug :
  breaks_quietly z ->
  match (extractall w z).1 with
  | Ok _ => True
  | Raise e => is_Some (handler slug e)
  end.
Proof.
  intros Hall. revert w. induction Hall as [|m z Hm _ IH]; intros w; [exact I|].
  cbn [extractall]. destruct (m_data m) as [data|written e]; [apply IH|].
  cbn [fst]. now apply (handler_slug "").
Qed.

(** Fetching from a quiet link ends normally. *)
Lemma fetch_archive_quiet slug link s :
  quiet_link E link -> outcome (fetch_archive E slug link s) = Ok tt.
Proof.
  intros Hq. destruct (fetch_archive_run E slug link s) as (_ & _ & Hrun).
  unfold quiet_link in Hq.
  destruct (fetched E link) as [z|]; destruct Hrun as [_ ->]; [|reflexivity].
  pose proof (extractall_quiet (ws s) z slug (Hq z eq_refl)) as Hz.
  destruct (extractall (ws s) z).1 as [u|e]; [reflexivity|].
  now destruct Hz as [msg ->].
Qed.

Lemma download_text_ok slug link replace verbose s :
  quiet_link E link ->
  outcome (download_and_extract_plugin E (SText slug) link replace verbose s) = Ok tt.
Proof.
  intros Hq. destruct (ws s !! slug) as [d|] eqn:Hd.
  - destruct replace.
    + destruct (download_replace E slug link verbose s) as (-> & _);
        [now rewrite Hd|now apply fetch_archive_quiet].
    + now rewrite download_skip by now rewrite Hd.
  - destruct (download_fresh E slug link replace verbose s Hd) as (-> & _).
    now apply fetch_archive_quiet.
Qed.

Lemma gather_ok ongoing s :
  Forall (fun c : sqlval * M unit => forall s, outcome (c.2 s) = Ok tt) ongoing ->
  outcome (gather ongoing None s) = Ok tt.
Proof.
  intros Hall. revert s. induction Hall as [|[slug coro] ongoing Hc _ IH]; intros s;
    [reflexivity|].
  cbn [gather]. rewrite outcome_bind.
  specialize (Hc s). cbn [snd] in Hc. unfold attempt at 1 2.
  destruct (coro s) as [[[u|e] s1] t1]; [|discriminate Hc].
  cbn [outcome final fst snd]. rewrite outcome_bind. cbn [emit outcome final fst snd].
  apply IH.
Qed.

Lemma download_loop_exact plugins ongoing replace verbose s :
  Forall (fun c : sqlval * M unit =>
            (forall s, schedule (events (c.2 s)) = []) /\
            (forall s, outcome (c.2 s) = Ok tt)) ongoing ->
  Forall (fun p : sqlval * sqlval =>
            (exists slug, p.1 = SText slug) /\ quiet_link E p.2) plugins ->
  outcome (download_loop E plugins ongoing replace verbose s) = Ok tt /\
  schedule (events (download_loop E plugins ongoing replace verbose s))
  = batches plugins.*1 ongoing.*1.
Proof.
  intros Hq Hall. revert ongoing s Hq.
  induction Hall as [|[slug link] rest [[text Hs] Hlink] _ IH]; intros ongoing s Hq.
  - assert (Forall (fun c : sqlval * M unit =>
                      forall s, schedule (events (c.2 s)) = []) ongoing) as Hq1
      by (eapply Forall_impl; [exact Hq|now intros c [H _]]).
    assert (Forall (fun c : sqlval * M unit =>
                      forall s, outcome (c.2 s) = Ok tt) ongoing) as Hq2
      by (eapply Forall_impl; [exact Hq|now intros c [_ H]]).
    cbn [download_loop batches fmap list_fmap].
    destruct (0 <? length ongoing)%nat eqn:Hl.
    + split; [now apply gather_ok|now apply gather_schedule].
    + apply Nat.ltb_ge in Hl. destruct ongoing; [now split|cbn in Hl; lia].
  - cbn [fst] in Hs. cbn [snd] in Hlink. subst slug.
    cbn [download_loop batches fmap list_fmap fst]. cbv zeta.
    set (coro := download_and_extract_plugin E (SText text) link replace verbose).
    assert (Forall (fun c : sqlval * M unit =>
                      (forall s, schedule (events (c.2 s)) = []) /\
                      (forall s, outcome (c.2 s) = Ok tt))
              (ongoing ++ [(SText text, coro)])) as Hq'.
    { apply Forall_app. split; [assumption|]. constructor; [|constructor].
      split; intros s'; [apply download_quiet|now apply download_text_ok]. }
    assert (Forall (fun c : sqlval * M unit =>
                      forall s, schedule (events (c.2 s)) = [])
              (ongoing ++ [(SText text, coro)])) as Hq1
      by (eapply Forall_impl; [exact Hq'|now intros c [H _]]).
    assert (Forall (fun c : sqlval * M unit =>
                      forall s, outcome (c.2 s) = Ok tt)
              (ongoing ++ [(SText text, coro)])) as Hq2
      by (eapply Forall_impl; [exact Hq'|now intros c [_ H]]).
    rewrite outcome_bind, events_bind, schedule_app.
    cbn [emit outcome final events fst snd].
    change (schedule [Admit (SText text)]) with [Admit (SText text)]. cbn [app].
    replace (length (ongoing.*1 ++ [SText text]))
      with (length (ongoing ++ [(SText text, coro)]))
      by (rewrite !length_app, length_fmap; reflexivity).
    destruct (length (ongoing ++ [(SText text, coro)]) =? batch_size)%nat.
    + rewrite outcome_bind, events_bind, schedule_app.
      rewrite (gather_ok _ s Hq2), (gather_schedule _ None s Hq1).
      destruct (IH [] (final (gather (ongoing ++ [(SText text, coro)]) None s)))
        as [Ho Hsch]; [constructor|].
      split; [exact Ho|]. rewrite Hsch, fmap_app. reflexivity.
    + destruct (IH _ s Hq') as [Ho Hsch]. split; [exact Ho|].
      rewrite Hsch, fmap_app. reflexivity.
Qed.

(** Every selected record is downloaded once.  When the selection answers,
    every selected slug is a text, and no archive fetched from a selected
    link breaks with an exception other than the two that the download
    handles, the download phase returns normally, and the downloads it
    admits are those of the selected records, each once and in the order of
    the selection; so are the downloads it completes. *)
Theorem every_selected_plugin_is_downloaded_once
    active_installs replace verbose st plugins :
  select_plugins_for_download (db st) (now E) active_installs = Ok plugins ->
  Forall (fun p : sqlval * sqlval =>
            (exists slug, p.1 = SText slug) /\ quiet_link E p.2) plugins ->
  let r := download_plugins_in_database E active_installs replace verbose st in
  outcome r = Ok tt /\
  admitted (events r) = plugins.*1 /\
  resolved (events r) = plugins.*1.
Proof.
  intros Hsel Hall r. subst r.
  destruct (download_loop_exact plugins [] replace verbose st) as [Ho Hsch];
    [constructor|assumption|].
  rewrite <- admitted_schedule, <- resolved_schedule.
  unfold download_plugins_in_database.
  rewrite outcome_bind, events_bind, schedule_app.
  cbn [outcome final events fst snd]. rewrite Hsel.
  rewrite outcome_bind, events_bind, schedule_app.
  cbn [print emit outcome final events fst snd].
  change (schedule [] ++ schedule [Print (MsgLength (length plugins))] ++
          schedule (events (download_loop E plugins [] replace verbose st)))
    with (schedule (events (download_loop E plugins [] replace verbose st))).
  rewrite Ho, Hsch. split_and!; [reflexivity|apply batches_admitted|].
  now rewrite batches_resolved.
Qed.

End ScheduleExtras.

Section ScheduleWitnesses.
Import Sqlite DbUtils.

Lemma every_selected_plugin_is_downloaded_once_witness :
  let r := download_plugins_in_database sample_env 10 false false hello_listed in
  outcome r = Ok tt /\
  admitted (events r) = [(SText "hello", SText hello_link); (SText "p1", SText "N/A")].*1 /\
  resolved (events r) = [(SText "hello", SText hello_link); (SText "p1", SText "N/A")].*1.
Proof.
  apply (every_selected_plugin_is_downloaded_once sample_env 10 false false
           hello_listed).
  - vm_compute. reflexivity.
  - repeat constructor; try (eexists; reflexivity); cbn [snd]; intros z Hz.
    + injection Hz as <-. repeat constructor; eexists; reflexivity.
    + discriminate Hz.
Defined.

End ScheduleWitnesses.

(** ** The selection away from the day of the bound *)

Section SelectionExtras.
Import Digits DateTime Sqlite DbUtils.
Local Open Scope nat_scope.

Lemma compare_cons x s y t :
  String.compare (String x s) (String y t)
  = match Ascii.compare x y with Eq => String.compare s t | c => c end.
Proof. reflexivity. Qed.

Lemma digit_compare a b :
  a < 10 -> b < 10 -> Ascii.compare (digit a) (digit b) = (a ?= b).
Proof.
  intros Ha Hb.
  do 10 (destruct a as [|a];
         [do 10 (destruct b as [|b]; [reflexivity|]); lia|]).
  lia.
Qed.

Lemma two_digits_compare qa ra qb rb (c : comparison) :
  ra < 10 -> rb < 10 ->
  match qa ?= qb with
  | Eq => match ra ?= rb with Eq => c | o => o end
  | o => o
  end
  = match 10 * qa + ra ?= 10 * qb + rb with Eq => c | o => o end.
Proof.
  intros Ha Hb.
  destruct (Nat.compare_spec qa qb) as [->|H|H].
  - destruct (Nat.compare_spec ra rb) as [->|H|H].
    + now rewrite Nat.compare_refl.
    + now rewrite (proj2 (Nat.compare_lt_iff _ _)) by lia.
    + now rewrite (proj2 (Nat.compare_gt_iff _ _)) by lia.
  - now rewrite (proj2 (Nat.compare_lt_iff _ _)) by lia.
  - now rewrite (proj2 (Nat.compare_gt_iff _ _)) by lia.
Qed.

Lemma pad2_compare a b r1 r2 :
  a < 100 -> b < 100 ->
  String.compare (pad2 a +:+ r1) (pad2 b +:+ r2)
  = match a ?= b with Eq => String.compare r1 r2 | o => o end.
Proof.
  intros Ha Hb. rewrite !pad2_append, !compare_cons.
  rewrite !digit_compare
    by (try apply Nat.Div0.div_lt_upper_bound; try apply Nat.mod_upper_bound; lia).
  rewrite two_digits_compare by (apply Nat.mod_upper_bound; lia).
  now rewrite <- !Nat.div_mod_eq.
Qed.

Lemma hundreds_compare qa ra qb rb (c : comparison) :
  ra < 100 -> rb < 100 ->
  match qa ?= qb with
  | Eq => match ra ?= rb with Eq => c | o => o end
  | o => o
  end
  = match 100 * qa + ra ?= 100 * qb + rb with Eq => c | o => o end.
Proof.
  intros Ha Hb.
  destruct (Nat.compare_spec qa qb) as [->|H|H].
  - destruct (Nat.compare_spec ra rb) as [->|H|H].
    + now rewrite Nat.compare_refl.
    + now rewrite (proj2 (Nat.compare_lt_iff _ _)) by lia.
    + now rewrite (proj2 (Nat.compare_gt_iff _ _)) by lia.
  - now rewrite (proj2 (Nat.compare_lt_iff _ _)) by lia.
  - now rewrite (proj2 (Nat.compare_gt_iff _ _)) by lia.
Qed.

Lemma pad4_compare a b r1 r2 :
  a < 100 * 100 -> b < 100 * 100 ->
  String.compare (pad4 a +:+ r1) (pad4 b +:+ r2)
  = match a ?= b with Eq => String.compare r1 r2 | o => o end.
Proof.
  intros Ha Hb. rewrite !pad4_append.
  rewrite pad2_compare by (apply Nat.Div0.div_lt_upper_bound; lia).
  rewrite pad2_compare by (apply Nat.mod_upper_bound; lia).
  rewrite hundreds_compare by (apply Nat.mod_upper_bound; lia).
  now rewrite <- !Nat.div_mod_eq.
Qed.

(** The stored text against the bound: the dates decide, and on the same
    date the blank sorts below the letter T. *)
Lemma canonical_against_iso y m d h mi sec b :
  y < 100 * 100 -> m < 100 -> d < 100 ->
  year b < 100 * 100 -> month b < 100 -> day b < 100 ->
  String.compare (canonical_timestamp y m d h mi sec) (isoformat b)
  = match y ?= year b with
    | Eq => match m ?= month b with
            | Eq => match d ?= day b with Eq => Lt | o => o end
            | o => o
            end
    | o => o
    end.
Proof.
  intros Hy Hm Hd Hyb Hmb Hdb.
  unfold canonical_timestamp, strftime_canonical, isoformat.
  cbn [year month day hour minute second].
  rewrite pad4_compare by assumption.
  destruct (y ?= year b); try reflexivity.
  rewrite (compare_common_prefix "-").
  rewrite pad2_compare by assumption.
  destruct (m ?= month b); try reflexivity.
  rewrite (compare_common_prefix "-").
  rewrite pad2_compare by assumption.
  destruct (d ?= day b); reflexivity.
Qed.

Lemma re_canonical_timestamp y m d h mi sec :
  y < 100 * 100 -> m < 100 -> d < 100 -> h < 100 -> mi < 100 -> sec < 100 ->
  re_canonical (canonical_timestamp y m d h mi sec)
  = Some (mk_datetime y m d h mi sec 0, EmptyString).
Proof.
  intros Hy Hm Hd Hh Hmi Hs.
  unfold re_canonical, canonical_timestamp, strftime_canonical.
  cbn [year month day hour minute second].
  erewrite p_bind_some by (apply p_Y_pad4; lia).
  erewrite p_bind_some by apply p_lit_append.
  erewrite p_bind_some by (rewrite p_two_pad2 by assumption; reflexivity).
  erewrite p_bind_some by apply p_lit_append.
  erewrite p_bind_some by (rewrite p_two_pad2 by assumption; reflexivity).
  erewrite p_bind_some by apply p_lit_append.
  erewrite p_bind_some by (rewrite p_two_pad2 by assumption; reflexivity).
  erewrite p_bind_some by apply p_lit_append.
  erewrite p_bind_some by (rewrite p_two_pad2 by assumption; reflexivity).
  erewrite p_bind_some by apply p_lit_append.
  rewrite <- (append_empty_r (pad2 sec)).
  erewrite p_bind_some by (rewrite p_two_pad2 by assumption; reflexivity).
  reflexivity.
Qed.

Lemma dates_decide y m d yb mb db (rest : bool) :
  (y, m, d) <> (yb, mb, db) ->
  match match y ?= yb with
        | Eq => match m ?= mb with
                | Eq => match d ?= db with Eq => Lt | o => o end
                | o => o
                end
        | o => o
        end
  with Gt | Eq => true | Lt => false end
  = (yb <? y) || (yb =? y) && ((mb <? m) || (mb =? m) && ((db <? d) || (db =? d) && rest)).
Proof.
  intros Hne.
  destruct (Nat.compare_spec y yb) as [->|H|H].
  - rewrite Nat.ltb_irrefl, Nat.eqb_refl. cbn [orb andb].
    destruct (Nat.compare_spec m mb) as [->|H|H].
    + rewrite Nat.ltb_irrefl, Nat.eqb_refl. cbn [orb andb].
      destruct (Nat.compare_spec d db) as [->|H|H]; [done| |].
      * rewrite (proj2 (Nat.ltb_ge _ _)) by lia.
        now rewrite (proj2 (Nat.eqb_neq _ _)) by lia.
      * now rewrite (proj2 (Nat.ltb_lt _ _)) by lia.
    + rewrite (proj2 (Nat.ltb_ge _ _)) by lia.
      now rewrite (proj2 (Nat.eqb_neq _ _)) by lia.
    + now rewrite (proj2 (Nat.ltb_lt _ _)) by lia.
  - rewrite (proj2 (Nat.ltb_ge _ _)) by lia.
    now rewrite (proj2 (Nat.eqb_neq _ _)) by lia.
  - now rewrite (proj2 (Nat.ltb_lt _ _)) by lia.
Qed.

Lemma off_boundary_day_agrees now r :
  valid_date (year now) (month now) (day now) = true ->
  off_boundary_day now r ->
  sql_ge (last_updated r) (adapt_datetime_iso (minus_years now 2))
  = within_two_years now (last_updated r).
Proof.
  intros Hv Hoff. apply valid_date_bounds in Hv as (Hy & Hm & Hd).
  unfold off_boundary_day in Hoff.
  destruct (last_updated r) as [|k|s]; try reflexivity.
  destruct Hoff as (y & m & d & h & mi & sec & (Hy' & Hm' & Hd' & Hh & Hmi & Hs)
                    & -> & Hne).
  unfold within_two_years. rewrite re_canonical_timestamp by assumption.
  unfold sql_ge, sql_compare, adapt_datetime_iso.
  assert (day (minus_years now 2) <= 31) as Hdb
    by (unfold minus_years; cbn [day]; lia).
  rewrite canonical_against_iso;
    try assumption; try (unfold minus_years; cbn [year month]; lia); [|lia].
  unfold dt_leb, key. cbn [lex_leb year month day hour minute second microsecond].
  now apply dates_decide.
Qed.

(** Away from the day of the bound the selection is the specified one.
    When no stored timestamp is of the day two years before now (the
    timestamps being canonical ones), the query returns exactly the records
    with more active installs than the threshold and a last update within
    two years, in the order of the table; rows with NULL there are left
    out. *)
Theorem selection_is_as_specified_off_the_boundary_day db now n t :
  valid_date (year now) (month now) (day now) = true ->
  int64 n ->
  PluginData db = Some t ->
  Forall (off_boundary_day now) t ->
  select_plugins_for_download db now n = Ok (spec_select t now n).
Proof.
  intros Hv Hn Ht Hall. unfold select_plugins_for_download, spec_select. cbv zeta.
  rewrite Ht, (bind_param_int64 _ Hn). cbn [rbind except_ProgrammingError].
  f_equal.
  assert (filter (fun r => sql_gt (active_installs r) (SInt n)
                           && sql_ge (last_updated r)
                                (adapt_datetime_iso (minus_years now 2)) = true) t
          = filter (fun r => sql_gt (active_installs r) (SInt n)
                             && within_two_years now (last_updated r) = true) t)
    as Hfilter.
  { clear Ht. induction Hall as [|r t' Hr _ IH]; [reflexivity|].
    rewrite !filter_cons, IH, (off_boundary_day_agrees now r Hv Hr). reflexivity. }
  now rewrite Hfilter.
Qed.

Lemma selection_is_as_specified_off_the_boundary_day_witness :
  select_plugins_for_download
    (mk_database (Some [recent_row "p1"; old_akismet_row]) None) noon_2026_11_04 10
  = Ok (spec_select [recent_row "p1"; old_akismet_row] noon_2026_11_04 10).
Proof.
  apply (selection_is_as_specified_off_the_boundary_day
           (mk_database (Some [recent_row "p1"; old_akismet_row]) None)
           noon_2026_11_04 10).
  - reflexivity.
  - unfold int64. lia.
  - reflexivity.
  - constructor; [|constructor; [exact I|constructor]].
    exists 2025, 6, 1, 9, 30, 0. split_and!; try lia; [reflexivity|discriminate].
Defined.

End SelectionExtras.

(** ** Downloads: a workspace that is complete, and what [verbose] adds *)

Section RerunExtras.
Import Sqlite DbUtils.
Variable E : env.

Lemma http_gets_app t1 t2 : http_gets (t1 ++ t2) = http_gets t1 ++ http_gets t2.
Proof. apply omap_app. Qed.

Lemma gather_still w ongoing s :
  Forall (fun c : sqlval * M unit =>
            forall s, ws s = w ->
              outcome (c.2 s) = Ok tt /\ final (c.2 s) = s /\
              http_gets (events (c.2 s)) = []) ongoing ->
  ws s = w ->
  outcome (gather ongoing None s) = Ok tt /\
  final (gather ongoing None s) = s /\
  http_gets (events (gather ongoing None s)) = [].
Proof.
  intros Hall Hw. induction Hall as [|[slug coro] ongoing Hc _ IH]; [now split_and!|].
  destruct (Hc s Hw) as (Ho & Hf & Hg). cbn [snd] in Ho, Hf, Hg.
  cbn [gather]. rewrite outcome_bind, final_bind, events_bind, http_gets_app.
  unfold attempt. destruct (coro s) as [[[u|e] s1] t1]; [|discriminate Ho].
  cbn [outcome final events fst snd] in Hf, Hg |- *. subst s1. rewrite Hg.
  rewrite outcome_bind, final_bind, events_bind, http_gets_app.
  cbn [emit outcome final events fst snd]. exact IH.
Qed.

Lemma download_loop_still w plugins ongoing verbose s :
  Forall (fun c : sqlval * M unit =>
            forall s, ws s = w ->
              outcome (c.2 s) = Ok tt /\ final (c.2 s) = s /\
              http_gets (events (c.2 s)) = []) ongoing ->
  Forall (fun p : sqlval * sqlval =>
            exists slug, p.1 = SText slug /\ is_Some (w !! slug)) plugins ->
  ws s = w ->
  outcome (download_loop E plugins ongoing false verbose s) = Ok tt /\
  final (download_loop E plugins ongoing false verbose s) = s /\
  http_gets (events (download_loop E plugins ongoing false verbose s)) = [].
Proof.
  intros Hq Hall Hw. revert ongoing Hq.
  induction Hall as [|[slug link] rest (text & Hs & Hd) _ IH]; intros ongoing Hq.
  - cbn [download_loop]. destruct (0 <? length ongoing)%nat;
      [now apply (gather_still w)|now split_and!].
  - cbn [fst] in Hs. subst slug. cbn [download_loop]. cbv zeta.
    set (coro := download_and_extract_plugin E (SText text) link false verbose).
    assert (Forall (fun c : sqlval * M unit =>
                      forall s, ws s = w ->
                        outcome (c.2 s) = Ok tt /\ final (c.2 s) = s /\
                        http_gets (events (c.2 s)) = [])
              (ongoing ++ [(SText text, coro)])) as Hq'.
    { apply Forall_app. split; [assumption|]. constructor; [|constructor].
      intros s' Hs'. cbn [snd]. unfold coro.
      rewrite download_skip by now rewrite Hs'. now destruct verbose. }
    rewrite outcome_bind, final_bind, events_bind, http_gets_app.
    cbn [emit outcome final events fst snd http_gets omap app].
    destruct (_ =? batch_size)%nat.
    + destruct (gather_still w _ s Hq' Hw) as (Ho & Hf & Hg).
      rewrite outcome_bind, final_bind, events_bind, http_gets_app, Ho, Hf, Hg.
      apply IH. constructor.
    + now apply IH.
Qed.

(** A download phase over a workspace that is complete requests nothing.
    When every selected slug has its directory and the downloads are not to
    be replaced, the phase returns normally without any request, and the
    workspace and the database are as they were. *)
Theorem complete_workspace_requests_nothing active_installs verbose st plugins :
  select_plugins_for_download (db st) (now E) active_installs = Ok plugins ->
  Forall (fun p : sqlval * sqlval =>
            exists slug, p.1 = SText slug /\ is_Some (ws st !! slug)) plugins ->
  let r := download_plugins_in_database E active_installs false verbose st in
  outcome r = Ok tt /\ final r = st /\ http_gets (events r) = [].
Proof.
  intros Hsel Hall r. subst r.
  destruct (download_loop_still (ws st) plugins [] verbose st) as (Ho & Hf & Hg);
    [constructor|assumption|reflexivity|].
  unfold download_plugins_in_database.
  rewrite outcome_bind, final_bind, events_bind, http_gets_app.
  cbn [outcome final events fst snd]. rewrite Hsel.
  rewrite outcome_bind, final_bind, events_bind, http_gets_app.
  cbn [print emit outcome final events fst snd].
  now rewrite Ho, Hf, Hg.
Qed.

(** [verbose] only prints: with and without it, the download of a plugin
    ends the same way, in the same state, after the same actions. *)
Theorem verbose_only_prints slug link replace st :
  let quiet := download_and_extract_plugin E slug link replace false st in
  let loud := download_and_extract_plugin E slug link replace true st in
  outcome loud = outcome quiet /\
  final loud = final quiet /\
  actions (events loud) = actions (events quiet).
Proof.
  cbv zeta. destruct slug as [| |slug]; try now split_and!.
  destruct (ws st !! slug) as [d|] eqn:Hd.
  - destruct replace.
    + destruct (download_replace E slug link true st) as (-> & -> & ->);
        [now rewrite Hd|].
      now destruct (download_replace E slug link false st) as (-> & -> & ->);
        [rewrite Hd|].
    + rewrite !download_skip by now rewrite Hd. now split_and!.
  - destruct (download_fresh E slug link replace true st Hd) as (-> & -> & ->).
    now destruct (download_fresh E slug link replace false st Hd) as (-> & -> & ->).
Qed.

End RerunExtras.

Section RerunWitnesses.
Import Sqlite DbUtils.

Lemma complete_workspace_requests_nothing_witness :
  let st := mk_state (ws hello_present)
              (mk_database (Some [recent_row "hello"]) (Some [])) in
  let r := download_plugins_in_database sample_env 10 false true st in
  outcome r = Ok tt /\ final r = st /\ http_gets (events r) = [].
Proof.
  apply (complete_workspace_requests_nothing sample_env 10 true
           (mk_state (ws hello_present)
              (mk_database (Some [recent_row "hello"]) (Some [])))
           [(SText "hello", SText "N/A")]).
  - vm_compute. reflexivity.
  - constructor; [|constructor]. exists "hello". split; [reflexivity|].
    apply (bool_decide_unpack _). vm_compute. exact I.
Defined.

End RerunWitnesses.

(** ** Failures that nothing catches *)

Section FailureExtras.
Import Sqlite DbUtils.
Variable E : env.

Lemma store_page_fails verbose p s e :
  page_fails E p = Some e ->
  store_page E verbose p s = (Raise e, s, [PageRequest p]).
Proof.
  unfold page_fails, store_page, get_plugins, bind, emit, raise.
  destruct (catalog E p) as [|code [body|]]; try discriminate.
  - now intros [= <-].
  - destruct (code =? 200); [|discriminate]. now intros [= <-].
Qed.

Lemma store_pages_fail verbose l p l' s e :
  Forall (page_is_stored E) l -> page_fails E p = Some e ->
  is_Some (PluginData (db s)) ->
  exists s' t,
    for_break (l ++ p :: l') (store_page E verbose) s = (Raise e, s', t) /\
    page_requests t = l ++ [p].
Proof.
  intros Hall Hp. revert s. induction Hall as [|q l Hq _ IH]; intros s Hs.
  - eexists _, _. split.
    + cbn [app for_break]. apply bind_raise. now apply store_page_fails.
    + reflexivity.
  - destruct (store_page_stored E verbose q s Hq Hs) as (s1 & t1 & H1 & Hs1 & Ht1).
    destruct (IH s1 Hs1) as (s2 & t2 & H2 & Ht2).
    eexists _, _. split.
    + cbn [app for_break]. eapply bind_ok; eassumption.
    + now rewrite page_requests_app, Ht1, Ht2.
Qed.

(** A catalogue page that does not answer, or answers 200 with a body that
    is not JSON, ends [write_plugins_to_db] with the exception of the
    request ([RequestException], [JSONDecodeError]): when page 1 announces
    [N] pages and the pages before page [k] are stored, the exception comes
    after the requests for page 1 and for the pages 1 to [k]. *)
Theorem failed_request_is_not_caught N k verbose st e :
  1 <= k <= N ->
  (exists info pl,
     catalog E 1 = Status 200 (Some (mk_page (Some info) pl)) /\
     info !! "pages" = Some (VInt N)) ->
  (forall p, 1 <= p < k -> page_is_stored E p) ->
  page_fails E k = Some e ->
  is_Some (PluginData (db st)) ->
  let r := write_plugins_to_db E verbose st in
  outcome r = Raise e /\ page_requests (events r) = 1 :: seqZ 1 k.
Proof.
  intros Hk (info & pl & Hc & Hpages) Hgood Hbad Hs r. subst r.
  assert (seqZ 1 N = seqZ 1 (k - 1) ++ k :: seqZ (k + 1) (N - k)) as Hsplit.
  { replace N with ((k - 1) + (1 + (N - k))) at 1 by lia.
    rewrite seqZ_app by lia. f_equal.
    replace (1 + (k - 1)) with k by lia.
    rewrite seqZ_cons by lia. f_equal. f_equal; lia. }
  assert (Forall (page_is_stored E) (seqZ 1 (k - 1))) as Hall
    by (apply Forall_forall; intros p Hp%elem_of_seqZ; apply Hgood; lia).
  destruct (store_pages_fail verbose _ k (seqZ (k + 1) (N - k)) st e Hall Hbad Hs)
    as (s1 & t1 & H1 & Ht1).
  assert (write_plugins_to_db E verbose st = (Raise e, s1, [PageRequest 1] ++ t1))
    as ->.
  { unfold write_plugins_to_db. eapply bind_ok; [apply get_plugins_ok; eassumption|].
    cbn beta iota. unfold bind at 1, lift at 1, getitem. rewrite Hpages.
    unfold bind at 1, lift at 1. cbn [page_range].
    rewrite Hsplit, H1. reflexivity. }
  split; [reflexivity|]. cbn [events snd]. rewrite page_requests_app, Ht1.
  cbn [page_requests omap app]. f_equal.
  replace k with ((k - 1) + 1) at 3 by lia.
  rewrite seqZ_app by lia. f_equal. now replace (1 + (k - 1)) with k by lia.
Qed.

(** A count that is there but null is not replaced by the default: for an
    entry with a slug whose dates convert, [None] under [active_installs]
    makes the write raise [TypeError], whatever the database holds. *)
Theorem null_count_is_not_defaulted db plugin :
  is_ok (convert_date DateTime.re_last_updated DateTime.strftime_canonical
           (dict_get plugin "last_updated" VNone)) = true ->
  is_ok (convert_date DateTime.re_added DateTime.strftime_date
           (dict_get plugin "added" VNone)) = true ->
  is_Some (plugin !! "slug") ->
  plugin !! "active_installs" = Some VNone ->
  insert_plugin_into_db db plugin = Raise TypeError.
Proof.
  intros Hlu Had [sl Hsl] Hai.
  unfold insert_plugin_into_db, prepare_data, getitem. cbv zeta.
  destruct (convert_date DateTime.re_last_updated _ _); [|discriminate].
  destruct (convert_date DateTime.re_added _ _); [|discriminate].
  cbn [rbind]. rewrite Hsl. cbn [rbind].
  now rewrite (dict_get_present _ _ _ _ Hai).
Qed.

End FailureExtras.

Section FailureWitnesses.
Import Sqlite DbUtils.

Lemma failed_request_is_not_caught_witness :
  let r := write_plugins_to_db offline_env false nothing_yet in
  outcome r = Raise RequestException /\ page_requests (events r) = 1 :: seqZ 1 3.
Proof.
  apply (failed_request_is_not_caught offline_env 5 3 false nothing_yet).
  - lia.
  - eexists _, _. split; [reflexivity|]. vm_compute. reflexivity.
  - intros p Hp. eexists _, _. split.
    + cbn [catalog offline_env].
      replace (p =? 3) with false by (symmetry; apply Z.eqb_neq; lia). reflexivity.
    + repeat constructor.
  - reflexivity.
  - eexists. reflexivity.
Defined.

Lemma null_count_is_not_defaulted_witness :
  insert_plugin_into_db empty_schema
    {[ "slug" := VStr "akismet"; "active_installs" := VNone ]}
  = Raise TypeError.
Proof.
  apply (null_count_is_not_defaulted empty_schema).
  - vm_compute. reflexivity.
  - vm_compute. reflexivity.
  - apply (bool_decide_unpack _). vm_compute. exact I.
  - vm_compute. reflexivity.
Defined.

End FailureWitnesses.

Section SlugExtras.
Import Sqlite DbUtils.
Variable E : env.

Lemma download_outcome slug link replace verbose s :
  quiet_link E link ->
  outcome (download_and_extract_plugin E slug link replace verbose s) = Ok tt \/
  outcome (download_and_extract_plugin E slug link replace verbose s) = Raise TypeError.
Proof.
  intros Hq. destruct slug as [| |text]; [now right|now right|left].
  now apply download_text_ok.
Qed.

Lemma download_no_text slug link replace verbose s :
  (forall text, slug <> SText text) ->
  outcome (download_and_extract_plugin E slug link replace verbose s) = Raise TypeError.
Proof. intros H. destruct slug as [| |text]; try reflexivity. now destruct (H text). Qed.

Lemma gather_failed ongoing e s : outcome (gather ongoing (Some e) s) = Raise e.
Proof.
  revert s. induction ongoing as [|[slug coro] ongoing IH]; intros s; [reflexivity|].
  cbn [gather]. rewrite outcome_bind.
  destruct (attempt_run coro s) as (_ & _ & r & ->).
  rewrite outcome_bind. cbn [emit outcome final fst snd]. apply IH.
Qed.

(** A batch with a coroutine that raises ends with an exception. *)
Lemma gather_raises ongoing s :
  Exists (fun c : sqlval * M unit => forall s, exists e, outcome (c.2 s) = Raise e)
    ongoing ->
  exists e, outcome (gather ongoing None s) = Raise e.
Proof.
  revert s. induction ongoing as [|[slug coro] ongoing IH]; intros s Hex;
    [now apply Exists_nil in Hex|].
  cbn [gather]. rewrite outcome_bind.
  destruct (coro s) as [[[u|e] s1] t1] eqn:Hrun.
  - assert (attempt coro s = (Ok None, s1, t1)) as ->
      by (unfold attempt; now rewrite Hrun).
    cbn [outcome final fst snd]. rewrite outcome_bind.
    cbn [emit outcome final fst snd].
    apply Exists_cons in Hex as [Hex|Hex]; [|now apply IH].
    destruct (Hex s) as [e He]. cbn [snd] in He. rewrite Hrun in He. discriminate He.
  - assert (attempt coro s = (Ok (Some e), s1, t1)) as ->
      by (unfold attempt; now rewrite Hrun).
    cbn [outcome final fst snd]. rewrite outcome_bind.
    cbn [emit outcome final fst snd].
    exists e. apply gather_failed.
Qed.

Lemma gather_outcome ongoing s :
  Forall (fun c : sqlval * M unit =>
            forall s, outcome (c.2 s) = Ok tt \/ outcome (c.2 s) = Raise TypeError)
    ongoing ->
  (outcome (gather ongoing None s) = Ok tt \/
   outcome (gather ongoing None s) = Raise TypeError) /\
  (Exists (fun c : sqlval * M unit => forall s, outcome (c.2 s) = Raise TypeError)
     ongoing ->
   outcome (gather ongoing None s) = Raise TypeError).
Proof.
  intros Hall. revert s. induction Hall as [|[slug coro] ongoing Hc _ IH]; intros s.
  - split; [now left|]. intros H. now apply Exists_nil in H.
  - cbn [gather]. rewrite outcome_bind.
    specialize (Hc s). cbn [snd] in Hc.
    destruct (coro s) as [[[u|e] s1] t1] eqn:Hrun; cbn [outcome fst] in Hc.
    + assert (attempt coro s = (Ok None, s1, t1)) as ->
        by (unfold attempt; now rewrite Hrun).
      cbn [outcome final fst snd]. rewrite outcome_bind.
      cbn [emit outcome final fst snd].
      destruct (IH s1) as [H1 H2]. split; [exact H1|].
      intros Hex. apply Exists_cons in Hex as [Hex|Hex]; [|now apply H2].
      specialize (Hex s). cbn [snd] in Hex. rewrite Hrun in Hex. discriminate Hex.
    + destruct Hc as [Hc|Hc]; [discriminate Hc|]. injection Hc as ->.
      assert (attempt coro s = (Ok (Some TypeError), s1, t1)) as ->
        by (unfold attempt; now rewrite Hrun).
      cbn [outcome final fst snd]. rewrite outcome_bind.
      cbn [emit outcome final fst snd].
      rewrite gather_failed. split; [now right|reflexivity].
Qed.

(** The loop ends with an exception once a slug that is no text is among
    the records, whatever the other downloads do. *)
Lemma download_loop_fails plugins ongoing replace verbose s :
  Exists (fun c : sqlval * M unit => forall s, exists e, outcome (c.2 s) = Raise e)
    ongoing \/
  Exists (fun p : sqlval * sqlval => forall slug, p.1 <> SText slug) plugins ->
  exists e, outcome (download_loop E plugins ongoing replace verbose s) = Raise e.
Proof.
  revert ongoing s. induction plugins as [|[slug link] rest IH]; intros ongoing s Hex.
  - destruct Hex as [Hex|Hex]; [|now apply Exists_nil in Hex].
    cbn [download_loop]. destruct ongoing as [|c ongoing]; [now apply Exists_nil in Hex|].
    cbn [length Nat.ltb Nat.leb]. now apply gather_raises.
  - cbn [download_loop]. cbv zeta.
    set (coro := download_and_extract_plugin E slug link replace verbose).
    assert (Exists (fun c : sqlval * M unit =>
                      forall s, exists e, outcome (c.2 s) = Raise e)
              (ongoing ++ [(slug, coro)]) \/
            Exists (fun p : sqlval * sqlval => forall slug, p.1 <> SText slug) rest)
      as Hex'.
    { destruct Hex as [Hex|Hex].
      - left. apply Exists_app. now left.
      - apply Exists_cons in Hex as [Hex|Hex]; [|now right].
        left. apply Exists_app. right. constructor. intros s'. cbn [snd fst] in *.
        exists TypeError. now apply download_no_text. }
    rewrite outcome_bind. cbn [emit outcome final fst snd].
    destruct (_ =? batch_size)%nat; [|now apply IH].
    rewrite outcome_bind.
    destruct (outcome (gather (ongoing ++ [(slug, coro)]) None s)) as [u|e] eqn:Hg;
      [|now exists e].
    apply IH. destruct Hex' as [Hex'|Hex']; [|now right].
    destruct (gather_raises _ s Hex') as [e He]. rewrite He in Hg. discriminate Hg.
Qed.

Lemma download_loop_raises plugins ongoing replace verbose s :
  Forall (fun c : sqlval * M unit =>
            forall s, outcome (c.2 s) = Ok tt \/ outcome (c.2 s) = Raise TypeError)
    ongoing ->
  Forall (fun p : sqlval * sqlval => quiet_link E p.2) plugins ->
  Exists (fun c : sqlval * M unit => forall s, outcome (c.2 s) = Raise TypeError)
    ongoing \/
  Exists (fun p : sqlval * sqlval => forall slug, p.1 <> SText slug) plugins ->
  outcome (download_loop E plugins ongoing replace verbose s) = Raise TypeError.
Proof.
  intros Hall Hq. revert ongoing s Hall.
  induction Hq as [|[slug link] rest Hlink _ IH]; intros ongoing s Hall Hex.
  - destruct Hex as [Hex|Hex]; [|now apply Exists_nil in Hex].
    cbn [download_loop]. destruct ongoing as [|c ongoing]; [now apply Exists_nil in Hex|].
    cbn [length Nat.ltb Nat.leb]. now apply gather_outcome.
  - cbn [snd] in Hlink. cbn [download_loop]. cbv zeta.
    set (coro := download_and_extract_plugin E slug link replace verbose).
    assert (Forall (fun c : sqlval * M unit =>
                      forall s, outcome (c.2 s) = Ok tt \/
                                outcome (c.2 s) = Raise TypeError)
              (ongoing ++ [(slug, coro)])) as Hall'.
    { apply Forall_app. split; [assumption|]. constructor; [|constructor].
      intros s'. now apply download_outcome. }
    assert (Exists (fun c : sqlval * M unit =>
                      forall s, outcome (c.2 s) = Raise TypeError)
              (ongoing ++ [(slug, coro)]) \/
            Exists (fun p : sqlval * sqlval => forall slug, p.1 <> SText slug) rest)
      as Hex'.
    { destruct Hex as [Hex|Hex].
      - left. apply Exists_app. now left.
      - apply Exists_cons in Hex as [Hex|Hex]; [|now right].
        left. apply Exists_app. right. constructor. intros s'. cbn [snd fst] in *.
        now apply download_no_text. }
    rewrite outcome_bind. cbn [emit outcome final fst snd].
    destruct (_ =? batch_size)%nat; [|now apply IH].
    rewrite outcome_bind.
    destruct (gather_outcome _ s Hall') as [[Hg|Hg] Hraise].
    + rewrite Hg. apply IH; [constructor|].
      destruct Hex' as [Hex'|Hex']; [|now right].
      rewrite (Hraise Hex') in Hg. discriminate Hg.
    + now rewrite Hg.
Qed.

(** A selected record whose slug is no text (NULL, which the catalogue
    table lets in) ends the download phase with an exception: the path of
    its directory cannot be built.  The exception is [TypeError] when no
    archive fetched from a selected link breaks with an exception other
    than the two that the download handles; otherwise it may be the one
    that such an archive has raised before. *)
Theorem slug_that_is_no_text_ends_the_downloads
    active_installs replace verbose st plugins :
  select_plugins_for_download (db st) (now E) active_installs = Ok plugins ->
  Exists (fun p : sqlval * sqlval => forall slug, p.1 <> SText slug) plugins ->
  let r := download_plugins_in_database E active_installs replace verbose st in
  (exists e, outcome r = Raise e) /\
  (Forall (fun p : sqlval * sqlval => quiet_link E p.2) plugins ->
   outcome r = Raise TypeError).
Proof.
  intros Hsel Hex r. subst r. unfold download_plugins_in_database.
  rewrite outcome_bind. cbn [outcome final fst snd]. rewrite Hsel.
  rewrite outcome_bind. cbn [print emit outcome final fst snd]. split.
  - apply download_loop_fails. now right.
  - intros Hq. apply download_loop_raises; [constructor|assumption|now right].
Qed.

End SlugExtras.

Section SlugWitnesses.
Import Sqlite DbUtils.

Lemma slug_that_is_no_text_ends_the_downloads_witness :
  outcome (download_plugins_in_database sample_env 10 false false
             (mk_state ∅
                (mk_database
                   (Some [mk_plugin_row SNull (SText "1.0") (SInt 50) (SInt 100)
                            (SText "2025-06-01 09:30:00") SNull (SText hello_link)])
                   (Some []))))
  = Raise TypeError.
Proof.
  destruct (slug_that_is_no_text_ends_the_downloads sample_env 10 false false
              (mk_state ∅
                 (mk_database
                    (Some [mk_plugin_row SNull (SText "1.0") (SInt 50) (SInt 100)
                             (SText "2025-06-01 09:30:00") SNull (SText hello_link)])
                    (Some [])))
              [(SNull, SText hello_link)]) as [_ Htype].
  - vm_compute. reflexivity.
  - constructor. intros slug. discriminate.
  - apply Htype. repeat constructor. cbn [snd]. intros z Hz.
    injection Hz as <-. repeat constructor; eexists; reflexivity.
Defined.

End SlugWitnesses.

(** ** The audit pass over a workspace whose findings can all be read *)

Section PassExtras.
Import Sqlite DbUtils.
Variable E : env.




End PassExtras.

Section PassWitnesses.
Import Sqlite DbUtils.


(** A threshold that is no signed 64-bit integer cannot be bound to the
    query: on a database that has its catalogue table the selection raises
    [OverflowError], which nothing catches. *)
Theorem threshold_has_to_fit_64_bits db now n t :
  PluginData db = Some t -> ~ int64 n ->
  select_plugins_for_download db now n = Raise OverflowError.
Proof.
  intros Ht Hn. unfold select_plugins_for_download. cbv zeta. rewrite Ht.
  cbn [bind_param].
  destruct ((- 2 ^ 63 <=? n)%Z && (n <? 2 ^ 63)%Z) eqn:Hb; [|reflexivity].
  apply andb_true_iff in Hb as [H1%Z.leb_le H2%Z.ltb_lt]. now destruct Hn.
Qed.

Lemma threshold_has_to_fit_64_bits_witness :
  select_plugins_for_download restocked noon_2026_11_04 (2 ^ 63)
  = Raise OverflowError.
Proof.
  apply (threshold_has_to_fit_64_bits restocked noon_2026_11_04 (2 ^ 63)
           [akismet_row]).
  - reflexivity.
  - unfold int64. lia.
Defined.

End PassWitnesses.
